(** * vsh: the in-memory filesystem, PATH lookup and the Runner lifecycle

    A shallow embedding of [fs/fs_mem.go], [handler.go] and of the
    [Reset]/[Run]/[subshell] methods of the Runner, followed by the
    properties proved about them.

    Go maps are [gmap]s, Go strings are [string]s compared bytewise,
    [fs.FileMode] and [int] values are [Z] with their bit operations, and
    a method that mutates its receiver returns the new receiver next to
    its Go result.  Operations are taken one at a time, so the locks of
    the tree do not appear; [time.Now()] is the argument [now] of the
    operation that reads the clock. *)

From Stdlib Require Import ZArith String Ascii List Lia.
From stdpp Require Import base gmap strings list sorting.

Local Open Scope string_scope.
Local Open Scope list_scope.
Local Open Scope Z_scope.

(** ** Go's [strings] package, as far as the sources use it *)

Module Strings.

(** [strings.Split(s, sep)] for a one-byte separator: the sources split on
    "/" and on ":" only.  The result is never empty. *)
Fixpoint Split (sep : ascii) (s : string) : list string :=
  match s with
  | EmptyString => [""]
  | String c s' =>
      if Ascii.eqb c sep then "" :: Split sep s'
      else match Split sep s' with
           | [] => [String c ""]
           | p :: ps => String c p :: ps
           end
  end.

(** [strings.Join(elems, sep)]. *)
Fixpoint Join (elems : list string) (sep : string) : string :=
  match elems with
  | [] => ""
  | [e] => e
  | e :: es => e +:+ sep +:+ Join es sep
  end.

Fixpoint cutPrefix (prefix s : string) : option string :=
  match prefix, s with
  | EmptyString, _ => Some s
  | String a p', String b s' => if Ascii.eqb a b then cutPrefix p' s' else None
  | String _ _, EmptyString => None
  end.

(** [strings.HasPrefix(s, prefix)]. *)
Definition HasPrefix (s prefix : string) : bool :=
  match cutPrefix prefix s with Some _ => true | None => false end.

(** [strings.TrimPrefix(s, prefix)]. *)
Definition TrimPrefix (s prefix : string) : string :=
  match cutPrefix prefix s with Some rest => rest | None => s end.

(** A byte that occurs in a string. *)
Fixpoint contains (c : ascii) (s : string) : bool :=
  match s with
  | EmptyString => false
  | String a s' => Ascii.eqb a c || contains c s'
  end.

End Strings.

(** ** Go's [path] package: [Clean], [Join], [IsAbs] *)

Module Path.

Definition slash : ascii := "/"%char.

(** One element of the path met by [Clean]: empty and "." elements are
    dropped, ".." removes the last real element when there is one, is
    dropped at the root of a rooted path, and is kept otherwise.  [out]
    holds the elements written so far, last one first. *)
Definition cleanStep (rooted : bool) (out : list string) (elem : string) : list string :=
  if decide (elem = "" ∨ elem = ".") then out
  else if decide (elem = "..") then
    match out with
    | top :: rest =>
        if decide (top = "..") then (if rooted then out else ".." :: out) else rest
    | [] => if rooted then [] else [".."]
    end
  else elem :: out.

(** [path.Clean]: the shortest path equivalent to [p] by purely lexical
    processing, "." for the empty result. *)
Definition Clean (p : string) : string :=
  if decide (p = "") then "."
  else
    let rooted := Strings.HasPrefix p "/" in
    let out := fold_left (cleanStep rooted) (Strings.Split slash p) [] in
    let body := Strings.Join (rev out) "/" in
    if rooted then "/" +:+ body
    else if decide (body = "") then "." else body.

(** The buffer [path.Join] builds before cleaning it: an element is
    appended once the buffer is non-empty or the element is. *)
Fixpoint joinBuf (buf : string) (elem : list string) : string :=
  match elem with
  | [] => buf
  | e :: es =>
      if decide (buf = "" ∧ e = "") then joinBuf buf es
      else joinBuf ((if decide (buf = "") then buf else buf +:+ "/") +:+ e) es
  end.

(** [path.Join(elem...)]. *)
Definition Join (elem : list string) : string :=
  if forallb (fun e => bool_decide (e = "")) elem then ""
  else Clean (joinBuf "" elem).

(** [path.IsAbs]. *)
Definition IsAbs (p : string) : bool := Strings.HasPrefix p "/".

End Path.

(** ** [io/fs]: file modes and the errors the sources return *)

Definition FileMode := Z.
Definition Time := Z.

Definition ModeDir : FileMode := Z.shiftl 1 31.
Definition O_CREATE : Z := 64.
Definition O_TRUNC : Z := 512.

(** [FileMode.IsDir]. *)
Definition IsDir (m : FileMode) : bool := negb (Z.land m ModeDir =? 0).

(** Go [error] values: the three [io/fs] sentinels, [*fs.PathError], the
    errors made by [fmt.Errorf] (a fixed message, "invalid perm: %v", a
    message wrapping a cause with %w, a message after a %q argument, a
    message before a %T argument), and the Runner's [ExitStatus]. *)
Inductive error : Type :=
  | ErrNotExist
  | ErrExist
  | ErrInvalid
  | PathError (Op Path : string) (Err : error)
  | Errorf (msg : string)
  | ErrorfPerm (perm : FileMode)
  | ErrorfWrap (msg : string) (cause : error)
  | ErrorfQuoted (quoted : string) (msg : string)
  | ErrorfType (msg : string) (T : string)
  | ExitStatus (code : Z).

Inductive result (A : Type) : Type :=
  | Ok (a : A)
  | Fail (e : error).
Arguments Ok {A} a.
Arguments Fail {A} e.

(** ** The in-memory filesystem of [fs/fs_mem.go] *)

Record fileinfo : Type := mkFileinfo {
  name : string;
  size : Z;
  modified : Time;
  mode : FileMode
}.

(** The [fs.File] the base filesystem of a snapshot opens: a reader, which
    may be an [io.Writer] as well (an [*os.File] is one).  [write] is what
    writing some bytes to it returns, the writer keeping [io.Writer]'s
    contract that a short write comes with an error. *)
Inductive baseFile : Type :=
  | readOnly
  | writable (write : list Byte.byte → option error).

(** What a file's [opener] closure is: the one [WriteFile] installs reads
    and writes the file's own [content] through a [lazyAccess]; the one
    [SnapshotFS] hands to [writeLazyFile] opens the file of the base
    filesystem, which may fail. *)
Inductive lazyOpener : Type :=
  | contentOpener
  | baseOpener (opened : result baseFile).

Record file : Type := mkFile {
  f_info : fileinfo;
  f_opener : option lazyOpener;
  f_content : list Byte.byte
}.

#[warnings="-register-all"] Inductive dir : Type :=
  mkDir (info : fileinfo) (dirs : gmap string dir) (files : gmap string file).

Definition d_info (d : dir) : fileinfo := let 'mkDir i _ _ := d in i.
Definition d_dirs (d : dir) : gmap string dir := let 'mkDir _ ds _ := d in ds.
Definition d_files (d : dir) : gmap string file := let 'mkDir _ _ fs := d in fs.

Definition touch (now : Time) (i : fileinfo) : fileinfo :=
  mkFileinfo (name i) (size i) now (mode i).

(** An [fs.File] handed out by [Open]/[OpenFile]: the directory or the
    file session, identified by the node's path in the tree. *)
Inductive handle : Type :=
  | dirHandle (path : string)
  | fileAccess (path : string).

(** [name == ""] for a name given by its "/"-separated parts: the workers
    below recurse on [parts[1:]] where the Go code recurses on
    [strings.Join(parts[1:], "/")] and splits it again. *)
Definition emptyName (parts : list string) : bool :=
  match parts with
  | [] | [""] => true
  | _ => false
  end.

Arguments emptyName : simpl never.

Definition newMemFS (now : Time) : dir :=
  mkDir (mkFileinfo "." 256 now (Z.lor 511 ModeDir)) ∅ ∅.

Module Dir.

(** [dir.getDir]. *)
Fixpoint getDir (parts : list string) (d : dir) : result dir :=
  match parts with
  | [] => Ok d
  | p :: ps =>
      if emptyName parts then Ok d
      else match d_dirs d !! p with
           | Some f => getDir ps f
           | None => Fail ErrNotExist
           end
  end.

(** [dir.getFile]. *)
Fixpoint getFile (parts : list string) (d : dir) : result file :=
  match parts with
  | [] => Fail ErrNotExist
  | [name] =>
      match d_files d !! name with
      | Some f => Ok f
      | None => Fail ErrNotExist
      end
  | p :: ps =>
      match getDir [p] d with
      | Ok sub => getFile ps sub
      | Fail e => Fail e
      end
  end.

(** Writing back the directory [getDir [p]] returned, after it was
    mutated in place: [d] itself for the empty part. *)
Definition putDir (p : string) (sub : dir) (d : dir) : dir :=
  if decide (p = "") then sub
  else mkDir (d_info d) (<[p := sub]> (d_dirs d)) (d_files d).

(** [dir.removePath].  In the recursive case the Go code first empties
    [sub] child by child and then unlinks [sub] from [d.dirs]; the tree
    under [d] afterwards is [d] without the entry, which is what is
    returned.  For an empty part [getDir] gives [d] itself; no caller
    passes one, every path being cleansed first. *)
Fixpoint removePath (parts : list string) (recursive : bool) (d : dir)
  : dir * option error :=
  match parts with
  | [] => (d, Some ErrNotExist)
  | [name] =>
      match d_files d !! name with
      | Some _ => (mkDir (d_info d) (d_dirs d) (delete name (d_files d)), None)
      | None =>
          match getDir [name] d with
          | Ok sub =>
              if bool_decide (d_dirs sub = ∅) && bool_decide (d_files sub = ∅) then
                (mkDir (d_info d) (delete name (d_dirs d)) (d_files d), None)
              else if recursive then
                (mkDir (d_info d) (delete name (d_dirs d)) (d_files d), None)
              else (d, Some ErrInvalid)
          | Fail _ => (d, Some ErrNotExist)
          end
      end
  | p :: ps =>
      match getDir [p] d with
      | Ok sub =>
          let '(sub', err) := removePath ps recursive sub in
          (putDir p sub' d, err)
      | Fail e => (d, Some e)
      end
  end.

(** [dir.Remove]. *)
Definition Remove (name : string) (d : dir) : dir * option error :=
  if decide (name = "" ∨ name = ".") then (d, None)
  else removePath (Strings.Split Path.slash name) false d.

(** [dir.RemoveAll]. *)
Definition RemoveAll (name : string) (d : dir) : dir * option error :=
  if decide (name = "" ∨ name = ".") then (d, None)
  else removePath (Strings.Split Path.slash name) true d.

(** The entries [ReadDir] collects before sorting: the files' infos, then
    the subdirectories' infos. *)
Definition entries (d : dir) : list fileinfo :=
  ((f_info ∘ snd) <$> map_to_list (d_files d))
  ++ ((d_info ∘ snd) <$> map_to_list (d_dirs d)).

(** The order [sort.Slice] establishes with [less = Name(i) < Name(j)]:
    no entry is followed by one of smaller name. *)
Definition nameLe (a b : fileinfo) : Prop :=
  String.leb (name a) (name b) = true.

#[global] Instance nameLe_dec a b : Decision (nameLe a b).
Proof. unfold nameLe. apply _. Defined.

Definition sortSlice (l : list fileinfo) : list fileinfo :=
  merge_sort nameLe l.

(** [dir.ReadDir]. *)
Fixpoint ReadDir (parts : list string) (d : dir) : result (list fileinfo) :=
  match parts with
  | [] => Ok (sortSlice (entries d))
  | p :: ps =>
      if emptyName parts then Ok (sortSlice (entries d))
      else match d_dirs d !! p with
           | Some sub => ReadDir ps sub
           | None => Fail ErrNotExist
           end
  end.

(** [dir.MkdirAll]; [perm] is given the directory bit at the first level
    and passed down with it.  The parent's modification time is set
    whether or not the entry had to be created. *)
Fixpoint MkdirAll (now : Time) (parts : list string) (perm : FileMode) (d : dir)
  : dir * option error :=
  match parts with
  | [] => (d, None)
  | p :: ps =>
      if emptyName parts then (d, None)
      else match d_files d !! p with
      | Some _ => (d, Some ErrExist)
      | None =>
          let perm' := if Z.land perm ModeDir =? 0 then Z.lor perm ModeDir else perm in
          let sub :=
            match d_dirs d !! p with
            | Some s => s
            | None => mkDir (mkFileinfo p 256 now perm') ∅ ∅
            end in
          match ps with
          | [] => (mkDir (touch now (d_info d)) (<[p := sub]> (d_dirs d)) (d_files d), None)
          | _ =>
              let '(sub', err) := MkdirAll now ps perm' sub in
              (mkDir (touch now (d_info d)) (<[p := sub']> (d_dirs d)) (d_files d), err)
          end
      end
  end.

(** [file.overwrite]: the metadata is updated before the first write is
    attempted, and no write is attempted for empty data.  The write goes
    through [fileAccess.Write]: it calls the opener, fails when the
    reader it gets is no [io.Writer], and returns what the writer
    returns otherwise; the writer of a file written here,
    [lazyAccess.Write], replaces the content. *)
Definition overwrite (now : Time) (data : list Byte.byte) (perm : FileMode) (f : file)
  : file * option error :=
  match f_opener f with
  | None => (f, Some (Errorf "missing opener"))
  | Some op =>
      let i := mkFileinfo (name (f_info f)) (Z.of_nat (List.length data)) now perm in
      match data, op with
      | [], _ => (mkFile i (f_opener f) (f_content f), None)
      | _, contentOpener => (mkFile i (f_opener f) data, None)
      | _, baseOpener (Fail e) =>
          (mkFile i (f_opener f) (f_content f),
           Some (ErrorfWrap "failed to read file" e))
      | _, baseOpener (Ok readOnly) =>
          (mkFile i (f_opener f) (f_content f),
           Some (Errorf "cannot write - opener did not provide io.Writer"))
      | _, baseOpener (Ok (writable write)) =>
          (mkFile i (f_opener f) (f_content f), write data)
      end
  end.

(** [dir.WriteFile]. *)
Fixpoint WriteFile (now : Time) (parts : list string) (data : list Byte.byte)
    (perm : FileMode) (d : dir) : dir * option error :=
  if negb (Z.land perm ModeDir =? 0) then (d, Some (ErrorfPerm perm))
  else match parts with
  | [] => (d, Some ErrNotExist)
  | [p] =>
      match d_files d !! p with
      | Some existing =>
          let '(f', err) := overwrite now data perm existing in
          (mkDir (d_info d) (d_dirs d) (<[p := f']> (d_files d)), err)
      | None =>
          let newFile :=
            mkFile (mkFileinfo p (Z.of_nat (List.length data)) now perm)
                   (Some contentOpener) data in
          (mkDir (d_info d) (d_dirs d) (<[p := newFile]> (d_files d)), None)
      end
  | p :: ps =>
      match d_dirs d !! p with
      | None => (d, Some ErrNotExist)
      | Some sub =>
          let '(sub', err) := WriteFile now ps data perm sub in
          (mkDir (d_info d) (<[p := sub']> (d_dirs d)) (d_files d), err)
      end
  end.

(** [dir.writeLazyFile]. *)
Fixpoint writeLazyFile (now : Time) (parts : list string) (opener : option lazyOpener)
    (perm : FileMode) (d : dir) : dir * option error :=
  if negb (Z.land perm ModeDir =? 0) then (d, Some (ErrorfPerm perm))
  else match parts with
  | [] => (d, Some ErrNotExist)
  | [p] =>
      (mkDir (d_info d) (d_dirs d)
         (<[p := mkFile (mkFileinfo p 0 now perm) opener []]> (d_files d)), None)
  | p :: ps =>
      match d_dirs d !! p with
      | None => (d, Some ErrNotExist)
      | Some sub =>
          let '(sub', err) := writeLazyFile now ps opener perm sub in
          (mkDir (d_info d) (<[p := sub']> (d_dirs d)) (d_files d), err)
      end
  end.

(** [file.open]. *)
Definition fileOpen (path : string) (f : file) : result handle :=
  match f_opener f with
  | None => Fail (Errorf "missing opener")
  | Some _ => Ok (fileAccess path)
  end.

(** [dir.Open]. *)
Definition Open (name : string) (d : dir) : result handle :=
  if decide (name = "" ∨ name = ".") then Ok (dirHandle name)
  else match getFile (Strings.Split Path.slash name) d with
  | Ok f => fileOpen name f
  | Fail _ =>
      match getDir (Strings.Split Path.slash name) d with
      | Ok _ => Ok (dirHandle name)
      | Fail _ => Fail (PathError "open" name ErrNotExist)
      end
  end.

(** Reading a file to its end, as [io.ReadAll] and [io.Copy] do through
    [fileAccess.Read]: a file written here gives its content (through
    [lazyAccess.Read]); a file of a snapshot gives what the base
    filesystem's reader gives, [base], unless its opener fails. *)
Definition readAll (base : file → result (list Byte.byte)) (f : file)
  : result (list Byte.byte) :=
  match f_opener f with
  | None => Fail (Errorf "missing opener")
  | Some contentOpener => Ok (f_content f)
  | Some (baseOpener (Fail e)) => Fail (ErrorfWrap "failed to read file" e)
  | Some (baseOpener (Ok _)) => base f
  end.

(** The node behind a handle [Open] returned: [Stat] on it. *)
Definition statHandle (h : handle) (d : dir) : result fileinfo :=
  match h with
  | dirHandle path =>
      if decide (path = "" ∨ path = ".") then Ok (d_info d)
      else match getDir (Strings.Split Path.slash path) d with
           | Ok sub => Ok (d_info sub)
           | Fail e => Fail e
           end
  | fileAccess path =>
      match getFile (Strings.Split Path.slash path) d with
      | Ok f => Ok (f_info f)
      | Fail e => Fail e
      end
  end.

(** Reading a handle to its end: [dir.Read] fails with Invalid. *)
Definition readHandle (base : file → result (list Byte.byte)) (h : handle) (d : dir)
  : result (list Byte.byte) :=
  match h with
  | dirHandle _ => Fail ErrInvalid
  | fileAccess path =>
      match getFile (Strings.Split Path.slash path) d with
      | Ok f => readAll base f
      | Fail e => Fail e
      end
  end.

End Dir.

(** [cleanse]: the normal form of a path, relative to the root. *)
Definition cleanse (p : string) : string :=
  let p := Path.Clean p in
  let p := Strings.TrimPrefix p ("." +:+ "/") in
  let p := Strings.TrimPrefix p "/" in
  if decide (p = ".") then "" else p.

Definition parts (name : string) : list string := Strings.Split Path.slash name.

Module MemFS.

(** [memFS.Stat]. *)
Definition Stat (name : string) (root : dir) : result fileinfo :=
  let name := cleanse name in
  match Dir.getFile (parts name) root with
  | Ok f => Ok (f_info f)
  | Fail _ =>
      match Dir.getDir (parts name) root with
      | Ok f => Ok (d_info f)
      | Fail _ => Fail (PathError "stat" name ErrNotExist)
      end
  end.

(** [memFS.ReadDir]. *)
Definition ReadDir (name : string) (root : dir) : result (list fileinfo) :=
  Dir.ReadDir (parts (cleanse name)) root.

(** [memFS.Open]. *)
Definition Open (name : string) (root : dir) : result handle :=
  Dir.Open (cleanse name) root.

(** [memFS.WriteFile]. *)
Definition WriteFile (now : Time) (path : string) (data : list Byte.byte)
    (perm : FileMode) (root : dir) : dir * option error :=
  Dir.WriteFile now (parts (cleanse path)) data perm root.

(** [memFS.Lstat]. *)
Definition Lstat (name : string) (root : dir) : result fileinfo := Fail ErrInvalid.

(** [memFS.OpenFile]. *)
Definition OpenFile (now : Time) (name : string) (flag : Z) (perm : FileMode)
    (root : dir) : dir * result handle :=
  let name := cleanse name in
  match Dir.getFile (parts name) root with
  | Ok f =>
      if negb (Z.land flag O_TRUNC =? 0) then
        match Dir.WriteFile now (parts name) [] perm root with
        | (root', Some err) => (root', Fail err)
        | (root', None) => (root', Dir.fileOpen name f)
        end
      else (root, Dir.fileOpen name f)
  | Fail _ =>
      if negb (Z.land flag O_CREATE =? 0) then
        match Dir.WriteFile now (parts name) [] perm root with
        | (root', Some err) => (root', Fail err)
        | (root', None) =>
            match Dir.getFile (parts name) root' with
            | Ok f => (root', Dir.fileOpen name f)
            | Fail _ => (root', Fail (PathError "openfile" name ErrNotExist))
            end
        end
      else (root, Fail (PathError "openfile" name ErrNotExist))
  end.

(** [memFS.MkdirAll]. *)
Definition MkdirAll (now : Time) (path : string) (perm : FileMode) (root : dir)
  : dir * option error :=
  Dir.MkdirAll now (parts (cleanse path)) perm root.

(** [memFS.writeLazyFile]. *)
Definition writeLazyFile (now : Time) (path : string) (opener : option lazyOpener)
    (perm : FileMode) (root : dir) : dir * option error :=
  Dir.writeLazyFile now (parts (cleanse path)) opener perm root.

(** [memFS.Remove]. *)
Definition Remove (path : string) (root : dir) : dir * option error :=
  Dir.Remove (cleanse path) root.

(** [memFS.RemoveAll]. *)
Definition RemoveAll (path : string) (root : dir) : dir * option error :=
  Dir.RemoveAll (cleanse path) root.

(** [memFS.ReadFile]. *)
Definition ReadFile (base : file → result (list Byte.byte)) (name : string) (root : dir)
  : result (list Byte.byte) :=
  match Dir.Open (cleanse name) root with
  | Fail err => Fail err
  | Ok f => Dir.readHandle base f root
  end.

End MemFS.

(** ** [fs/fs.go]: the filesystem rooted at a directory of the host *)

Module DirFS.

(** [dirFS.join]: the host path of [name] for the filesystem rooted at
    [dir]. *)
Definition join (dir name : string) : string := Path.Join ["."; dir; name].

End DirFS.

(** ** [expand.Variable] and environments *)

Inductive ValueKind : Type :=
  | Unknown | String_ | NameRef | Indexed | Associative | KeepValue.

(** [expand.Variable], with the fields the sources read or write. *)
Record Variable_ : Type := mkVariable {
  Set_ : bool;
  ReadOnly : bool;
  Kind : ValueKind;
  Str : string;
  List_ : list string
}.

(** The zero [Variable]: what [Get] returns for a name that is not set. *)
Definition unsetVariable : Variable_ := mkVariable false false Unknown "" [].

(** [Variable.IsSet]. *)
Definition IsSet (v : Variable_) : bool := Set_ v.

(** [Variable.String]. *)
Definition VariableString (v : Variable_) : string :=
  match Kind v with
  | String_ => Str v
  | Indexed => match List_ v with e :: _ => e | [] => "" end
  | _ => ""
  end.

(** ** [handler.go]: looking a command up in PATH *)

Module Handler.

(** [checkStat]; [osStat] is [os.Stat], the host's filesystem, giving the
    mode of the file found. *)
Definition checkStat (osStat : string → result FileMode) (dir file : string)
  : result string :=
  let file := if Path.IsAbs file then file else Path.Join [dir; file] in
  match osStat file with
  | Fail err => Fail err
  | Ok m =>
      if IsDir m then Fail (Errorf "is a directory")
      else if Z.land m 73 =? 0 then Fail (Errorf "permission denied")
      else Ok file
  end.

(** The candidate [lookPathDir] builds for one PATH element. *)
Definition candidate (elem file : string) : string :=
  if decide (elem = "" ∨ elem = ".") then "./" +:+ file
  else Path.Join [elem; file].

(** The loop of [lookPathDir] over the PATH elements. *)
Fixpoint lookPathLoop (osStat : string → result FileMode) (cwd file : string)
    (pathList : list string) : option string :=
  match pathList with
  | [] => None
  | elem :: rest =>
      match checkStat osStat cwd (candidate elem file) with
      | Ok f => Some f
      | Fail _ => lookPathLoop osStat cwd file rest
      end
  end.

(** [lookPathDir]; [env] is the [Get] method of the environment. *)
Definition lookPathDir (osStat : string → result FileMode) (cwd : string)
    (env : string → Variable_) (file : string) : result string :=
  let pathList := Strings.Split ":"%char (VariableString (env "PATH")) in
  let pathList := if (List.length pathList =? 0)%nat then [""] else pathList in
  match lookPathLoop osStat cwd file pathList with
  | Some f => Ok f
  | None => Fail (ErrorfQuoted file ": executable file not found in $PATH")
  end.

End Handler.

(** ** The Runner's environments

    [overlayEnviron] and the Runner's [setVar]/[setVarString] are declared
    elsewhere in the repository, outside the files embedded here; they
    follow the specification's description of the overlay.  Overlays are
    shared by reference between a Runner and its subshells, so they live
    in a heap, and an environment is a reference into it. *)

(** Modelled from the spec: an [expand.Environ] as the Runner holds one,
    the immutable base environment or a reference to an overlay;
    [overlayEnviron] is missing from the sources. *)
Inductive Environ : Type :=
  | baseEnviron (vars : gmap string Variable_)
  | overlayRef (l : nat).

(** Modelled from the spec: [overlayEnviron], missing from the sources: a
    local layer over a parent, "a background variant adds a write-guard". *)
Record overlayEnviron : Type := mkOverlay {
  parent : Environ;
  values : gmap string Variable_;
  guarded : bool
}.

Abbreviation heap := (list overlayEnviron) (only parsing).

Module Overlay.

(** Modelled from the spec: the lookup chain of [overlayEnviron.Get],
    which is missing from the sources: "checks the local layer, then each
    parent layer in order, finally the base; returns unset if absent
    anywhere".  [fuel] bounds the number of layers visited. *)
Fixpoint lookupVar (fuel : nat) (h : heap) (e : Environ) (name : string)
  {struct fuel} : Variable_ :=
  match e with
  | baseEnviron vars => default unsetVariable (vars !! name)
  | overlayRef l =>
      match fuel with
      | O => unsetVariable
      | S n =>
          match h !! l with
          | None => unsetVariable
          | Some o =>
              match values o !! name with
              | Some v => v
              | None => lookupVar n h (parent o) name
              end
          end
      end
  end.

(** Modelled from the spec: [overlayEnviron.Get] on the overlay at [l]. A
    layer's parent is allocated before it, so [S l] layers are enough. *)
Definition Get (h : heap) (l : nat) (name : string) : Variable_ :=
  lookupVar (S l) h (overlayRef l) name.

(** Modelled from the spec: [overlayEnviron.Set], missing from the
    sources: "writes only the local layer". *)
Definition Set_ (h : heap) (l : nat) (name : string) (vr : Variable_) : heap :=
  alter (fun o => mkOverlay (parent o) (<[name := vr]> (values o)) (guarded o)) l h.

(** Modelled from the spec: the view [overlayEnviron.Each] enumerates,
    missing from the sources: "the merged, de-duplicated view (local
    shadows parent shadows base)". *)
Fixpoint eachVar (fuel : nat) (h : heap) (e : Environ) {struct fuel}
  : gmap string Variable_ :=
  match e with
  | baseEnviron vars => vars
  | overlayRef l =>
      match fuel with
      | O => ∅
      | S n =>
          match h !! l with
          | None => ∅
          | Some o => values o ∪ eachVar n h (parent o)
          end
      end
  end.

(** Modelled from the spec: [overlayEnviron.Each] on the overlay at [l]. *)
Definition Each (h : heap) (l : nat) : gmap string Variable_ :=
  eachVar (S l) h (overlayRef l).

(** Modelled from the spec: [newOverlayEnviron], missing from the sources:
    "wrapping the environment in a fresh overlay layer; if background,
    that layer's writes are additionally guarded". *)
Definition newOverlayEnviron (parent : Environ) (background : bool) : overlayEnviron :=
  mkOverlay parent ∅ background.

(** Every layer's parent was allocated before the layer. *)
Definition heapOk (h : heap) : Prop :=
  ∀ l o, h !! l = Some o →
    match parent o with
    | overlayRef l' => (l' < l)%nat
    | baseEnviron _ => True
    end.

End Overlay.

(** ** The Runner *)

(** Statement trees, commands, handlers, streams and the filesystem are
    handles the Runner passes around without looking inside. *)
Definition Stmt : Type := nat.
Definition Command : Type := nat.

(** [syntax.Node] as [Run] distinguishes it. *)
Inductive Node : Type :=
  | FileNode (Name : string) (Stmts : list Stmt)
  | StmtNode (s : Stmt)
  | CommandNode (c : Command)
  | otherNode (T : string).

(** The fields of [Runner] that [Reset], [Run] and [subshell] name; the
    remaining ones are zero after [Reset] and in a new subshell. *)
Record Runner : Type := mkRunner {
  Env : gmap string Variable_;
  writeEnv : option nat;
  Dir : string;
  Params : list string;
  Vars : gmap string Variable_;
  Funcs : gmap string Stmt;
  TTY : bool;
  FileSystem : nat;
  Commands : gmap string nat;
  alias : gmap string nat;
  stdin : option nat;
  stdout : option nat;
  stderr : option nat;
  didReset : bool;
  filename : string;
  fatalErr : option error;
  returning : bool;
  exiting : bool;
  nonFatalHandlerErr : option error;
  exit : Z;
  lastExit : Z;
  bgProcs : list nat;
  opts : list bool;
  origDir : string;
  origParams : list string;
  origOpts : list bool;
  origStdin : option nat;
  origStdout : option nat;
  origStderr : option nat;
  dirStack : list string
}.

Abbreviation World := (list overlayEnviron * Runner)%type (only parsing).

(** The default whitespace set, " \t\n". *)
Definition defaultIFS : string :=
  String " "%char (String (ascii_of_nat 9) (String (ascii_of_nat 10) EmptyString)).

Module Interp.

(** Modelled from the spec: the Runner's [setVar], missing from the
    sources; it stores the variable in the Runner's overlay. *)
Definition setVar (h : heap) (l : nat) (name : string) (vr : Variable_) : heap :=
  Overlay.Set_ h l name vr.

(** Modelled from the spec: the Runner's [setVarString], missing from the
    sources; it stores a set, writable string. *)
Definition setVarString (h : heap) (l : nat) (name value : string) : heap :=
  setVar h l name (mkVariable true false String_ value []).

Definition readOnlyZero : Variable_ := mkVariable true true String_ "0" [].

(** The guarded seeding of [Reset]. *)
Definition seedUnlessSet (name : string) (vr : Variable_) (l : nat) (h : heap) : heap :=
  if IsSet (Overlay.Get h l name) then h else setVar h l name vr.

(** [Runner.Reset]. *)
Definition Reset (w : World) : World :=
  let '(h, r) := w in
  let first := negb (didReset r) in
  let oDir := if first then Dir r else origDir r in
  let oParams := if first then Params r else origParams r in
  let oOpts := if first then opts r else origOpts r in
  let oStdin := if first then stdin r else origStdin r in
  let oStdout := if first then stdout r else origStdout r in
  let oStderr := if first then stderr r else origStderr r in
  let l := List.length h in
  let h := (h ++ [mkOverlay (baseEnviron (Env r)) ∅ false])%list in
  let h := seedUnlessSet "HOME" (mkVariable true false String_ "/" []) l h in
  let h := seedUnlessSet "UID" readOnlyZero l h in
  let h := seedUnlessSet "EUID" readOnlyZero l h in
  let h := seedUnlessSet "GID" readOnlyZero l h in
  let h := setVarString h l "PWD" oDir in
  let h := setVarString h l "IFS" defaultIFS in
  let h := setVarString h l "OPTIND" "1" in
  (h,
   {| Env := Env r; writeEnv := Some l;
      Dir := oDir; Params := oParams; Vars := ∅; Funcs := ∅;
      TTY := TTY r; FileSystem := FileSystem r; Commands := Commands r;
      alias := ∅; stdin := oStdin; stdout := oStdout; stderr := oStderr;
      didReset := true; filename := ""; fatalErr := None;
      returning := false; exiting := false; nonFatalHandlerErr := None;
      exit := 0; lastExit := 0; bgProcs := []; opts := oOpts;
      origDir := oDir; origParams := oParams; origOpts := oOpts;
      origStdin := oStdin; origStdout := oStdout; origStderr := oStderr;
      dirStack := [oDir] |}).

(** The statement executor [Run] hands the node to, and [fillExpandConfig]:
    methods of the Runner defined outside the sources read here. *)
Record Executor : Type := mkExecutor {
  fillExpandConfig : World → World;
  stmts : list Stmt → World → World;
  stmt : Stmt → World → World;
  cmd : Command → World → World;
  exitShell : Z → World → World
}.

(** The assignments at the head of [Run]. *)
Definition clearTransient (filename' : string) (r : Runner) : Runner :=
  {| Env := Env r; writeEnv := writeEnv r;
     Dir := Dir r; Params := Params r; Vars := Vars r; Funcs := Funcs r;
     TTY := TTY r; FileSystem := FileSystem r; Commands := Commands r;
     alias := alias r; stdin := stdin r; stdout := stdout r; stderr := stderr r;
     didReset := didReset r; filename := filename'; fatalErr := None;
     returning := false; exiting := false;
     nonFatalHandlerErr := nonFatalHandlerErr r;
     exit := exit r; lastExit := lastExit r; bgProcs := bgProcs r; opts := opts r;
     origDir := origDir r; origParams := origParams r; origOpts := origOpts r;
     origStdin := origStdin r; origStdout := origStdout r;
     origStderr := origStderr r; dirStack := dirStack r |}.

Definition setFilename (filename' : string) (r : Runner) : Runner :=
  {| Env := Env r; writeEnv := writeEnv r;
     Dir := Dir r; Params := Params r; Vars := Vars r; Funcs := Funcs r;
     TTY := TTY r; FileSystem := FileSystem r; Commands := Commands r;
     alias := alias r; stdin := stdin r; stdout := stdout r; stderr := stderr r;
     didReset := didReset r; filename := filename'; fatalErr := fatalErr r;
     returning := returning r; exiting := exiting r;
     nonFatalHandlerErr := nonFatalHandlerErr r;
     exit := exit r; lastExit := lastExit r; bgProcs := bgProcs r; opts := opts r;
     origDir := origDir r; origParams := origParams r; origOpts := origOpts r;
     origStdin := origStdin r; origStdout := origStdout r;
     origStderr := origStderr r; dirStack := dirStack r |}.

Definition setVars (vars : gmap string Variable_) (r : Runner) : Runner :=
  {| Env := Env r; writeEnv := writeEnv r;
     Dir := Dir r; Params := Params r; Vars := vars; Funcs := Funcs r;
     TTY := TTY r; FileSystem := FileSystem r; Commands := Commands r;
     alias := alias r; stdin := stdin r; stdout := stdout r; stderr := stderr r;
     didReset := didReset r; filename := filename r; fatalErr := fatalErr r;
     returning := returning r; exiting := exiting r;
     nonFatalHandlerErr := nonFatalHandlerErr r;
     exit := exit r; lastExit := lastExit r; bgProcs := bgProcs r; opts := opts r;
     origDir := origDir r; origParams := origParams r; origOpts := origOpts r;
     origStdin := origStdin r; origStdout := origStdout r;
     origStderr := origStderr r; dirStack := dirStack r |}.

(** [Run] up to the type switch: the implicit [Reset], then the transient
    markers are cleared. *)
Definition prepare (ex : Executor) (w : World) : World :=
  let w := if didReset (snd w) then w else Reset w in
  let w := fillExpandConfig ex w in
  (fst w, clearTransient "" (snd w)).

(** The type switch of [Run]; [None] is its [default] case. *)
Definition execute (ex : Executor) (node : Node) (w : World) : option World :=
  match node with
  | FileNode Name Stmts =>
      let w := (fst w, setFilename Name (snd w)) in
      let w := stmts ex Stmts w in
      Some (if exiting (snd w) then w else exitShell ex (exit (snd w)) w)
  | StmtNode s => Some (stmt ex s w)
  | CommandNode c => Some (cmd ex c w)
  | otherNode _ => None
  end.

(** [maps.Insert(r.Vars, r.writeEnv.Each)]: every variable of the view is
    stored in [Vars]. *)
Definition mergeVars (w : World) : World :=
  let '(h, r) := w in
  match writeEnv r with
  | Some l => (h, setVars (Overlay.Each h l ∪ Vars r) r)
  | None => (h, r)
  end.

(** The conversion [ExitStatus(r.exit)] of an [int] to a [uint8]. *)
Definition toExitStatus (code : Z) : error := ExitStatus (Z.land code 255).

(** The three tests that end [Run]. *)
Definition outcome (r : Runner) : option error :=
  match fatalErr r with
  | Some e => Some e
  | None =>
      match nonFatalHandlerErr r with
      | Some e => Some e
      | None => if exit r =? 0 then None else Some (toExitStatus (exit r))
      end
  end.

(** [Runner.Run]. *)
Definition Run (ex : Executor) (node : Node) (w : World) : World * option error :=
  let w := prepare ex w in
  match execute ex node w with
  | None =>
      (w, Some (ErrorfType "node can only be File, Stmt, or Command: "
                  match node with otherNode T => T | _ => "" end))
  | Some w =>
      let w := mergeVars w in
      (w, outcome (snd w))
  end.

(** [Runner.subshell]: the world after the call, and the new Runner. *)
Definition subshell (background : bool) (w : World) : World * Runner :=
  let '(h, r) := if didReset (snd w) then w else Reset w in
  let l2 := List.length h in
  let penv := match writeEnv r with
              | Some l => overlayRef l
              | None => baseEnviron ∅
              end in
  let h := (h ++ [Overlay.newOverlayEnviron penv background])%list in
  ((h, r),
   {| Env := ∅; writeEnv := Some l2;
      Dir := Dir r; Params := Params r; Vars := ∅; Funcs := Funcs r;
      TTY := TTY r; FileSystem := FileSystem r; Commands := Commands r;
      alias := alias r; stdin := stdin r; stdout := stdout r; stderr := stderr r;
      didReset := true; filename := filename r; fatalErr := None;
      returning := false; exiting := false; nonFatalHandlerErr := None;
      exit := exit r; lastExit := lastExit r; bgProcs := []; opts := opts r;
      origDir := ""; origParams := []; origOpts := [];
      origStdin := None; origStdout := origStdout r; origStderr := None;
      dirStack := dirStack r |}).

(** [Runner.Subshell]. *)
Definition Subshell (w : World) : World * Runner := subshell true w.

End Interp.

(** ** The builtins: [rm], [mkdir], [ls], [cat] *)

(** One [fmt.Fprintf] to the error stream: the format and its arguments. *)
Record diag : Type := mkDiag {
  format : string;
  arg : string;
  cause : option error
}.

Module Builtin.

(** [RunnerContext], with the fields the builtins use; the filesystem is
    the in-memory one, and the output streams are writers that are there,
    given by what was written to them. *)
Record RunnerContext : Type := mkContext {
  FileSytem : dir;
  Dir : string;
  Stdin : option (list Byte.byte);
  Stdout : list Byte.byte;
  Stderr : list diag
}.

Definition withFileSytem (hc : RunnerContext) (root : dir) : RunnerContext :=
  mkContext root (Dir hc) (Stdin hc) (Stdout hc) (Stderr hc).

Definition toStdout (hc : RunnerContext) (data : list Byte.byte) : RunnerContext :=
  mkContext (FileSytem hc) (Dir hc) (Stdin hc) (Stdout hc ++ data) (Stderr hc).

Definition toStderr (hc : RunnerContext) (line : diag) : RunnerContext :=
  mkContext (FileSytem hc) (Dir hc) (Stdin hc) (Stdout hc) (Stderr hc ++ [line]).

(** [Rm]. *)
Fixpoint Rm (hc : RunnerContext) (args : list string) : RunnerContext * option error :=
  match args with
  | [] => (hc, None)
  | arg :: rest =>
      if decide (arg = "-r") then Rm hc rest
      else match MemFS.RemoveAll (Path.Join [Dir hc; arg]) (FileSytem hc) with
           | (root, Some err) =>
               (toStderr (withFileSytem hc root) (mkDiag "rm: %s: %v\n" arg (Some err)), None)
           | (root, None) => Rm (withFileSytem hc root) rest
           end
  end.

(** [Mkdir] of package [builtin], which the command line registers as
    "mkdir"; its text follows that of [main] in [cmd/vsh/main.go] (lines
    122 to 133).  [now] is the clock during the call. *)
Fixpoint Mkdir (now : Time) (hc : RunnerContext) (args : list string)
  : RunnerContext * option error :=
  match args with
  | [] => (hc, None)
  | arg :: rest =>
      if decide (arg = "-p") then Mkdir now hc rest
      else match MemFS.MkdirAll now (Path.Join [Dir hc; arg]) 511 (FileSytem hc) with
           | (root, Some err) =>
               (toStderr (withFileSytem hc root) (mkDiag "mkdir: %s: %v\n" arg (Some err)),
                None)
           | (root, None) => Mkdir now (withFileSytem hc root) rest
           end
  end.



(** The loop of [Cat] over its arguments. *)
Fixpoint catFiles (base : file → result (list Byte.byte)) (hc : RunnerContext)
    (args : list string) : RunnerContext * option error :=
  match args with
  | [] => (hc, None)
  | arg :: rest =>
      match MemFS.Open (Path.Join [Dir hc; arg]) (FileSytem hc) with
      | Fail err => (toStderr hc (mkDiag "cat: %s: %v\n" arg (Some err)), None)
      | Ok f =>
          match Dir.statHandle f (FileSytem hc) with
          | Fail err => (toStderr hc (mkDiag "cat: %s: %v\n" arg (Some err)), None)
          | Ok fi =>
              if IsDir (mode fi) then
                (toStderr hc (mkDiag "cat: %s: is a directory\n" arg None), None)
              else match Dir.readHandle base f (FileSytem hc) with
                   | Fail err =>
                       (toStderr hc (mkDiag "cat file: %s: %v\n" arg (Some err)), None)
                   | Ok data => catFiles base (toStdout hc data) rest
                   end
          end
      end
  end.

(** [Cat]. *)
Definition Cat (base : file → result (list Byte.byte)) (hc : RunnerContext)
    (args : list string) : RunnerContext * option error :=
  match args with
  | [] =>
      match Stdin hc with
      | None => (hc, None)
      | Some input => (toStdout hc input, None)
      end
  | _ => catFiles base hc args
  end.

End Builtin.

(** ** The shell options of the Runner *)

(** [shellOptsTable]: the flag byte and the name of each option. *)
Definition shellOptsTable : list (ascii * string) :=
  [("a"%char, "allexport"); ("e"%char, "errexit"); ("n"%char, "noexec");
   ("f"%char, "noglob"); ("u"%char, "nounset"); ("x"%char, "xtrace");
   (" "%char, "pipefail")].

Definition optAllExport : nat := 0.
Definition optErrExit : nat := 1.
Definition optNoExec : nat := 2.
Definition optNoGlob : nat := 3.
Definition optNoUnset : nat := 4.
Definition optXTrace : nat := 5.
Definition optPipeFail : nat := 6.

(** The loop of [optByFlag] over the table from index [i] on. *)
Fixpoint findFlag (flag : ascii) (i : nat) (table : list (ascii * string)) : option nat :=
  match table with
  | [] => None
  | opt :: rest => if Ascii.eqb (fst opt) flag then Some i else findFlag flag (S i) rest
  end.

(** [Runner.optByFlag]: the index of the option it returns a pointer to. *)
Definition optByFlag (flag : ascii) : option nat := findFlag flag 0 shellOptsTable.

(** The loop of [optByName]. *)
Fixpoint findName (name : string) (i : nat) (table : list (ascii * string)) : option nat :=
  match table with
  | [] => None
  | opt :: rest => if String.eqb (snd opt) name then Some i else findName name (S i) rest
  end.

(** [Runner.optByName]. *)
Definition optByName (name : string) : option nat := findName name 0 shellOptsTable.

(** ** Notions the properties are stated with *)

(** A path part as [cleanse] leaves it: not empty, not ".", without "/". *)
Definition goodPart (c : string) : Prop :=
  c ≠ "" ∧ c ≠ "." ∧ Strings.contains Path.slash c = false.

(** The tree with every directory's modification time erased. *)
Fixpoint eraseModTimes (d : dir) : dir :=
  match d with
  | mkDir i ds fs => mkDir (touch 0 i) (eraseModTimes <$> ds) fs
  end.

(** "A file occupies a required path segment": walking [names] down from
    [d], some name is that of a file of the directory reached. *)
Fixpoint fileOnPath (names : list string) (d : dir) : bool :=
  match names with
  | [] => false
  | p :: ps =>
      if emptyName names then false
      else match d_files d !! p with
           | Some _ => true
           | None =>
               match d_dirs d !! p with
               | Some sub => fileOnPath ps sub
               | None => false
               end
           end
  end.

(** [name] (already cleansed) denotes a directory of the tree that has at
    least one child, and no file of the same name lies beside it. *)
Definition populatedDir (name : string) (root : dir) : Prop :=
  (∃ e, Dir.getFile (parts name) root = Fail e) ∧
  ∃ sub, Dir.getDir (parts name) root = Ok sub ∧
         ¬ (d_dirs sub = ∅ ∧ d_files sub = ∅).

(** A candidate is a hit when the stat succeeds on a file that is not a
    directory and has an execute bit. *)
Definition isHit (st : result FileMode) : bool :=
  match st with
  | Ok m => negb (IsDir m) && negb (Z.land m 73 =? 0)
  | Fail _ => false
  end.

(** The path [checkStat] stats for a candidate. *)
Definition resolve (cwd candidate : string) : string :=
  if Path.IsAbs candidate then candidate else Path.Join [cwd; candidate].

(** The nodes [Run] executes. *)
Definition supported (node : Node) : Prop :=
  match node with otherNode _ => False | _ => True end.

(** The executor that does nothing. *)
Definition idleExecutor : Interp.Executor :=
  Interp.mkExecutor (fun w => w) (fun _ w => w) (fun _ w => w) (fun _ w => w)
    (fun _ w => w).

(** A Runner as [NewRunner] leaves it, with the given base environment. *)
Definition newRunner (env : gmap string Variable_) : Runner :=
  {| Env := env; writeEnv := None; Dir := "/"; Params := []; Vars := ∅;
     Funcs := ∅; TTY := true; FileSystem := 0%nat; Commands := ∅; alias := ∅;
     stdin := None; stdout := None; stderr := None; didReset := false;
     filename := ""; fatalErr := None; returning := false; exiting := false;
     nonFatalHandlerErr := None; exit := 0; lastExit := 0; bgProcs := [];
     opts := replicate 7 false; origDir := ""; origParams := [];
     origOpts := replicate 7 false; origStdin := None; origStdout := None;
     origStderr := None; dirStack := [] |}.

Definition strVar (s : string) : Variable_ := mkVariable true false String_ s [].

(** A sequence of variable writes made by the Runner whose overlay is [l]. *)
Definition writeVars (l : nat) (writes : list (string * Variable_)) (h : heap) : heap :=
  foldl (fun h w => Interp.setVar h l (fst w) (snd w)) h writes.

(** A root holding the directory [a] with the file [a/x] in it. *)
Definition sampleTree : dir :=
  fst (MemFS.WriteFile 2 "/a/x" [] 420 (fst (MemFS.MkdirAll 1 "/a" 493 (newMemFS 0)))).

(** A host filesystem that holds the given files, each with its mode. *)
Definition hostWith (files : list (string * FileMode)) (p : string) : result FileMode :=
  match List.find (fun e => bool_decide (fst e = p)) files with
  | Some e => Ok (snd e)
  | None => Fail (PathError "stat" p ErrNotExist)
  end.

Definition envWithPath (path : string) (n : string) : Variable_ :=
  if decide (n = "PATH") then strVar path else unsetVariable.

(** A filesystem of the Runner holding the executable [/bin/foo]. *)
Definition vfsWithFoo : dir :=
  fst (MemFS.WriteFile 2 "/bin/foo" [] 493 (fst (MemFS.MkdirAll 1 "/bin" 493 (newMemFS 0)))).

(** [sampleTree] with a file written under the name of the directory [a]:
    [WriteFile] does not look at [d.dirs]. *)
Definition shadowedTree : dir := fst (MemFS.WriteFile 3 "/a" [] 420 sampleTree).

(** What a script that exits with code 3 does to the Runner. *)
Definition exit3 (w : World) : World :=
  let r := snd w in
  (fst w,
   {| Env := Env r; writeEnv := writeEnv r;
      Dir := Dir r; Params := Params r; Vars := Vars r; Funcs := Funcs r;
      TTY := TTY r; FileSystem := FileSystem r; Commands := Commands r;
      alias := alias r; stdin := stdin r; stdout := stdout r; stderr := stderr r;
      didReset := didReset r; filename := filename r; fatalErr := fatalErr r;
      returning := returning r; exiting := true;
      nonFatalHandlerErr := nonFatalHandlerErr r;
      exit := 3; lastExit := lastExit r; bgProcs := bgProcs r; opts := opts r;
      origDir := origDir r; origParams := origParams r; origOpts := origOpts r;
      origStdin := origStdin r; origStdout := origStdout r;
      origStderr := origStderr r; dirStack := dirStack r |}).

Definition exit3Executor : Interp.Executor :=
  Interp.mkExecutor (fun w => w) (fun _ => exit3) (fun _ w => w) (fun _ w => w)
    (fun _ w => w).

(** A Runner after its first [Reset], with HOME inherited. *)
Definition resetWorld : list overlayEnviron * Runner :=
  Interp.Reset ([], newRunner {[ "HOME" := strVar "/root" ]}).

(** A root holding only the file [a]. *)
Definition fileTree : dir := fst (MemFS.WriteFile 1 "a" [] 420 (newMemFS 0)).

(** The parts of a cleansed path: one empty part for the root, good parts
    otherwise. *)
Definition cleanParts (ps : list string) : Prop :=
  ps = [""] ∨ (ps ≠ [] ∧ Forall goodPart ps).

(** The mode [MkdirAll] gives the directories it creates: the permission
    with the directory bit. *)
Definition dirPerm (perm : FileMode) : FileMode :=
  if Z.land perm ModeDir =? 0 then Z.lor perm ModeDir else perm.

(** Two Runners set up alike: the same base environment, the same
    constructor values kept for [Reset], the same terminal flag,
    filesystem and commands. *)
Definition sameOrigin (r1 r2 : Runner) : Prop :=
  Env r1 = Env r2 ∧ origDir r1 = origDir r2 ∧ origParams r1 = origParams r2
  ∧ origOpts r1 = origOpts r2 ∧ origStdin r1 = origStdin r2
  ∧ origStdout r1 = origStdout r2 ∧ origStderr r1 = origStderr r2
  ∧ TTY r1 = TTY r2 ∧ FileSystem r1 = FileSystem r2 ∧ Commands r1 = Commands r2.

(** A step of the executor that sets no fatal error and leaves the
    non-fatal error and the exit code as it finds them. *)
Definition keepsErrors (f : World → World) : Prop :=
  ∀ w, nonFatalHandlerErr (snd (f w)) = nonFatalHandlerErr (snd w)
       ∧ exit (snd (f w)) = exit (snd w)
       ∧ (fatalErr (snd w) = None → fatalErr (snd (f w)) = None).

Definition quietExecutor (ex : Interp.Executor) : Prop :=
  keepsErrors (Interp.fillExpandConfig ex)
  ∧ (∀ l, keepsErrors (Interp.stmts ex l))
  ∧ (∀ s, keepsErrors (Interp.stmt ex s))
  ∧ (∀ c, keepsErrors (Interp.cmd ex c))
  ∧ (∀ code, keepsErrors (Interp.exitShell ex code)).

(** A Runner left by an earlier [Run] with both errors set. *)
Definition staleRunner (fatal nonFatal : error) : Runner :=
  let r := snd (Interp.Reset ([], newRunner ∅)) in
  {| Env := Env r; writeEnv := writeEnv r;
     Dir := Dir r; Params := Params r; Vars := Vars r; Funcs := Funcs r;
     TTY := TTY r; FileSystem := FileSystem r; Commands := Commands r;
     alias := alias r; stdin := stdin r; stdout := stdout r; stderr := stderr r;
     didReset := didReset r; filename := filename r; fatalErr := Some fatal;
     returning := returning r; exiting := exiting r;
     nonFatalHandlerErr := Some nonFatal;
     exit := exit r; lastExit := lastExit r; bgProcs := bgProcs r; opts := opts r;
     origDir := origDir r; origParams := origParams r; origOpts := origOpts r;
     origStdin := origStdin r; origStdout := origStdout r;
     origStderr := origStderr r; dirStack := dirStack r |}.

(** The shape every tree built through the filesystem has: a directory
    carries the directory bit, a file does not, and every entry is stored
    under its own name. *)
Inductive wellFormed : dir → Prop :=
  | wellFormed_dir (d : dir) :
      IsDir (mode (d_info d)) = true →
      (∀ k s, d_dirs d !! k = Some s → name (d_info s) = k) →
      (∀ k s, d_dirs d !! k = Some s → wellFormed s) →
      (∀ k f, d_files d !! k = Some f →
         name (f_info f) = k ∧ IsDir (mode (f_info f)) = false) →
      wellFormed d.

(** * Properties *)

(** ** Splitting and joining *)

Lemma Split_not_nil sep s : Strings.Split sep s ≠ [].
Proof. destruct s as [|c s]; simpl; [done|]. destruct (Ascii.eqb c sep); [done|]. by destruct (Strings.Split sep s). Qed.

Lemma string_app_nil_l (s : string) : "" +:+ s = s.
Proof. reflexivity. Qed.

Lemma string_app_cons (a : ascii) (s t : string) :
  String a s +:+ t = String a (s +:+ t).
Proof. reflexivity. Qed.

Lemma string_app_empty_r (s : string) : s +:+ "" = s.
Proof. induction s as [|a s IH]; [done|]. by rewrite string_app_cons, IH. Qed.

Lemma Split_app_part sep c s :
  Strings.contains sep c = false →
  Strings.Split sep (c +:+ s) =
    match Strings.Split sep s with
    | [] => [c]
    | p :: ps => (c +:+ p) :: ps
    end.
Proof.
  induction c as [|a c IH]; intros Hc.
  - rewrite string_app_nil_l.
    by destruct (Strings.Split sep s) eqn:E; [destruct (Split_not_nil _ _ E)|].
  - simpl in Hc. apply orb_false_iff in Hc as [Ha Hc].
    rewrite string_app_cons. simpl. rewrite Ha, (IH Hc).
    by destruct (Strings.Split sep s) eqn:E; [destruct (Split_not_nil _ _ E)|].
Qed.

Lemma Split_part sep c :
  Strings.contains sep c = false → Strings.Split sep c = [c].
Proof.
  intros Hc. rewrite <- (string_app_empty_r c) at 1.
  rewrite Split_app_part by done. simpl. by rewrite string_app_empty_r.
Qed.

(** Recursing on [parts[1:]] is recursing on the split of the joined rest. *)
Lemma Split_Join (ps : list string) :
  ps ≠ [] → Forall (fun c => Strings.contains Path.slash c = false) ps →
  Strings.Split Path.slash (Strings.Join ps "/") = ps.
Proof.
  induction ps as [|c ps IH]; [done|]. intros _ Hall.
  apply Forall_cons in Hall as [Hc Hps].
  destruct ps as [|c' ps].
  - by apply Split_part.
  - change (Strings.Join (c :: c' :: ps) "/")
      with (c +:+ String Path.slash (Strings.Join (c' :: ps) "/")).
    rewrite Split_app_part by done.
    change (Strings.Split Path.slash (String Path.slash (Strings.Join (c' :: ps) "/")))
      with ("" :: Strings.Split Path.slash (Strings.Join (c' :: ps) "/")).
    rewrite IH by done. by rewrite string_app_empty_r.
Qed.

Lemma Split_slashfree sep s :
  Forall (fun c => Strings.contains sep c = false) (Strings.Split sep s).
Proof.
  induction s as [|a s IH]; simpl; [by repeat constructor|].
  destruct (Ascii.eqb a sep) eqn:Ea; [by constructor|].
  destruct (Strings.Split sep s) as [|p ps]; [repeat constructor; simpl; by rewrite Ea|].
  apply Forall_cons in IH as [Hp Hps]. constructor; [|done].
  simpl. by rewrite Ea, Hp.
Qed.

(** ** What [cleanse] returns *)

Lemma goodPart_dotdot : goodPart "..".
Proof. by repeat split. Qed.

Lemma cleanStep_good rooted out elem :
  Forall goodPart out → Strings.contains Path.slash elem = false →
  Forall goodPart (Path.cleanStep rooted out elem).
Proof.
  intros Hout Helem. unfold Path.cleanStep.
  destruct (decide (elem = "" ∨ elem = ".")) as [|Hne]; [done|].
  destruct (decide (elem = "..")) as [->|Hdd].
  - destruct out as [|top rest]; [destruct rooted; repeat constructor; apply goodPart_dotdot|].
    destruct (decide (top = "..")).
    + destruct rooted; [done|]. constructor; [apply goodPart_dotdot|done].
    + by apply Forall_cons in Hout as [_ ?].
  - constructor; [|done]. repeat split; [naive_solver..|done].
Qed.

Lemma fold_cleanStep_good rooted elems out :
  Forall goodPart out →
  Forall (fun c => Strings.contains Path.slash c = false) elems →
  Forall goodPart (fold_left (Path.cleanStep rooted) elems out).
Proof.
  revert out. induction elems as [|e elems IH]; intros out Hout Hall; [done|].
  apply Forall_cons in Hall as [He Hall]. simpl.
  apply IH; [by apply cleanStep_good|done].
Qed.

Lemma Join_cons_form c rest :
  Strings.Join (c :: rest) "/" =
    c +:+ match rest with [] => "" | _ => String Path.slash (Strings.Join rest "/") end.
Proof. destruct rest; [by rewrite string_app_empty_r|done]. Qed.

Lemma cutPrefix_cons x p y s :
  Strings.cutPrefix (String x p) (String y s) =
    if Ascii.eqb x y then Strings.cutPrefix p s else None.
Proof. reflexivity. Qed.

Lemma cutPrefix_dot_slash c t :
  goodPart c → (t = "" ∨ ∃ t', t = String Path.slash t') →
  Strings.cutPrefix "./" (c +:+ t) = None ∧ Strings.cutPrefix "/" (c +:+ t) = None
  ∧ c +:+ t ≠ ".".
Proof.
  intros (Hne & Hdot & Hsl) Ht. destruct c as [|a c0]; [done|].
  rewrite string_app_cons. simpl in Hsl. apply orb_false_iff in Hsl as [Ha Hsl].
  assert (Ascii.eqb Path.slash a = false) as Ha' by (by rewrite Ascii.eqb_sym).
  split_and!.
  - rewrite cutPrefix_cons. destruct (Ascii.eqb "." a) eqn:Ed; [|done].
    apply Ascii.eqb_eq in Ed as <-.
    destruct c0 as [|b c1]; [done|]. rewrite string_app_cons.
    simpl in Hsl. apply orb_false_iff in Hsl as [Hb _].
    rewrite cutPrefix_cons. change "/"%char with Path.slash.
    by rewrite Ascii.eqb_sym, Hb.
  - rewrite cutPrefix_cons. change "/"%char with Path.slash. by rewrite Ha'.
  - intros [= -> Hrest]. destruct c0 as [|b c1]; [|done].
    rewrite string_app_nil_l in Hrest. by destruct Ht as [->|[t' ->]].
Qed.

Lemma Join_good comps :
  comps ≠ [] → Forall goodPart comps →
  Strings.cutPrefix "./" (Strings.Join comps "/") = None
  ∧ Strings.cutPrefix "/" (Strings.Join comps "/") = None
  ∧ Strings.Join comps "/" ≠ "." ∧ Strings.Join comps "/" ≠ "".
Proof.
  destruct comps as [|c rest]; [done|]. intros _ Hall.
  apply Forall_cons in Hall as [Hc _]. rewrite Join_cons_form.
  assert ((match rest with [] => "" | _ => String Path.slash (Strings.Join rest "/") end) = ""
          ∨ ∃ t', (match rest with [] => "" | _ => String Path.slash (Strings.Join rest "/") end)
                  = String Path.slash t') as Ht by (destruct rest; eauto).
  destruct (cutPrefix_dot_slash c _ Hc Ht) as (H1 & H2 & H3). split_and!; try done.
  destruct Hc as (Hne & _). destruct c; [done|]. by rewrite string_app_cons.
Qed.

Lemma goodPart_slashfree comps :
  Forall goodPart comps → Forall (fun c => Strings.contains Path.slash c = false) comps.
Proof. intros H. eapply Forall_impl; [exact H|]. by intros c (_ & _ & ?). Qed.

(** [cleanse] returns the empty string or good parts joined by "/". *)
Lemma cleanse_form p :
  ∃ comps, Forall goodPart comps ∧ cleanse p = Strings.Join comps "/".
Proof.
  unfold cleanse, Path.Clean.
  destruct (decide (p = "")) as [->|Hp]; [by exists []|].
  set (rooted := Strings.HasPrefix p "/").
  set (out := fold_left (Path.cleanStep rooted) (Strings.Split Path.slash p) []).
  assert (Forall goodPart (rev out)) as Hgood.
  { apply Forall_rev, fold_cleanStep_good; [done|apply Split_slashfree]. }
  exists (rev out). split; [done|].
  destruct (decide (rev out = [])) as [Hnil|Hnn].
  - rewrite Hnil. simpl. by destruct rooted.
  - destruct (Join_good _ Hnn Hgood) as (H1 & H2 & H3 & H4).
    destruct rooted.
    + unfold Strings.TrimPrefix at 2. rewrite string_app_cons, string_app_nil_l.
      simpl Strings.cutPrefix.
      unfold Strings.TrimPrefix. simpl Strings.cutPrefix.
      by destruct (decide _).
    + destruct (decide (Strings.Join (rev out) "/" = "")); [done|].
      unfold Strings.TrimPrefix. 
      change ("." +:+ "/") with "./". rewrite H1, H2. by destruct (decide _).
Qed.

(** Every path is normalized before any tree lookup: unless it is empty,
    the cleansed path splits into good parts. *)
Lemma cleanse_parts p :
  cleanse p ≠ "" →
  Forall goodPart (parts (cleanse p)) ∧ parts (cleanse p) ≠ [].
Proof.
  intros Hne. destruct (cleanse_form p) as (comps & Hgood & Heq).
  unfold parts. rewrite Heq in *.
  destruct (decide (comps = [])) as [->|Hnn]; [done|].
  rewrite Split_Join; [done|done|by apply goodPart_slashfree].
Qed.

(** ** Removal of the root *)

(** C10: for every path that normalizes to the empty string, and "", ".",
    "/" and "./" do, both [Remove] and [RemoveAll] return nil and leave
    the tree as it was; [RemoveAll("/")] deletes nothing under the root. *)
Theorem Remove_empty_path_noop :
  (cleanse "" = "" ∧ cleanse "." = "" ∧ cleanse "/" = "" ∧ cleanse "./" = "") ∧
  ∀ (root : dir) (p : string), cleanse p = "" →
    MemFS.Remove p root = (root, None) ∧ MemFS.RemoveAll p root = (root, None).
Proof.
  split; [repeat split; vm_compute; reflexivity|].
  intros root p Hp. unfold MemFS.Remove, MemFS.RemoveAll, Dir.Remove, Dir.RemoveAll.
  rewrite Hp. by destruct (decide _) as [|[]]; [|left].
Qed.

Lemma Remove_empty_path_noop_witness :
  cleanse "/" = "" ∧
  MemFS.Remove "/" sampleTree = (sampleTree, None) ∧
  MemFS.RemoveAll "/" sampleTree = (sampleTree, None).
Proof.
  split; [reflexivity|].
  apply (proj2 Remove_empty_path_noop sampleTree "/"). reflexivity.
Defined.

(** ** Directory listings *)


Lemma ReadDir_getDir (ps : list string) (d : dir) :
  Dir.ReadDir ps d =
    match Dir.getDir ps d with
    | Ok sub => Ok (Dir.sortSlice (Dir.entries sub))
    | Fail _ => Fail ErrNotExist
    end.
Proof.
  revert d. induction ps as [|p ps IH]; intros d; [done|].
  simpl Dir.ReadDir. simpl Dir.getDir.
  destruct (emptyName (p :: ps)); [done|].
  destruct (d_dirs d !! p) as [sub|]; [apply IH|done].
Qed.


(** Entries created in different orders are listed in the same order. *)
Example ReadDir_insertion_order :
  let mk (now : Time) (p : string) (root : dir) := fst (MemFS.MkdirAll now p 493 root) in
  let wr (now : Time) (p : string) (root : dir) := fst (MemFS.WriteFile now p [] 420 root) in
  (name <$> default [] (match MemFS.ReadDir "/" (wr 3 "b" (mk 2 "c" (mk 1 "a" (newMemFS 0)))) with
                      | Ok l => Some l | Fail _ => None end)) = ["a"; "b"; "c"]
  ∧ (name <$> default [] (match MemFS.ReadDir "/" (mk 3 "a" (wr 2 "b" (mk 1 "c" (newMemFS 0)))) with
                        | Ok l => Some l | Fail _ => None end)) = ["a"; "b"; "c"].
Proof. split; vm_compute; reflexivity. Qed.


(** ** PATH lookup *)

Lemma checkStat_isHit osStat cwd cand :
  Handler.checkStat osStat cwd cand =
    match osStat (resolve cwd cand) with
    | Fail err => Fail err
    | Ok m =>
        if isHit (Ok m) then Ok (resolve cwd cand)
        else if IsDir m then Fail (Errorf "is a directory")
        else Fail (Errorf "permission denied")
    end.
Proof.
  unfold Handler.checkStat, resolve, isHit.
  destruct (osStat _) as [m|e]; [|done].
  destruct (IsDir m); [done|]. by destruct (Z.land m 73 =? 0).
Qed.

Lemma lookPathLoop_find osStat cwd file pathList :
  Handler.lookPathLoop osStat cwd file pathList =
    (fun elem => resolve cwd (Handler.candidate elem file)) <$>
      List.find (fun elem => isHit (osStat (resolve cwd (Handler.candidate elem file))))
        pathList.
Proof.
  induction pathList as [|elem rest IH]; [done|].
  simpl. rewrite checkStat_isHit.
  destruct (osStat _) as [m|e]; simpl.
  - destruct (negb (IsDir m) && negb (Z.land m 73 =? 0)); [done|].
    by destruct (IsDir m).
  - done.
Qed.


(** With PATH="/bin:/usr/bin", [/usr/bin/foo] executable and no [/bin/foo],
    the lookup returns [/usr/bin/foo]; when [/usr/bin/foo] lacks every
    execute bit, the lookup fails with the not-found error. *)
Example lookPathDir_example :
  Handler.lookPathDir (hostWith [("/usr/bin/foo", 493)]) "/"
    (envWithPath "/bin:/usr/bin") "foo" = Ok "/usr/bin/foo"
  ∧ Handler.lookPathDir (hostWith [("/usr/bin/foo", 420)]) "/"
      (envWithPath "/bin:/usr/bin") "foo"
    = Fail (ErrorfQuoted "foo" ": executable file not found in $PATH").
Proof. split; vm_compute; reflexivity. Qed.

(** C3 (the code at the failing input): [checkStat] stats the host through
    [os.Stat] and [lookPathDir] is not given the Runner's filesystem.
    With the executable [/bin/foo] in the Runner's filesystem only, the
    lookup of [foo] fails; with it on the host only, the lookup succeeds. *)
Theorem lookPathDir_stats_the_host :
  (∃ i, MemFS.Stat "/bin/foo" vfsWithFoo = Ok i ∧ isHit (Ok (mode i)) = true)
  ∧ Handler.lookPathDir (hostWith []) "/" (envWithPath "/bin") "foo"
    = Fail (ErrorfQuoted "foo" ": executable file not found in $PATH")
  ∧ MemFS.Stat "/bin/foo" (newMemFS 0) = Fail (PathError "stat" "bin/foo" ErrNotExist)
  ∧ Handler.lookPathDir (hostWith [("/bin/foo", 493)]) "/" (envWithPath "/bin") "foo"
    = Ok "/bin/foo".
Proof.
  split_and!; [|vm_compute; reflexivity..].
  exists (mkFileinfo "foo" 0 2 493). split; vm_compute; reflexivity.
Qed.

(** ** The outcome of [Run] *)

Lemma toExitStatus_mod (code : Z) :
  Interp.toExitStatus code = ExitStatus (code mod 256).
Proof. unfold Interp.toExitStatus. f_equal. apply (Z.land_ones code 8). lia. Qed.




(** Exit code 3 alone gives [ExitStatus 3]; a fatal error set beside it
    is what [Run] returns instead. *)
Example Run_exit_status :
  snd (Interp.Run exit3Executor (FileNode "a.sh" []) ([], newRunner ∅))
  = Some (ExitStatus 3).
Proof. vm_compute. reflexivity. Qed.

(** ** The overlay heap *)

Lemma Set_last (h : heap) (o : overlayEnviron) name vr :
  Overlay.Set_ (h ++ [o]) (List.length h) name vr =
    h ++ [mkOverlay (parent o) (<[name := vr]> (values o)) (guarded o)].
Proof.
  unfold Overlay.Set_. rewrite alter_app_r_alt by done.
  by rewrite Nat.sub_diag.
Qed.

Lemma Get_last_base (h : heap) env vals g name :
  Overlay.Get (h ++ [mkOverlay (baseEnviron env) vals g]) (List.length h) name =
    match vals !! name with
    | Some v => v
    | None => default unsetVariable (env !! name)
    end.
Proof.
  unfold Overlay.Get. cbn [Overlay.lookupVar].
  rewrite lookup_app_r by done. rewrite Nat.sub_diag. cbn [lookup list_lookup values parent].
  destruct (vals !! name); [done|]. by destruct (List.length h).
Qed.

Lemma seedUnlessSet_last (h : heap) env vals g name vr :
  Interp.seedUnlessSet name vr (List.length h) (h ++ [mkOverlay (baseEnviron env) vals g]) =
    h ++ [mkOverlay (baseEnviron env)
            (if IsSet (match vals !! name with
                       | Some v => v
                       | None => default unsetVariable (env !! name)
                       end)
             then vals else <[name := vr]> vals) g].
Proof.
  unfold Interp.seedUnlessSet. rewrite Get_last_base.
  destruct (IsSet _); [done|]. unfold Interp.setVar. by rewrite Set_last.
Qed.

Lemma lookupVar_base n (h : heap) env name :
  Overlay.lookupVar n h (baseEnviron env) name = default unsetVariable (env !! name).
Proof. by destruct n. Qed.

(** One step down the chain of a well-formed heap: the layer at [l] either
    answers, or hands over to the base, or to a layer allocated earlier,
    where the induction hypothesis [IH] applies. *)
Ltac next_layer Hok h l name IH :=
  let o := fresh "o" in
  let Ho := fresh "Ho" in
  destruct (h !! l) as [o|] eqn:Ho; [|done];
  destruct (values o !! name); [done|];
  specialize (Hok l o Ho); destruct (parent o);
  [by rewrite !lookupVar_base | apply IH; lia].

Section chain.
Context (h : list overlayEnviron) (Hok : Overlay.heapOk h) (name : string).

(** Enough fuel gives the result: any fuel above [l] gives the same. *)
Lemma lookupVar_fuel :
  ∀ n m l, (l < n)%nat → (l < m)%nat →
    Overlay.lookupVar n h (overlayRef l) name = Overlay.lookupVar m h (overlayRef l) name.
Proof using Hok.
  induction n as [|n IH]; intros m l Hn Hm; [lia|].
  destruct m as [|m]; [lia|]. cbn [Overlay.lookupVar].
  next_layer Hok h l name IH.
Qed.

(** A write to the overlay at [l2] is invisible from an overlay allocated
    before it. *)
Lemma lookupVar_alter_later f l2 :
  ∀ n l, (l < l2)%nat →
    Overlay.lookupVar n (alter f l2 h) (overlayRef l) name
    = Overlay.lookupVar n h (overlayRef l) name.
Proof using Hok.
  induction n as [|n IH]; intros l Hl; [done|]. cbn [Overlay.lookupVar].
  rewrite list_lookup_alter_ne by lia.
  next_layer Hok h l name IH.
Qed.

(** So is the allocation of a new overlay. *)
Lemma lookupVar_app (o : overlayEnviron) :
  ∀ n l, (l < List.length h)%nat →
    Overlay.lookupVar n (h ++ [o]) (overlayRef l) name
    = Overlay.lookupVar n h (overlayRef l) name.
Proof using Hok.
  induction n as [|n IH]; intros l Hl; [done|]. cbn [Overlay.lookupVar].
  rewrite lookup_app_l by done.
  next_layer Hok h l name IH.
Qed.
End chain.

Lemma heapOk_Set (h : heap) l name vr :
  Overlay.heapOk h → Overlay.heapOk (Overlay.Set_ h l name vr).
Proof.
  intros Hok l' o. unfold Overlay.Set_.
  destruct (decide (l = l')) as [->|Hne].
  - rewrite list_lookup_alter_eq. destruct (h !! l') as [o'|] eqn:Ho; [|done].
    simpl. intros [= <-]. apply (Hok l' o' Ho).
  - rewrite list_lookup_alter_ne by done. apply Hok.
Qed.

Lemma heapOk_app (h : heap) (o : overlayEnviron) :
  Overlay.heapOk h →
  match parent o with
  | overlayRef l' => (l' < List.length h)%nat
  | baseEnviron _ => True
  end →
  Overlay.heapOk (h ++ [o]).
Proof.
  intros Hok Ho l o' Hl.
  destruct (decide (l < List.length h)%nat) as [Hlt|Hge].
  - rewrite lookup_app_l in Hl by done. by apply Hok.
  - rewrite lookup_app_r in Hl by lia.
    destruct (l - List.length h)%nat as [|k] eqn:Hk; [|by destruct k].
    injection Hl as <-. assert (l = List.length h) as -> by lia. exact Ho.
Qed.

Lemma heapOk_writeVars (l : nat) writes (h : heap) :
  Overlay.heapOk h → Overlay.heapOk (writeVars l writes h).
Proof.
  revert h. induction writes as [|w ws IH]; intros h Hok; [done|].
  apply IH. by apply heapOk_Set.
Qed.

Lemma Get_writeVars_later (h : heap) (Hok : Overlay.heapOk h) l l2 writes name :
  (l < l2)%nat →
  Overlay.Get (writeVars l2 writes h) l name = Overlay.Get h l name.
Proof.
  intros Hl. revert h Hok. induction writes as [|w ws IH]; intros h Hok; [done|].
  simpl. rewrite IH by (by apply heapOk_Set).
  unfold Overlay.Get, Interp.setVar, Overlay.Set_.
  by apply lookupVar_alter_later.
Qed.

Lemma Get_Set_same (h : heap) l name vr :
  (l < List.length h)%nat → Overlay.Get (Overlay.Set_ h l name vr) l name = vr.
Proof.
  intros Hl. unfold Overlay.Get, Overlay.Set_. cbn [Overlay.lookupVar].
  rewrite list_lookup_alter_eq.
  destruct (lookup_lt_is_Some_2 h l Hl) as [o ->]. simpl.
  by rewrite lookup_insert_eq.
Qed.

(** ** What [Reset] seeds *)

Lemma seed_lookup_ne (vals : gmap string Variable_) (c : bool) name vr name' :
  name ≠ name' →
  (if c then vals else <[name := vr]> vals) !! name' = vals !! name'.
Proof. intros. destruct c; [done|]. by rewrite lookup_insert_ne. Qed.

Lemma seed_lookup_eq (vals : gmap string Variable_) (c : bool) name vr :
  (if c then vals else <[name := vr]> vals) !! name
  = if c then vals !! name else Some vr.
Proof. destruct c; [done|]. by rewrite lookup_insert_eq. Qed.

(** The heap [Reset] returns: the old one and one new overlay over the
    base environment, holding the seeded variables. *)
Lemma Reset_heap (h : heap) (r : Runner) :
  let base name := default unsetVariable (Env r !! name) in
  let oDir := if negb (didReset r) then Dir r else origDir r in
  let v1 := if IsSet (base "HOME") then ∅ else <["HOME" := strVar "/"]> ∅ in
  let v2 := if IsSet (base "UID") then v1 else <["UID" := Interp.readOnlyZero]> v1 in
  let v3 := if IsSet (base "EUID") then v2 else <["EUID" := Interp.readOnlyZero]> v2 in
  let v4 := if IsSet (base "GID") then v3 else <["GID" := Interp.readOnlyZero]> v3 in
  fst (Interp.Reset (h, r)) =
    h ++ [mkOverlay (baseEnviron (Env r))
            (<["OPTIND" := strVar "1"]> (<["IFS" := strVar defaultIFS]>
               (<["PWD" := strVar oDir]> v4))) false]
  ∧ writeEnv (snd (Interp.Reset (h, r))) = Some (List.length h)
  ∧ Dir (snd (Interp.Reset (h, r))) = oDir.
Proof.
  intros base oDir v1 v2 v3 v4. unfold Interp.Reset. cbn [fst snd writeEnv Dir].
  split; [|done].
  rewrite !seedUnlessSet_last. unfold Interp.setVarString, Interp.setVar.
  rewrite !Set_last. cbn [parent values guarded].
  repeat (rewrite seed_lookup_ne by done). rewrite !lookup_empty.
  reflexivity.
Qed.

(** C8 fails for IFS: a base environment with IFS=":" set, the first
    [Reset] of a new Runner, and afterwards the Runner's lookup of IFS
    gives the default whitespace set, not the inherited value. *)
Lemma Reset_overrides_IFS_counterexample :
  let env : gmap string Variable_ := {[ "IFS" := strVar ":" ]} in
  let '(h', r') := Interp.Reset ([], newRunner env) in
  didReset (newRunner env) = false
  ∧ IsSet (default unsetVariable (env !! "IFS")) = true
  ∧ writeEnv r' = Some 0%nat
  ∧ Overlay.Get h' 0 "IFS" = strVar defaultIFS
  ∧ Overlay.Get h' 0 "IFS" ≠ default unsetVariable (env !! "IFS").
Proof. vm_compute. repeat split; try reflexivity. intros [=]. Qed.

(** C8 (amended): on the first [Reset], HOME="/" and the read-only
    UID, EUID and GID="0" are seeded only when the inherited base
    environment does not have the variable set, and a value set in the
    base stays in effect; PWD (the current directory), IFS (the default
    whitespace set) and OPTIND="1" are written whatever the base holds. *)
Theorem Reset_seeds (h : heap) (r : Runner) (Hfirst : didReset r = false) :
  let base name := default unsetVariable (Env r !! name) in
  let seeded name vr := if IsSet (base name) then base name else vr in
  let '(h', r') := Interp.Reset (h, r) in
  ∃ l, writeEnv r' = Some l ∧ Dir r' = Dir r
    ∧ Overlay.Get h' l "HOME" = seeded "HOME" (strVar "/")
    ∧ Overlay.Get h' l "UID" = seeded "UID" (mkVariable true true String_ "0" [])
    ∧ Overlay.Get h' l "EUID" = seeded "EUID" (mkVariable true true String_ "0" [])
    ∧ Overlay.Get h' l "GID" = seeded "GID" (mkVariable true true String_ "0" [])
    ∧ Overlay.Get h' l "PWD" = strVar (Dir r)
    ∧ Overlay.Get h' l "IFS" = strVar defaultIFS
    ∧ Overlay.Get h' l "OPTIND" = strVar "1".
Proof.
  intros base seeded.
  destruct (Reset_heap h r) as (Hh & Hl & Hd).
  destruct (Interp.Reset (h, r)) as [h' r']. cbn [fst snd] in *.
  rewrite Hfirst in *. cbn [negb] in *.
  exists (List.length h). subst h'. split_and!; [done..| | | | | | |];
    rewrite Get_last_base;
    repeat first [rewrite lookup_insert_eq | rewrite lookup_insert_ne by done];
    try done;
    repeat first [rewrite seed_lookup_eq | rewrite seed_lookup_ne by done];
    rewrite ?lookup_empty; unfold seeded; fold (base "HOME"); fold (base "UID");
    fold (base "EUID"); fold (base "GID"); by destruct (IsSet _).
Qed.

Lemma Reset_seeds_witness :
  didReset (newRunner {[ "HOME" := strVar "/root" ]}) = false ∧
  Overlay.Get (fst (Interp.Reset ([], newRunner {[ "HOME" := strVar "/root" ]}))) 0 "HOME"
    = strVar "/root" ∧
  Overlay.Get (fst (Interp.Reset ([], newRunner {[ "HOME" := strVar "/root" ]}))) 0 "UID"
    = mkVariable true true String_ "0" [].
Proof.
  split; [reflexivity|].
  pose proof (Reset_seeds [] (newRunner {[ "HOME" := strVar "/root" ]}) eq_refl) as H.
  cbv zeta in H.
  destruct (Interp.Reset ([], newRunner {[ "HOME" := strVar "/root" ]})) as [h' r'] eqn:E.
  destruct H as (l & Hl & _ & Hhome & Huid & _).
  assert (l = 0%nat) as ->.
  { apply (f_equal snd) in E. vm_compute in E. subst r'. by injection Hl. }
  cbn [fst]. split.
  - rewrite Hhome. vm_compute. reflexivity.
  - rewrite Huid. vm_compute. reflexivity.
Defined.

(** ** Subshells *)

(** Forking at the overlay [l]: the new overlay, allocated at the end of
    the heap, reads what [l] reads; allocating it and writing to it change
    no lookup of [l]; it reads back what is written to it. *)
Lemma fork_isolation (h : heap) (l : nat) (background : bool) :
  Overlay.heapOk h → (l < List.length h)%nat →
  let h' := h ++ [Overlay.newOverlayEnviron (overlayRef l) background] in
  let l2 := List.length h in
  Overlay.heapOk h'
  ∧ (∀ name, Overlay.Get h' l2 name = Overlay.Get h l name)
  ∧ (∀ writes name, Overlay.Get (writeVars l2 writes h') l name = Overlay.Get h l name)
  ∧ (∀ name vr, Overlay.Get (Interp.setVar h' l2 name vr) l2 name = vr).
Proof.
  intros Hok Hl h' l2.
  assert (Overlay.heapOk h') as Hok'.
  { apply heapOk_app; [done|]. simpl. lia. }
  split_and!; [done|..].
  - intros name. unfold Overlay.Get.
    transitivity (Overlay.lookupVar l2 h (overlayRef l) name);
      [|apply lookupVar_fuel; [done|lia..]].
    cbn [Overlay.lookupVar]. unfold h', l2.
    rewrite lookup_app_r by done. rewrite Nat.sub_diag. cbn [lookup list_lookup].
    cbn [Overlay.newOverlayEnviron values parent]. rewrite lookup_empty.
    apply lookupVar_app; [done|lia].
  - intros writes name. rewrite Get_writeVars_later by (done || lia).
    unfold Overlay.Get. apply lookupVar_app; [done|lia].
  - intros name vr. apply Get_Set_same. unfold h', l2. rewrite length_app. simpl. lia.
Qed.


(** A Runner that was never reset is reset by the fork; the subshell is
    then isolated from it in the same way. *)
Lemma subshell_fresh_isolation (background : bool) (h : heap) (r : Runner) :
  Overlay.heapOk h → didReset r = false →
  let '((h', r'), r2) := Interp.subshell background (h, r) in
  ∃ l l2, writeEnv r' = Some l ∧ writeEnv r2 = Some l2
    ∧ (∀ name, Overlay.Get h' l2 name = Overlay.Get h' l name)
    ∧ (∀ writes name,
         Overlay.Get (writeVars l2 writes h') l name = Overlay.Get h' l name).
Proof.
  intros Hok Hfresh. unfold Interp.subshell. cbn [snd]. rewrite Hfresh.
  destruct (Reset_heap h r) as (Hh & Hl & _).
  destruct (Interp.Reset (h, r)) as [h1 r1]. cbn [fst snd] in *. rewrite Hl.
  assert (Overlay.heapOk h1) as Hok1 by (subst h1; by apply heapOk_app).
  assert (List.length h < List.length h1)%nat as Hlt.
  { subst h1. rewrite length_app. simpl. lia. }
  destruct (fork_isolation h1 (List.length h) background Hok1 Hlt)
    as (Hok2 & Hsee & Hhide & _).
  exists (List.length h), (List.length h1). split_and!; try done.
  - intros name. rewrite Hsee. symmetry. unfold Overlay.Get. by apply lookupVar_app.
  - intros writes name. rewrite Hhide. symmetry. unfold Overlay.Get.
    by apply lookupVar_app.
Qed.



(** A variable written inside a subshell is unset for the parent; the
    variable the parent set before the fork is read inside the subshell. *)
Example subshell_example :
  let h0 := Interp.setVar (fst resetWorld) 0 "X" (strVar "1") in
  let '((h', r'), r2) := Interp.subshell false (h0, snd resetWorld) in
  let h'' := Interp.setVar h' 1 "Y" (strVar "2") in
  writeEnv r2 = Some 1%nat
  ∧ Overlay.Get h'' 1 "X" = strVar "1"
  ∧ Overlay.Get h'' 1 "Y" = strVar "2"
  ∧ Overlay.Get h'' 0 "Y" = unsetVariable.
Proof. vm_compute. repeat split; reflexivity. Qed.

(** ** Walking the tree *)

Lemma emptyName_cons p ps : p ≠ "" → emptyName (p :: ps) = false.
Proof. intros Hp. unfold emptyName. destruct p; [done|]. by destruct ps. Qed.

Lemma getDir_cons p ps d :
  p ≠ "" →
  Dir.getDir (p :: ps) d =
    match d_dirs d !! p with
    | Some f => Dir.getDir ps f
    | None => Fail ErrNotExist
    end.
Proof. intros Hp. simpl. by rewrite emptyName_cons. Qed.

Lemma getFile_cons2 p q qs d :
  Dir.getFile (p :: q :: qs) d =
    match Dir.getDir [p] d with
    | Ok sub => Dir.getFile (q :: qs) sub
    | Fail e => Fail e
    end.
Proof. reflexivity. Qed.

Lemma removePath_cons2 p q qs rec d :
  Dir.removePath (p :: q :: qs) rec d =
    match Dir.getDir [p] d with
    | Ok sub =>
        let '(sub', err) := Dir.removePath (q :: qs) rec sub in
        (Dir.putDir p sub' d, err)
    | Fail e => (d, Some e)
    end.
Proof. reflexivity. Qed.

Lemma WriteFile_cons2 now p q qs data perm d :
  Dir.WriteFile now (p :: q :: qs) data perm d =
    if negb (Z.land perm ModeDir =? 0) then (d, Some (ErrorfPerm perm))
    else match d_dirs d !! p with
         | None => (d, Some ErrNotExist)
         | Some sub =>
             let '(sub', err) := Dir.WriteFile now (q :: qs) data perm sub in
             (mkDir (d_info d) (<[p := sub']> (d_dirs d)) (d_files d), err)
         end.
Proof. reflexivity. Qed.

Lemma getDir_error ps d e : Dir.getDir ps d = Fail e → e = ErrNotExist.
Proof.
  revert d. induction ps as [|p ps IH]; intros d; [done|]. simpl.
  destruct (emptyName _); [done|].
  destruct (d_dirs d !! p); [apply IH|congruence].
Qed.

Lemma getFile_error ps d e : Dir.getFile ps d = Fail e → e = ErrNotExist.
Proof.
  revert d. induction ps as [|p ps IH]; intros d; [simpl; congruence|].
  destruct ps as [|q qs].
  - simpl. destruct (d_files d !! p); congruence.
  - rewrite getFile_cons2.
    destruct (Dir.getDir [p] d) as [sub|e'] eqn:E; [apply IH|].
    intros [= <-]. by apply getDir_error in E.
Qed.

Lemma mkDir_eta d : mkDir (d_info d) (d_dirs d) (d_files d) = d.
Proof. by destruct d. Qed.

Lemma putDir_same p sub d :
  p ≠ "" → d_dirs d !! p = Some sub → Dir.putDir p sub d = d.
Proof.
  intros Hp Hsub. unfold Dir.putDir. destruct (decide (p = "")); [done|].
  rewrite insert_id by done. apply mkDir_eta.
Qed.

(** ** Removing a populated directory *)

Lemma removePath_populated (ps : list string) :
  ∀ (d sub : dir),
    ps ≠ [] → Forall goodPart ps →
    (∃ e, Dir.getFile ps d = Fail e) → Dir.getDir ps d = Ok sub →
    ¬ (d_dirs sub = ∅ ∧ d_files sub = ∅) →
    (∃ d', Dir.removePath ps true d = (d', None)
           ∧ Dir.getFile ps d' = Fail ErrNotExist
           ∧ Dir.getDir ps d' = Fail ErrNotExist)
    ∧ Dir.removePath ps false d = (d, Some ErrInvalid).
Proof.
  induction ps as [|p ps IH]; intros d sub Hnn Hgood [e Hfile] Hdir Hpop; [done|].
  apply Forall_cons in Hgood as [(Hp & _ & _) Hgood].
  rewrite getDir_cons in Hdir by done.
  destruct (d_dirs d !! p) as [s|] eqn:Hs; [|done].
  destruct ps as [|q qs].
  - simpl in Hdir. injection Hdir as ->.
    simpl in Hfile. destruct (d_files d !! p) eqn:Hf; [done|].
    assert (bool_decide (d_dirs sub = ∅) && bool_decide (d_files sub = ∅) = false) as Hb.
    { apply andb_false_iff. rewrite !bool_decide_eq_false.
      destruct (decide (d_dirs sub = ∅)); [|by left].
      right. intros ?. by apply Hpop. }
    assert (∀ rec, Dir.removePath [p] rec d =
      if rec then (mkDir (d_info d) (delete p (d_dirs d)) (d_files d), None)
      else (d, Some ErrInvalid)) as Hunfold.
    { intros rec. unfold Dir.removePath.
      rewrite Hf, getDir_cons, Hs by done. cbn [Dir.getDir]. by rewrite Hb. }
    rewrite !Hunfold. split; [|done].
    eexists. split; [done|]. split.
    + simpl. by rewrite Hf.
    + rewrite getDir_cons by done. cbn [d_dirs]. by rewrite lookup_delete_eq.
  - assert (Dir.getDir [p] d = Ok s) as Hp1.
    { rewrite getDir_cons by done. by rewrite Hs. }
    rewrite getFile_cons2, Hp1 in Hfile.
    destruct (IH s sub ltac:(done) Hgood (ex_intro _ e Hfile) Hdir Hpop)
      as ((s' & Hrm & Hf' & Hd') & Hkeep).
    assert (∀ rec, Dir.removePath (p :: q :: qs) rec d =
      let '(sub', err) := Dir.removePath (q :: qs) rec s in (Dir.putDir p sub' d, err))
      as Hunfold.
    { intros rec. by rewrite removePath_cons2, Hp1. }
    rewrite !Hunfold, Hrm, Hkeep. split.
    + eexists. split; [done|].
      assert (Dir.getDir [p] (Dir.putDir p s' d) = Ok s') as Hp2.
      { rewrite getDir_cons by done. unfold Dir.putDir.
        destruct (decide (p = "")); [done|]. cbn [d_dirs].
        by rewrite lookup_insert_eq. }
      split.
      * by rewrite getFile_cons2, Hp2.
      * rewrite getDir_cons by done. unfold Dir.putDir.
        destruct (decide (p = "")); [done|]. cbn [d_dirs].
        by rewrite lookup_insert_eq.
    + by rewrite putDir_same.
Qed.

Lemma cleanse_not_dot p : cleanse p ≠ ".".
Proof.
  destruct (cleanse_form p) as (comps & Hgood & ->).
  destruct (decide (comps = [])) as [->|Hnn]; [done|].
  by destruct (Join_good _ Hnn Hgood) as (_ & _ & ? & _).
Qed.

(** C5 fails for the root: it is a populated directory, [RemoveAll] on
    its path returns nil, but [Stat] on that path still finds it with all
    its content, and [Remove] returns nil rather than Invalid. *)
Lemma RemoveAll_root_counterexample :
  Dir.getDir (parts (cleanse "/")) sampleTree = Ok sampleTree
  ∧ d_dirs sampleTree !! "a" ≠ None
  ∧ MemFS.RemoveAll "/" sampleTree = (sampleTree, None)
  ∧ MemFS.Stat "/" (fst (MemFS.RemoveAll "/" sampleTree)) = Ok (d_info sampleTree)
  ∧ MemFS.Stat "/" (fst (MemFS.RemoveAll "/" sampleTree))
    ≠ Fail (PathError "stat" (cleanse "/") ErrNotExist)
  ∧ snd (MemFS.Remove "/" sampleTree) = None
  ∧ snd (MemFS.Remove "/" sampleTree) ≠ Some ErrInvalid.
Proof.
  split_and!; try (vm_compute; reflexivity); vm_compute; intros [=].
Qed.

(** C5 (amended): for every populated directory other than the root
    (its path does not normalize to the empty string), with no file of
    the same name beside it, [RemoveAll] on its path succeeds and a
    following [Stat] on that path returns NotExist, while [Remove] on the
    same path returns Invalid and leaves the whole tree as it was. *)
Theorem RemoveAll_populated (root : dir) (p : string)
    (Hpath : cleanse p ≠ "") (Hpop : populatedDir (cleanse p) root) :
  (∃ root', MemFS.RemoveAll p root = (root', None)
            ∧ MemFS.Stat p root' = Fail (PathError "stat" (cleanse p) ErrNotExist))
  ∧ MemFS.Remove p root = (root, Some ErrInvalid).
Proof.
  destruct Hpop as (Hfile & sub & Hdir & Hne).
  destruct (cleanse_parts p Hpath) as (Hgood & Hnn).
  destruct (removePath_populated _ root sub Hnn Hgood Hfile Hdir Hne)
    as ((root' & Hrm & Hf & Hd) & Hkeep).
  unfold MemFS.RemoveAll, MemFS.Remove, MemFS.Stat, Dir.RemoveAll, Dir.Remove.
  destruct (decide (cleanse p = "" ∨ cleanse p = ".")) as [[?|Hdot]|_];
    [done|by apply cleanse_not_dot in Hdot|].
  fold (parts (cleanse p)). split; [|done].
  exists root'. split; [done|]. by rewrite Hf, Hd.
Qed.

(** Where a file of the same name lies beside the directory, [Remove] and
    [RemoveAll] delete the file and leave the directory. *)
Example Remove_shadowed_directory :
  (∃ f, Dir.getFile (parts "a") shadowedTree = Ok f)
  ∧ MemFS.Remove "/a" shadowedTree = (sampleTree, None)
  ∧ MemFS.RemoveAll "/a" shadowedTree = (sampleTree, None).
Proof. split_and!; [eexists|..]; vm_compute; reflexivity. Qed.

Lemma RemoveAll_populated_witness :
  cleanse "/a" ≠ "" ∧ populatedDir (cleanse "/a") sampleTree
  ∧ (∃ root', MemFS.RemoveAll "/a" sampleTree = (root', None)
              ∧ MemFS.Stat "/a" root' = Fail (PathError "stat" (cleanse "/a") ErrNotExist))
  ∧ MemFS.Remove "/a" sampleTree = (sampleTree, Some ErrInvalid).
Proof.
  assert (cleanse "/a" ≠ "") as H1 by (vm_compute; intros [=]).
  assert (populatedDir (cleanse "/a") sampleTree) as H2.
  { split; [exists ErrNotExist; vm_compute; reflexivity|].
    exists (match d_dirs sampleTree !! "a" with Some s => s | None => sampleTree end).
    split; [vm_compute; reflexivity|].
    intros [_ Hf]. apply (f_equal (fun m => m !! "x")) in Hf.
    vm_compute in Hf. discriminate Hf. }
  split; [exact H1|]. split; [exact H2|].
  exact (RemoveAll_populated sampleTree "/a" H1 H2).
Defined.

(** ** Creating directories *)

Lemma eraseModTimes_mkDir i ds fs :
  eraseModTimes (mkDir i ds fs) = mkDir (touch 0 i) (eraseModTimes <$> ds) fs.
Proof. reflexivity. Qed.

Lemma fileOnPath_new ps i : fileOnPath ps (mkDir i ∅ ∅) = false.
Proof.
  destruct ps as [|p ps]; [done|]. simpl. destruct (emptyName _); [done|].
  by rewrite !lookup_empty.
Qed.

Lemma MkdirAll_error (ps : list string) :
  ∀ now perm d,
    snd (Dir.MkdirAll now ps perm d) = if fileOnPath ps d then Some ErrExist else None.
Proof.
  induction ps as [|p ps IH]; intros now perm d; [done|]. simpl.
  destruct (emptyName (p :: ps)); [done|].
  destruct (d_files d !! p); [done|].
  destruct ps as [|q qs].
  - by destruct (d_dirs d !! p).
  - set (perm' := if Z.land perm ModeDir =? 0 then Z.lor perm ModeDir else perm).
    set (sub := match d_dirs d !! p with
                | Some s => s
                | None => mkDir (mkFileinfo p 256 now perm') ∅ ∅
                end).
    specialize (IH now perm' sub).
    destruct (Dir.MkdirAll now (q :: qs) perm' sub) as [sub' err].
    cbn [snd] in *. rewrite IH. unfold sub. destruct (d_dirs d !! p); [done|].
    by rewrite fileOnPath_new.
Qed.

Lemma MkdirAll_again (ps : list string) :
  ∀ now1 now2 perm d d1,
    Dir.MkdirAll now1 ps perm d = (d1, None) →
    ∃ d2, Dir.MkdirAll now2 ps perm d1 = (d2, None)
      ∧ eraseModTimes d2 = eraseModTimes d1
      ∧ Dir.getDir ps d2 = Dir.getDir ps d1
      ∧ (now2 = now1 → d2 = d1).
Proof.
  induction ps as [|p ps IH]; intros now1 now2 perm d d1 H1.
  { injection H1 as <-. by exists d. }
  simpl in H1. simpl Dir.MkdirAll. simpl Dir.getDir.
  destruct (emptyName (p :: ps)) eqn:He.
  { injection H1 as <-. by exists d. }
  destruct (d_files d !! p) eqn:Hf; [done|].
  set (perm' := if Z.land perm ModeDir =? 0 then Z.lor perm ModeDir else perm) in *.
  set (sub := match d_dirs d !! p with
              | Some s => s
              | None => mkDir (mkFileinfo p 256 now1 perm') ∅ ∅
              end) in *.
  destruct ps as [|q qs].
  - injection H1 as <-. cbn [d_files d_dirs d_info]. rewrite Hf, lookup_insert_eq.
    rewrite insert_insert_eq. eexists. split; [done|].
    split_and!; [done|cbn [d_dirs]; by rewrite !lookup_insert_eq|by intros ->].
  - destruct (Dir.MkdirAll now1 (q :: qs) perm' sub) as [sub' err] eqn:Hrec.
    injection H1 as <- ->.
    destruct (IH now1 now2 perm' sub sub' Hrec) as (sub2 & Hrec2 & Herase & Hget & Hsame).
    cbn [d_files d_dirs d_info]. rewrite Hf, lookup_insert_eq, Hrec2.
    rewrite insert_insert_eq. eexists. split; [done|]. split_and!.
    + rewrite !eraseModTimes_mkDir, !fmap_insert. by rewrite Herase.
    + cbn [d_dirs]. by rewrite !lookup_insert_eq.
    + intros ->. by rewrite Hsame.
Qed.

(** C6 (the code at the failing input): [a/b] is made at time 1 and
    [MkdirAll] is called on it again at time 2.  The path is already a
    directory, and the second call succeeds, but it does not do nothing:
    it stamps the directories it walks through, so the tree is not the
    one the first call left, and the root's listing shows [a] with a new
    modification time. *)
Theorem MkdirAll_twice_restamps :
  let root1 := fst (MemFS.MkdirAll 1 "a/b" 493 (newMemFS 0)) in
  snd (MemFS.MkdirAll 1 "a/b" 493 (newMemFS 0)) = None
  ∧ snd (MemFS.MkdirAll 2 "a/b" 493 root1) = None
  ∧ MemFS.ReadDir "/" root1 = Ok [mkFileinfo "a" 256 1 (Z.lor 493 ModeDir)]
  ∧ MemFS.ReadDir "/" (fst (MemFS.MkdirAll 2 "a/b" 493 root1))
    = Ok [mkFileinfo "a" 256 2 (Z.lor 493 ModeDir)]
  ∧ fst (MemFS.MkdirAll 2 "a/b" 493 root1) ≠ root1.
Proof.
  split_and!; try (vm_compute; reflexivity).
  intros H. apply (f_equal (MemFS.ReadDir "/")) in H. vm_compute in H. discriminate H.
Qed.

(** X27: what does hold of a repeated [MkdirAll]: it fails exactly when
    a file occupies a required path segment, and then with Exist; and
    after [MkdirAll(p, perm)] succeeded, a second [MkdirAll(p, perm)], at
    any clock reading, succeeds and creates nothing: the two trees are
    equal once the modification times of directories are erased, the
    listing of [p] itself is unchanged, and at the same clock reading
    the whole tree is. *)
Theorem MkdirAll_twice :
  (∀ (now : Time) (p : string) (perm : FileMode) (root : dir),
     snd (MemFS.MkdirAll now p perm root) =
       if fileOnPath (parts (cleanse p)) root then Some ErrExist else None)
  ∧ ∀ (now1 now2 : Time) (p : string) (perm : FileMode) (root root1 : dir),
      MemFS.MkdirAll now1 p perm root = (root1, None) →
      ∃ root2, MemFS.MkdirAll now2 p perm root1 = (root2, None)
        ∧ eraseModTimes root2 = eraseModTimes root1
        ∧ MemFS.ReadDir p root2 = MemFS.ReadDir p root1
        ∧ (now2 = now1 → root2 = root1).
Proof.
  split.
  - intros. apply MkdirAll_error.
  - intros now1 now2 p perm root root1 H1.
    destruct (MkdirAll_again _ now1 now2 perm root root1 H1)
      as (root2 & H2 & Herase & Hget & Hsame).
    exists root2. split_and!; try done.
    unfold MemFS.ReadDir. by rewrite !ReadDir_getDir, Hget.
Qed.

Lemma MkdirAll_twice_witness :
  MemFS.MkdirAll 1 "a/b" 493 (newMemFS 0)
    = (fst (MemFS.MkdirAll 1 "a/b" 493 (newMemFS 0)), None)
  ∧ ∃ root2,
      MemFS.MkdirAll 2 "a/b" 493 (fst (MemFS.MkdirAll 1 "a/b" 493 (newMemFS 0)))
        = (root2, None)
      ∧ eraseModTimes root2
        = eraseModTimes (fst (MemFS.MkdirAll 1 "a/b" 493 (newMemFS 0))).
Proof.
  assert (MemFS.MkdirAll 1 "a/b" 493 (newMemFS 0)
    = (fst (MemFS.MkdirAll 1 "a/b" 493 (newMemFS 0)), None)) as H1
    by (vm_compute; reflexivity).
  split; [exact H1|].
  destruct (proj2 MkdirAll_twice 1 2 "a/b" 493 (newMemFS 0) _ H1)
    as (root2 & H2 & Herase & _).
  exists root2. split; [exact H2|exact Herase].
Defined.

(** ** The errors the filesystem returns *)

Lemma ReadDir_error ps d e : Dir.ReadDir ps d = Fail e → e = ErrNotExist.
Proof.
  rewrite ReadDir_getDir. destruct (Dir.getDir ps d); [done|]. by intros [= <-].
Qed.

Lemma removePath_error (ps : list string) :
  ∀ rec d e, snd (Dir.removePath ps rec d) = Some e → e = ErrInvalid ∨ e = ErrNotExist.
Proof.
  induction ps as [|p ps IH]; intros rec d e.
  { simpl. intros [= <-]. by right. }
  destruct ps as [|q qs].
  - simpl. destruct (d_files d !! p); [done|].
    destruct (if emptyName [p] then _ else _) as [sub|e']; [|intros [= <-]; by right].
    destruct (_ && _); [done|]. destruct rec; [done|]. intros [= <-]. by left.
  - rewrite removePath_cons2.
    destruct (Dir.getDir [p] d) as [sub|e'] eqn:E.
    + specialize (IH rec sub e).
      destruct (Dir.removePath (q :: qs) rec sub) as [sub' err]. exact IH.
    + intros [= <-]. right. by apply getDir_error in E.
Qed.

Lemma fileOpen_error path f e :
  Dir.fileOpen path f = Fail e → e = Errorf "missing opener".
Proof. unfold Dir.fileOpen. destruct (f_opener f); [done|]. by intros [= <-]. Qed.

(** C9 (the code at the failing inputs): [MkdirAll] over a file,
    [ReadDir], [WriteFile] and [OpenFile] with O_CREATE below a missing
    directory, [Remove] of a populated directory and [RemoveAll] of a
    missing path return the bare sentinel, which is no [PathError] and
    carries neither the operation nor the path; on the same tree [Stat],
    [Open] and [OpenFile] without O_CREATE report a missing path as a
    [PathError] with the operation and the path. *)
Theorem errors_without_operation_and_path :
  snd (MemFS.MkdirAll 2 "a/b" 493 fileTree) = Some ErrExist
  ∧ MemFS.ReadDir "missing" fileTree = Fail ErrNotExist
  ∧ snd (MemFS.WriteFile 2 "missing/f" [] 420 fileTree) = Some ErrNotExist
  ∧ snd (MemFS.OpenFile 2 "missing/f" O_CREATE 420 fileTree) = Fail ErrNotExist
  ∧ snd (MemFS.Remove "/a" sampleTree) = Some ErrInvalid
  ∧ snd (MemFS.RemoveAll "missing" fileTree) = Some ErrNotExist
  ∧ MemFS.Stat "missing" fileTree = Fail (PathError "stat" "missing" ErrNotExist)
  ∧ MemFS.Open "missing" fileTree = Fail (PathError "open" "missing" ErrNotExist)
  ∧ snd (MemFS.OpenFile 2 "missing" 0 420 fileTree)
    = Fail (PathError "openfile" "missing" ErrNotExist)
  ∧ ∀ op path cause,
      ErrExist ≠ PathError op path cause ∧ ErrNotExist ≠ PathError op path cause
      ∧ ErrInvalid ≠ PathError op path cause.
Proof.
  split_and!; try (vm_compute; reflexivity). intros op path cause. by split_and!.
Qed.

(** X28: the errors of the operations that do not write a file, for every
    tree and every path: [Stat] fails only with its [PathError]; [Open] only
    with its [PathError] or for a file without opener; [ReadDir] only
    with the bare NotExist, [MkdirAll] only with the bare Exist, [Remove]
    and [RemoveAll] only with the bare Invalid or NotExist. *)
Theorem memFS_error_values (root : dir) (now : Time) (p : string) (perm : FileMode) :
  match MemFS.Stat p root with
  | Fail e => e = PathError "stat" (cleanse p) ErrNotExist
  | Ok _ => True
  end
  ∧ match MemFS.Open p root with
    | Fail e => e = PathError "open" (cleanse p) ErrNotExist ∨ e = Errorf "missing opener"
    | Ok _ => True
    end
  ∧ match MemFS.ReadDir p root with
    | Fail e => e = ErrNotExist
    | Ok _ => True
    end
  ∧ match snd (MemFS.MkdirAll now p perm root) with
    | Some e => e = ErrExist
    | None => True
    end
  ∧ match snd (MemFS.Remove p root) with
    | Some e => e = ErrInvalid ∨ e = ErrNotExist
    | None => True
    end
  ∧ match snd (MemFS.RemoveAll p root) with
    | Some e => e = ErrInvalid ∨ e = ErrNotExist
    | None => True
    end.
Proof.
  split_and!.
  - unfold MemFS.Stat. destruct (Dir.getFile _ _); [done|]. by destruct (Dir.getDir _ _).
  - unfold MemFS.Open, Dir.Open. destruct (decide _); [done|].
    fold (parts (cleanse p)).
    destruct (Dir.getFile _ _) as [f|].
    + destruct (Dir.fileOpen _ f) eqn:E; [done|]. right. by apply fileOpen_error in E.
    + destruct (Dir.getDir _ _); [done|]. by left.
  - destruct (MemFS.ReadDir p root) eqn:E; [done|]. by apply ReadDir_error in E.
  - unfold MemFS.MkdirAll. rewrite MkdirAll_error. by destruct (fileOnPath _ _).
  - unfold MemFS.Remove, Dir.Remove. destruct (decide _); [done|].
    destruct (snd _) eqn:E; [|done]. by apply removePath_error in E.
  - unfold MemFS.RemoveAll, Dir.RemoveAll. destruct (decide _); [done|].
    destruct (snd _) eqn:E; [|done]. by apply removePath_error in E.
Qed.

(** * Further properties of the filesystem *)

(** ** A removal that fails changes nothing *)

Lemma getDir_single_put p sub d : Dir.getDir [p] d = Ok sub → Dir.putDir p sub d = d.
Proof.
  simpl. unfold Dir.putDir. destruct (decide (p = "")) as [->|Hp].
  - change (emptyName [""]) with true. by intros [= ->].
  - rewrite emptyName_cons by done.
    destruct (d_dirs d !! p) as [s|] eqn:Hs; [|done]. intros [= ->].
    rewrite insert_id by done. apply mkDir_eta.
Qed.

Lemma removePath_failure_unchanged (ps : list string) :
  ∀ rec d e, snd (Dir.removePath ps rec d) = Some e → fst (Dir.removePath ps rec d) = d.
Proof.
  induction ps as [|p ps IH]; intros rec d e; [done|].
  destruct ps as [|q qs].
  - simpl. destruct (d_files d !! p); [done|].
    destruct (if emptyName [p] then _ else _) as [sub|e']; [|done].
    destruct (_ && _); [done|]. by destruct rec.
  - rewrite removePath_cons2.
    destruct (Dir.getDir [p] d) as [sub|e'] eqn:E; [|done].
    specialize (IH rec sub e).
    destruct (Dir.removePath (q :: qs) rec sub) as [sub' err]. simpl in *.
    intros Herr. rewrite (IH Herr). by apply getDir_single_put.
Qed.

(** X1: when [Remove] or [RemoveAll] returns an error, the tree is left
    exactly as it was. *)
Theorem Remove_failure_unchanged (p : string) (root : dir) :
  match snd (MemFS.Remove p root) with
  | Some _ => fst (MemFS.Remove p root) = root
  | None => True
  end
  ∧ match snd (MemFS.RemoveAll p root) with
    | Some _ => fst (MemFS.RemoveAll p root) = root
    | None => True
    end.
Proof.
  unfold MemFS.Remove, MemFS.RemoveAll, Dir.Remove, Dir.RemoveAll.
  destruct (decide _); [done|]. split.
  - destruct (snd (Dir.removePath _ false root)) eqn:H; [|done].
    by apply removePath_failure_unchanged in H.
  - destruct (snd (Dir.removePath _ true root)) eqn:H; [|done].
    by apply removePath_failure_unchanged in H.
Qed.

(** ** Removing a file *)

Lemma Join_Split sep s :
  Strings.Join (Strings.Split sep s) (String sep "") = s.
Proof.
  induction s as [|c s IH]; [done|]. simpl Strings.Split.
  destruct (Ascii.eqb c sep) eqn:Ec.
  - apply Ascii.eqb_eq in Ec as ->.
    destruct (Strings.Split sep s) as [|p ps] eqn:E; [by destruct (Split_not_nil _ _ E)|].
    change (Strings.Join ("" :: p :: ps) (String sep ""))
      with (String sep (Strings.Join (p :: ps) (String sep ""))).
    by rewrite IH.
  - destruct (Strings.Split sep s) as [|p ps] eqn:E; [by destruct (Split_not_nil _ _ E)|].
    destruct ps as [|q qs].
    + simpl in *. by rewrite IH.
    + change (Strings.Join (String c p :: q :: qs) (String sep ""))
        with (String c (Strings.Join (p :: q :: qs) (String sep ""))).
      by rewrite IH.
Qed.

Lemma parts_inj s t : parts s = parts t → s = t.
Proof.
  unfold parts. intros H. rewrite <- (Join_Split Path.slash s), <- (Join_Split Path.slash t).
  by rewrite H.
Qed.

Lemma cleanse_cleanParts p : cleanParts (parts (cleanse p)).
Proof.
  destruct (decide (cleanse p = "")) as [->|Hne]; [by left|].
  right. destruct (cleanse_parts p Hne). done.
Qed.

Lemma getDir_single p d :
  p ≠ "" →
  Dir.getDir [p] d =
    match d_dirs d !! p with Some s => Ok s | None => Fail ErrNotExist end.
Proof. intros Hp. rewrite getDir_cons by done. by destruct (d_dirs d !! p). Qed.

(** Removing the file at [ps] leaves every other file lookup as it was. *)
Lemma removePath_file (ps : list string) :
  ∀ rec d f,
    Forall goodPart ps → Dir.getFile ps d = Ok f →
    ∃ d', Dir.removePath ps rec d = (d', None)
      ∧ Dir.getFile ps d' = Fail ErrNotExist
      ∧ (∀ qs, cleanParts qs → qs ≠ ps → Dir.getFile qs d' = Dir.getFile qs d)
      ∧ (∀ qs, cleanParts qs →
           match Dir.getDir qs d, Dir.getDir qs d' with
           | Ok _, Ok _ | Fail _, Fail _ => True
           | _, _ => False
           end).
Proof.
  induction ps as [|p ps IH]; intros rec d f Hgood Hfile; [done|].
  apply Forall_cons in Hgood as [(Hp & _ & _) Hgood].
  destruct ps as [|p2 r].
  - simpl in Hfile. destruct (d_files d !! p) eqn:Hf; [|done].
    eexists. split; [simpl; by rewrite Hf|]. split_and!.
    + simpl. by rewrite lookup_delete_eq.
    + intros qs Hqs Hne. destruct qs as [|q [|q2 r2]]; [done| |].
      * simpl. rewrite lookup_delete_ne; [done|]. congruence.
      * destruct Hqs as [?|[_ Hq]]; [done|].
        apply Forall_cons in Hq as [(Hq & _ & _) _].
        by rewrite !getFile_cons2, !getDir_single by done.
    + intros qs _. destruct qs as [|q qs]; [done|]. simpl.
      destruct (emptyName (q :: qs)); [done|].
      by destruct (d_dirs d !! q) as [s|]; [destruct (Dir.getDir qs s)|].
  - rewrite getFile_cons2, getDir_single in Hfile by done.
    destruct (d_dirs d !! p) as [sub|] eqn:Hs; [|done].
    destruct (IH rec sub f Hgood Hfile) as (sub' & Hrm & Hgone & Hframe & Hdirs).
    exists (Dir.putDir p sub' d).
    assert (Dir.getDir [p] (Dir.putDir p sub' d) = Ok sub') as Hp2.
    { rewrite getDir_single by done. unfold Dir.putDir.
      destruct (decide (p = "")); [done|]. cbn [d_dirs]. by rewrite lookup_insert_eq. }
    split_and!.
    + by rewrite removePath_cons2, getDir_single, Hs, Hrm by done.
    + by rewrite getFile_cons2, Hp2.
    + intros qs Hqs Hne. destruct qs as [|q [|q2 r2]]; [done| |].
      * simpl. unfold Dir.putDir. by destruct (decide (p = "")).
      * destruct Hqs as [?|[_ Hq]]; [done|].
        apply Forall_cons in Hq as [(Hq & _ & _) Hq2].
        rewrite !getFile_cons2, !getDir_single by done. unfold Dir.putDir.
        destruct (decide (p = "")); [done|]. cbn [d_dirs].
        destruct (decide (p = q)) as [<-|Hpq].
        -- rewrite lookup_insert_eq, Hs. apply Hframe; [by right|congruence].
        -- by rewrite lookup_insert_ne.
    + intros qs Hqs. destruct Hqs as [->|[Hnn Hq]]; [done|].
      destruct qs as [|q qs]; [done|].
      apply Forall_cons in Hq as [(Hq & _ & _) Hq2].
      rewrite !getDir_cons by done. unfold Dir.putDir.
      destruct (decide (p = "")); [done|]. cbn [d_dirs].
      destruct (decide (p = q)) as [<-|Hpq].
      * rewrite lookup_insert_eq, Hs.
        destruct qs as [|q2 r2]; [done|]. apply Hdirs. by right.
      * rewrite lookup_insert_ne by done.
        by destruct (d_dirs d !! q) as [s|]; [destruct (Dir.getDir qs s)|].
Qed.

Lemma removePath_file_any_mode (ps : list string) :
  ∀ d f, Forall goodPart ps → Dir.getFile ps d = Ok f →
    Dir.removePath ps true d = Dir.removePath ps false d.
Proof.
  induction ps as [|a ps IH]; intros d f Hg Hf; [done|].
  apply Forall_cons in Hg as [(Ha & _ & _) Hg].
  destruct ps as [|b r].
  - simpl in *. by destruct (d_files d !! a).
  - rewrite getFile_cons2, getDir_single in Hf by done.
    rewrite !removePath_cons2, getDir_single by done.
    destruct (d_dirs d !! a) as [sub|]; [|done].
    by rewrite (IH sub f Hg Hf).
Qed.

(** X2: where a file exists, [Remove] and [RemoveAll] both delete it and
    return nil; afterwards the file is gone, every other file lookup gives
    what it gave before, and every path that led to a directory still
    does. *)
Theorem Remove_file (p : string) (root : dir) (f : file)
    (Hfile : Dir.getFile (parts (cleanse p)) root = Ok f) (Hpath : cleanse p ≠ "") :
  ∃ root', MemFS.Remove p root = (root', None)
    ∧ MemFS.RemoveAll p root = (root', None)
    ∧ Dir.getFile (parts (cleanse p)) root' = Fail ErrNotExist
    ∧ (∀ q, cleanse q ≠ cleanse p →
         Dir.getFile (parts (cleanse q)) root' = Dir.getFile (parts (cleanse q)) root)
    ∧ (∀ q sub, Dir.getDir (parts (cleanse q)) root = Ok sub →
         ∃ sub', Dir.getDir (parts (cleanse q)) root' = Ok sub').
Proof.
  destruct (cleanse_parts p Hpath) as (Hgood & Hnn).
  destruct (removePath_file _ false root f Hgood Hfile) as (root' & Hrm & Hgone & Hframe & Hdirs).
  exists root'. unfold MemFS.Remove, MemFS.RemoveAll, Dir.Remove, Dir.RemoveAll.
  destruct (decide (cleanse p = "" ∨ cleanse p = ".")) as [[?|Hdot]|_];
    [done|by apply cleanse_not_dot in Hdot|].
  fold (parts (cleanse p)). rewrite (removePath_file_any_mode _ root f Hgood Hfile).
  split_and!; try done.
  - intros q Hq. apply Hframe; [apply cleanse_cleanParts|].
    intros Heq. by apply parts_inj in Heq.
  - intros q sub Hsub. specialize (Hdirs _ (cleanse_cleanParts q)).
    rewrite Hsub in Hdirs. destruct (Dir.getDir _ root'); [eauto|done].
Qed.

Lemma Remove_file_witness :
  ∃ root', MemFS.Remove "/a/x" sampleTree = (root', None)
    ∧ Dir.getFile (parts (cleanse "/a/x")) root' = Fail ErrNotExist.
Proof.
  assert (∃ f, Dir.getFile (parts (cleanse "/a/x")) sampleTree = Ok f) as [f Hf]
    by (eexists; vm_compute; reflexivity).
  assert (cleanse "/a/x" ≠ "") as Hp by (vm_compute; intros [=]).
  destruct (Remove_file "/a/x" sampleTree f Hf Hp) as (root' & H1 & _ & H2 & _).
  exists root'. split; [exact H1|exact H2].
Defined.

(** ** Writing a file and reading it back *)

Lemma WriteFile_written (ps : list string) :
  ∀ now data perm d d',
    Forall goodPart ps →
    Dir.WriteFile now ps data perm d = (d', None) →
    ∃ f', Dir.getFile ps d' = Ok f'
      ∧ size (f_info f') = Z.of_nat (List.length data)
      ∧ modified (f_info f') = now ∧ mode (f_info f') = perm
      ∧ Z.land perm ModeDir = 0
      ∧ is_Some (f_opener f')
      ∧ match Dir.getFile ps d with
        | Ok old =>
            f_opener f' = f_opener old ∧ name (f_info f') = name (f_info old)
            ∧ match data, f_opener old with
              | _ :: _, Some contentOpener => f_content f' = data
              | _, _ => f_content f' = f_content old
              end
        | Fail _ =>
            f_content f' = data ∧ f_opener f' = Some contentOpener
            ∧ name (f_info f') = List.last ps ""
        end.
Proof.
  induction ps as [|p ps IH]; intros now data perm d d' Hgood Hw.
  { simpl in Hw. by destruct (negb _). }
  apply Forall_cons in Hgood as [(Hp & _ & _) Hgood].
  destruct ps as [|p2 r].
  - simpl in Hw. destruct (Z.land perm ModeDir =? 0) eqn:Hperm; [|done].
    apply Z.eqb_eq in Hperm. simpl in Hw. simpl Dir.getFile.
    destruct (d_files d !! p) as [old|] eqn:Hold.
    + unfold Dir.overwrite in Hw. destruct (f_opener old) as [op|] eqn:Hop; [|done].
      destruct data as [|b data].
      * injection Hw as <-. cbn [d_files]. rewrite lookup_insert_eq.
        eexists. split; [done|]. cbn. rewrite ?Hop. split_and!; eauto.
      * destruct op as [|[[|write]|e]]; [|done| |done].
        -- injection Hw as <-. cbn [d_files]. rewrite lookup_insert_eq.
           eexists. split; [done|]. cbn. rewrite ?Hop. split_and!; eauto.
        -- injection Hw as <- _. cbn [d_files]. rewrite lookup_insert_eq.
           eexists. split; [done|]. cbn. rewrite ?Hop. split_and!; eauto.
    + injection Hw as <-. cbn [d_files]. rewrite lookup_insert_eq.
      eexists. split; [done|]. cbn. split_and!; eauto.
  - rewrite WriteFile_cons2 in Hw.
    destruct (negb (Z.land perm ModeDir =? 0)); [done|].
    destruct (d_dirs d !! p) as [sub|] eqn:Hs; [|done].
    destruct (Dir.WriteFile now (p2 :: r) data perm sub) as [sub' err] eqn:Hrec.
    injection Hw as <- ->.
    destruct (IH now data perm sub sub' Hgood Hrec) as (f' & Hf & Hrest).
    exists f'. rewrite !getFile_cons2, !getDir_single by done.
    cbn [d_dirs]. rewrite lookup_insert_eq, Hs.
    split; [done|]. exact Hrest.
Qed.

(** X3: on a path other than the root, a successful [WriteFile] is read
    back by [ReadFile] byte for byte, when there was no file at the path
    before, or when the data is not empty and the file that was there had
    been written in memory (its opener is the one [WriteFile] installs,
    not that of a snapshot). *)
Theorem WriteFile_ReadFile (base : file → result (list Byte.byte)) (now : Time)
    (p : string) (data : list Byte.byte) (perm : FileMode) (root root' : dir)
    (Hwrite : MemFS.WriteFile now p data perm root = (root', None))
    (Hpath : cleanse p ≠ "")
    (Hnew : (∃ e, Dir.getFile (parts (cleanse p)) root = Fail e)
            ∨ (data ≠ [] ∧ ∃ old, Dir.getFile (parts (cleanse p)) root = Ok old
                                   ∧ f_opener old = Some contentOpener)) :
  MemFS.ReadFile base p root' = Ok data.
Proof.
  destruct (cleanse_parts p Hpath) as (Hgood & Hnn).
  destruct (WriteFile_written _ now data perm root root' Hgood Hwrite)
    as (f' & Hf & _ & _ & _ & _ & [op Hop] & Hold).
  assert (f_content f' = data ∧ f_opener f' = Some contentOpener) as [Hc Ho].
  { destruct Hnew as [[e He]|(Hne & old & Hfile & Hmem)].
    - rewrite He in Hold. by destruct Hold as (? & ? & _).
    - rewrite Hfile, Hmem in Hold. destruct Hold as (Hsame & _ & Hd).
      by destruct data. }
  unfold MemFS.ReadFile, Dir.Open.
  destruct (decide (cleanse p = "" ∨ cleanse p = ".")) as [[?|Hdot]|_];
    [done|by apply cleanse_not_dot in Hdot|].
  fold (parts (cleanse p)). rewrite Hf. unfold Dir.fileOpen. rewrite Ho.
  unfold Dir.readHandle. fold (parts (cleanse p)). rewrite Hf.
  unfold Dir.readAll. by rewrite Ho, Hc.
Qed.

Lemma WriteFile_ReadFile_witness :
  MemFS.ReadFile (fun _ => Ok []) "/a/y" (fst (MemFS.WriteFile 5 "/a/y" [Byte.x41] 420 sampleTree))
  = Ok [Byte.x41].
Proof.
  apply (WriteFile_ReadFile _ 5 "/a/y" [Byte.x41] 420 sampleTree).
  - vm_compute. reflexivity.
  - vm_compute. intros [=].
  - left. exists ErrNotExist. vm_compute. reflexivity.
Defined.

Lemma WriteFile_single now p data perm d d' :
  Dir.WriteFile now [p] data perm d = (d', None) →
  ∃ f', d_files d' !! p = Some f'
    ∧ size (f_info f') = Z.of_nat (List.length data)
    ∧ modified (f_info f') = now ∧ mode (f_info f') = perm
    ∧ Z.land perm ModeDir = 0.
Proof.
  intros Hw. simpl in Hw.
  destruct (Z.land perm ModeDir =? 0) eqn:Hperm; [|done].
  apply Z.eqb_eq in Hperm. simpl in Hw.
  destruct (d_files d !! p) as [old|] eqn:Hold.
  - unfold Dir.overwrite in Hw. destruct (f_opener old) as [op|]; [|done].
    destruct data as [|b data]; [|destruct op as [|[[|write]|e]]; [|done| |done]].
    + injection Hw as <-. cbn [d_files]. rewrite lookup_insert_eq. by eexists.
    + injection Hw as <-. cbn [d_files]. rewrite lookup_insert_eq. by eexists.
    + injection Hw as <- _. cbn [d_files]. rewrite lookup_insert_eq. by eexists.
  - injection Hw as <-. cbn [d_files]. rewrite lookup_insert_eq. by eexists.
Qed.

(** X4: after a successful [WriteFile], on any path, [Stat] on the path
    finds a file (not a directory) whose size is the length of the data,
    whose mode is the permission given and whose modification time is
    that of the write. *)
Theorem WriteFile_Stat (now : Time) (p : string) (data : list Byte.byte)
    (perm : FileMode) (root root' : dir)
    (Hwrite : MemFS.WriteFile now p data perm root = (root', None)) :
  ∃ i, MemFS.Stat p root' = Ok i
    ∧ size i = Z.of_nat (List.length data) ∧ mode i = perm ∧ modified i = now
    ∧ IsDir (mode i) = false.
Proof.
  destruct (decide (cleanse p = "")) as [Hroot|Hpath].
  - unfold MemFS.WriteFile in Hwrite. rewrite Hroot in Hwrite.
    change (parts "") with [""] in Hwrite.
    destruct (WriteFile_single now "" data perm root root' Hwrite)
      as (f' & Hf & Hsize & Hmod & Hmode & Hperm).
    exists (f_info f'). unfold MemFS.Stat. rewrite Hroot.
    change (Dir.getFile (parts "") root') with
      (match d_files root' !! "" with Some f => Ok f | None => Fail ErrNotExist end).
    rewrite Hf. split_and!; try done.
    unfold IsDir. by rewrite Hmode, Hperm.
  - destruct (cleanse_parts p Hpath) as (Hgood & Hnn).
    destruct (WriteFile_written _ now data perm root root' Hgood Hwrite)
      as (f' & Hf & Hsize & Hmod & Hmode & Hperm & _).
    exists (f_info f'). unfold MemFS.Stat. rewrite Hf. split_and!; try done.
    unfold IsDir. by rewrite Hmode, Hperm.
Qed.

Lemma WriteFile_Stat_witness :
  ∃ i, MemFS.Stat "/a/y" (fst (MemFS.WriteFile 5 "/a/y" [Byte.x41] 420 sampleTree)) = Ok i
    ∧ size i = 1 ∧ mode i = 420 ∧ modified i = 5.
Proof.
  destruct (WriteFile_Stat 5 "/a/y" [Byte.x41] 420 sampleTree
              (fst (MemFS.WriteFile 5 "/a/y" [Byte.x41] 420 sampleTree)))
    as (i & Hi & Hs & Hm & Ht & _).
  - vm_compute. reflexivity.
  - exists i. split; [exact Hi|]. split; [exact Hs|]. split; [exact Hm|exact Ht].
Defined.

Lemma WriteFile_over_file (ps : list string) :
  ∀ now data perm d old,
    Forall goodPart ps → Z.land perm ModeDir = 0 →
    Dir.getFile ps d = Ok old → f_opener old = Some contentOpener →
    ∃ d', Dir.WriteFile now ps data perm d = (d', None).
Proof.
  induction ps as [|p ps IH]; intros now data perm d old Hgood Hperm Hold Hop; [done|].
  apply Forall_cons in Hgood as [(Hp & _ & _) Hgood].
  destruct ps as [|p2 r].
  - simpl in *. rewrite Hperm. simpl.
    destruct (d_files d !! p) as [f|]; [|done]. injection Hold as ->.
    unfold Dir.overwrite. rewrite Hop. destruct data; eauto.
  - rewrite getFile_cons2, getDir_single in Hold by done.
    rewrite WriteFile_cons2, Hperm. change (negb (0 =? 0)) with false. cbv iota.
    destruct (d_dirs d !! p) as [sub|]; [|done].
    destruct (IH now data perm sub old Hgood Hperm Hold Hop) as (sub' & ->). eauto.
Qed.

(** X5: writing no data over an existing file, as [OpenFile] does for
    O_TRUNC, sets the size to zero but leaves the content.  For a file
    written in memory, at a path other than the root, and a permission
    without the directory bit: the write succeeds, [Stat] then reports
    size 0 and [ReadFile] still returns the old bytes. *)
Theorem truncate_keeps_content (base : file → result (list Byte.byte)) (now : Time)
    (p : string) (perm : FileMode) (root : dir) (old : file)
    (Hold : Dir.getFile (parts (cleanse p)) root = Ok old)
    (Hopener : f_opener old = Some contentOpener)
    (Hperm : Z.land perm ModeDir = 0) (Hpath : cleanse p ≠ "") :
  ∃ root', MemFS.WriteFile now p [] perm root = (root', None)
    ∧ fst (MemFS.OpenFile now p O_TRUNC perm root) = root'
    ∧ (∃ i, MemFS.Stat p root' = Ok i ∧ size i = 0)
    ∧ MemFS.ReadFile base p root' = Ok (f_content old).
Proof.
  destruct (cleanse_parts p Hpath) as (Hgood & Hnn).
  destruct (WriteFile_over_file _ now [] perm root old Hgood Hperm Hold Hopener)
    as (root' & Hw).
  destruct (WriteFile_written _ now [] perm root root' Hgood Hw)
    as (f' & Hf & Hsize & _ & _ & _ & _ & Hrel).
  rewrite Hold in Hrel. destruct Hrel as (Ho & _ & Hc).
  exists root'. split_and!.
  - done.
  - unfold MemFS.OpenFile. rewrite Hold.
    change (negb (Z.land O_TRUNC O_TRUNC =? 0)) with true. cbv iota. by rewrite Hw.
  - exists (f_info f'). unfold MemFS.Stat. by rewrite Hf.
  - unfold MemFS.ReadFile, Dir.Open.
    destruct (decide (cleanse p = "" ∨ cleanse p = ".")) as [[?|Hdot]|_];
      [done|by apply cleanse_not_dot in Hdot|].
    fold (parts (cleanse p)). rewrite Hf. unfold Dir.fileOpen. rewrite Ho, Hopener.
    unfold Dir.readHandle. fold (parts (cleanse p)). rewrite Hf.
    unfold Dir.readAll. by rewrite Ho, Hopener, Hc.
Qed.

Lemma truncate_keeps_content_witness :
  let root := fst (MemFS.WriteFile 5 "/a/y" [Byte.x41] 420 sampleTree) in
  ∃ root', MemFS.WriteFile 6 "/a/y" [] 420 root = (root', None)
    ∧ MemFS.ReadFile (fun _ => Ok []) "/a/y" root' = Ok [Byte.x41].
Proof.
  intros root.
  destruct (truncate_keeps_content (fun _ => Ok []) 6 "/a/y" 420 root
              (mkFile (mkFileinfo "y" 1 5 420) (Some contentOpener) [Byte.x41]))
    as (root' & Hw & _ & _ & Hr).
  - vm_compute. reflexivity.
  - reflexivity.
  - reflexivity.
  - vm_compute. intros [=].
  - exists root'. split; [exact Hw|exact Hr].
Defined.

(** ** What [MkdirAll] creates and what it leaves alone *)

Lemma MkdirAll_cons now p ps perm d :
  emptyName (p :: ps) = false → d_files d !! p = None →
  Dir.MkdirAll now (p :: ps) perm d =
    let sub := match d_dirs d !! p with
               | Some s => s
               | None => mkDir (mkFileinfo p 256 now (dirPerm perm)) ∅ ∅
               end in
    (mkDir (touch now (d_info d))
       (<[p := fst (Dir.MkdirAll now ps (dirPerm perm) sub)]> (d_dirs d)) (d_files d),
     snd (Dir.MkdirAll now ps (dirPerm perm) sub)).
Proof.
  intros He Hf. simpl. rewrite He, Hf. unfold dirPerm.
  destruct ps as [|q qs]; [done|].
  by destruct (Dir.MkdirAll now (q :: qs) _ _).
Qed.

Lemma dirPerm_IsDir perm : IsDir (dirPerm perm) = true.
Proof.
  unfold IsDir, dirPerm. destruct (Z.land perm ModeDir =? 0) eqn:E.
  - apply Z.eqb_eq in E. rewrite Z.land_lor_distr_l, E, Z.land_diag. done.
  - by rewrite E.
Qed.

Lemma dirPerm_idemp perm : dirPerm (dirPerm perm) = dirPerm perm.
Proof.
  pose proof (dirPerm_IsDir perm) as H. unfold IsDir in H.
  unfold dirPerm at 1. by destruct (Z.land (dirPerm perm) ModeDir =? 0).
Qed.

Lemma getFile_new qs i : Forall goodPart qs → Dir.getFile qs (mkDir i ∅ ∅) = Fail ErrNotExist.
Proof.
  intros Hq. destruct qs as [|q [|q2 r]]; [done|done|].
  apply Forall_cons in Hq as [(Hq & _ & _) _].
  by rewrite getFile_cons2, getDir_single.
Qed.

Lemma MkdirAll_files (ps : list string) :
  ∀ now perm d qs, Forall goodPart qs →
    Dir.getFile qs (fst (Dir.MkdirAll now ps perm d)) = Dir.getFile qs d.
Proof.
  induction ps as [|p ps IH]; intros now perm d qs Hq; [done|].
  destruct (emptyName (p :: ps)) eqn:He; [by simpl; rewrite He|].
  destruct (d_files d !! p) eqn:Hf; [by simpl; rewrite He, Hf|].
  rewrite MkdirAll_cons by done. cbn [fst].
  destruct qs as [|q [|q2 r]]; [done|done|].
  apply Forall_cons in Hq as [(Hq & _ & _) Hq2].
  rewrite !getFile_cons2, !getDir_single by done. cbn [d_dirs].
  destruct (decide (p = q)) as [<-|Hpq]; [|by rewrite lookup_insert_ne].
  rewrite lookup_insert_eq, IH by done.
  destruct (d_dirs d !! p); [done|]. by apply getFile_new.
Qed.

Lemma MkdirAll_files_top now ps perm d :
  d_files (fst (Dir.MkdirAll now ps perm d)) = d_files d.
Proof.
  destruct ps as [|p ps]; [done|].
  destruct (emptyName (p :: ps)) eqn:He; [by simpl; rewrite He|].
  destruct (d_files d !! p) eqn:Hf; [by simpl; rewrite He, Hf|].
  by rewrite MkdirAll_cons.
Qed.

(** X6: [MkdirAll] never touches a file: whether it succeeds or fails,
    every file lookup gives afterwards what it gave before, and a file
    that could be read is read back unchanged. *)
Theorem MkdirAll_keeps_files (base : file → result (list Byte.byte)) (now : Time)
    (p : string) (perm : FileMode) (root : dir) (q : string) :
  Dir.getFile (parts (cleanse q)) (fst (MemFS.MkdirAll now p perm root))
  = Dir.getFile (parts (cleanse q)) root
  ∧ match MemFS.ReadFile base q root with
    | Ok data => MemFS.ReadFile base q (fst (MemFS.MkdirAll now p perm root)) = Ok data
    | Fail _ => True
    end.
Proof.
  assert (Dir.getFile (parts (cleanse q)) (fst (MemFS.MkdirAll now p perm root))
          = Dir.getFile (parts (cleanse q)) root) as Hsame.
  { unfold MemFS.MkdirAll. destruct (cleanse_cleanParts q) as [->|[_ Hgood]].
    - simpl. by rewrite MkdirAll_files_top.
    - by apply MkdirAll_files. }
  split; [done|].
  unfold MemFS.ReadFile, Dir.Open.
  destruct (decide (cleanse q = "" ∨ cleanse q = ".")); [done|].
  fold (parts (cleanse q)). rewrite Hsame.
  destruct (Dir.getFile (parts (cleanse q)) root) as [f|e] eqn:Hf.
  - unfold Dir.fileOpen. destruct (f_opener f); [|done].
    unfold Dir.readHandle. fold (parts (cleanse q)). rewrite Hsame, Hf.
    by destruct (Dir.readAll base f).
  - by destruct (Dir.getDir (parts (cleanse q)) root).
Qed.

Lemma MkdirAll_failure_erased (ps : list string) :
  ∀ now perm d e,
    snd (Dir.MkdirAll now ps perm d) = Some e →
    eraseModTimes (fst (Dir.MkdirAll now ps perm d)) = eraseModTimes d.
Proof.
  induction ps as [|p ps IH]; intros now perm d e; [done|].
  destruct (emptyName (p :: ps)) eqn:He; [by simpl; rewrite He|].
  destruct (d_files d !! p) eqn:Hf; [by simpl; rewrite He, Hf|].
  rewrite MkdirAll_cons by done. cbn [fst snd]. intros Herr.
  destruct (d_dirs d !! p) as [s|] eqn:Hs.
  - rewrite eraseModTimes_mkDir, fmap_insert, (IH _ _ _ _ Herr).
    rewrite insert_id by (by rewrite lookup_fmap, Hs).
    by destruct d.
  - rewrite MkdirAll_error, fileOnPath_new in Herr. done.
Qed.

(** X7: a [MkdirAll] that fails has created nothing: the tree differs from
    the one before at most in the modification times of directories. *)
Theorem MkdirAll_failure_creates_nothing (now : Time) (p : string) (perm : FileMode)
    (root : dir) :
  match snd (MemFS.MkdirAll now p perm root) with
  | Some _ => eraseModTimes (fst (MemFS.MkdirAll now p perm root)) = eraseModTimes root
  | None => True
  end.
Proof.
  unfold MemFS.MkdirAll.
  destruct (snd (Dir.MkdirAll now _ perm root)) eqn:H; [|done].
  by apply MkdirAll_failure_erased in H.
Qed.

Lemma getFile_fileOnPath (ps : list string) :
  ∀ d f, Forall goodPart ps → Dir.getFile ps d = Ok f → fileOnPath ps d = true.
Proof.
  induction ps as [|p ps IH]; intros d f Hgood Hf; [done|].
  apply Forall_cons in Hgood as [(Hp & _ & _) Hgood].
  simpl. rewrite emptyName_cons by done.
  destruct ps as [|q r].
  - simpl in Hf. by destruct (d_files d !! p).
  - rewrite getFile_cons2, getDir_single in Hf by done.
    destruct (d_files d !! p); [done|].
    destruct (d_dirs d !! p) as [s|]; [|done]. by apply (IH s f).
Qed.

Lemma MkdirAll_getDir (ps : list string) :
  ∀ now perm d d',
    Forall goodPart ps → Dir.MkdirAll now ps perm d = (d', None) →
    ∃ sub, Dir.getDir ps d' = Ok sub
      ∧ (∀ e, Dir.getDir ps d = Fail e →
           sub = mkDir (mkFileinfo (List.last ps "") 256 now (dirPerm perm)) ∅ ∅).
Proof.
  induction ps as [|p ps IH]; intros now perm d d' Hgood Hm.
  { injection Hm as <-. by exists d. }
  apply Forall_cons in Hgood as [(Hp & _ & _) Hgood].
  assert (emptyName (p :: ps) = false) as He by (by apply emptyName_cons).
  destruct (d_files d !! p) eqn:Hf; [by simpl in Hm; rewrite He, Hf in Hm|].
  rewrite MkdirAll_cons in Hm by done. cbv zeta in Hm.
  set (sub := match d_dirs d !! p with
              | Some s => s
              | None => mkDir (mkFileinfo p 256 now (dirPerm perm)) ∅ ∅
              end) in *.
  destruct (Dir.MkdirAll now ps (dirPerm perm) sub) as [sub' err] eqn:Hrec.
  injection Hm as <- ->.
  destruct (IH now (dirPerm perm) sub sub' Hgood Hrec) as (t & Ht & Hnew).
  exists t. rewrite !getDir_cons by done. cbn [d_dirs]. rewrite lookup_insert_eq.
  split; [done|]. intros e Hfail. rewrite dirPerm_idemp in Hnew.
  destruct ps as [|q r].
  - simpl in *. injection Hrec as <-. injection Ht as <-.
    unfold sub. by destruct (d_dirs d !! p).
  - change (List.last (p :: q :: r) "") with (List.last (q :: r) "").
    unfold sub in *. destruct (d_dirs d !! p) as [s|]; [by apply (Hnew e)|].
    apply (Hnew ErrNotExist). apply Forall_cons in Hgood as [(Hq & _ & _) _].
    by rewrite getDir_cons.
Qed.

(** X8: after a successful [MkdirAll] the path leads to a directory:
    [Stat] returns that directory's info and [ReadDir] its listing.  When
    the directory was not there before, it is named by the last part of
    the path, carries the directory bit and the time of the call, and is
    empty. *)
Theorem MkdirAll_then_directory (now : Time) (p : string) (perm : FileMode)
    (root root' : dir)
    (Hmk : MemFS.MkdirAll now p perm root = (root', None)) (Hpath : cleanse p ≠ "") :
  ∃ sub, Dir.getDir (parts (cleanse p)) root' = Ok sub
    ∧ MemFS.Stat p root' = Ok (d_info sub)
    ∧ MemFS.ReadDir p root' = Ok (Dir.sortSlice (Dir.entries sub))
    ∧ (∀ e, Dir.getDir (parts (cleanse p)) root = Fail e →
         d_info sub = mkFileinfo (List.last (parts (cleanse p)) "") 256 now (dirPerm perm)
         ∧ IsDir (mode (d_info sub)) = true
         ∧ MemFS.ReadDir p root' = Ok []).
Proof.
  destruct (cleanse_parts p Hpath) as (Hgood & Hnn).
  destruct (MkdirAll_getDir _ now perm root root' Hgood Hmk) as (sub & Hsub & Hnew).
  assert (MemFS.ReadDir p root' = Ok (Dir.sortSlice (Dir.entries sub))) as Hread.
  { unfold MemFS.ReadDir. by rewrite ReadDir_getDir, Hsub. }
  exists sub. split_and!; try done.
  - unfold MemFS.Stat. rewrite Hsub.
    destruct (Dir.getFile (parts (cleanse p)) root') as [f|] eqn:Hf; [|done].
    pose proof (MkdirAll_files (parts (cleanse p)) now perm root _ Hgood) as Hsame.
    unfold MemFS.MkdirAll in Hmk. rewrite Hmk in Hsame. cbn [fst] in Hsame.
    rewrite Hf in Hsame. symmetry in Hsame.
    apply getFile_fileOnPath in Hsame; [|done].
    pose proof (MkdirAll_error (parts (cleanse p)) now perm root) as Herr.
    by rewrite Hmk, Hsame in Herr.
  - intros e He. rewrite Hread, (Hnew e He). split_and!; [done| |done].
    apply dirPerm_IsDir.
Qed.

Lemma MkdirAll_then_directory_witness :
  ∃ sub, Dir.getDir (parts (cleanse "/a/b/c")) (fst (MemFS.MkdirAll 7 "/a/b/c" 493 sampleTree))
         = Ok sub
    ∧ MemFS.Stat "/a/b/c" (fst (MemFS.MkdirAll 7 "/a/b/c" 493 sampleTree)) = Ok (d_info sub).
Proof.
  destruct (MkdirAll_then_directory 7 "/a/b/c" 493 sampleTree
              (fst (MemFS.MkdirAll 7 "/a/b/c" 493 sampleTree)))
    as (sub & H1 & H2 & _).
  - vm_compute. reflexivity.
  - vm_compute. intros [=].
  - exists sub. split; [exact H1|exact H2].
Defined.

(** ** Creating a file: the parent directory *)

Lemma WriteFile_missing_parent (ps : list string) :
  ∀ now data perm d e,
    Forall goodPart ps → Z.land perm ModeDir = 0 →
    Dir.getDir (removelast ps) d = Fail e →
    Dir.WriteFile now ps data perm d = (d, Some ErrNotExist).
Proof.
  induction ps as [|p ps IH]; intros now data perm d e Hgood Hperm Hpar; [done|].
  apply Forall_cons in Hgood as [(Hp & _ & _) Hgood].
  destruct ps as [|q r]; [done|].
  change (removelast (p :: q :: r)) with (p :: removelast (q :: r)) in Hpar.
  rewrite getDir_cons in Hpar by done.
  rewrite WriteFile_cons2, Hperm. change (negb (0 =? 0)) with false. cbv iota.
  destruct (d_dirs d !! p) as [sub|] eqn:Hs; [|done].
  rewrite (IH now data perm sub e Hgood Hperm Hpar).
  rewrite insert_id by done. by rewrite mkDir_eta.
Qed.

Lemma WriteFile_fresh (ps : list string) :
  ∀ now data perm d e par,
    Forall goodPart ps → ps ≠ [] → Z.land perm ModeDir = 0 →
    Dir.getFile ps d = Fail e → Dir.getDir (removelast ps) d = Ok par →
    ∃ d', Dir.WriteFile now ps data perm d = (d', None).
Proof.
  induction ps as [|p ps IH]; intros now data perm d e par Hgood Hnil Hperm Hf Hpar;
    [done|].
  apply Forall_cons in Hgood as [(Hp & _ & _) Hgood].
  destruct ps as [|q r].
  - simpl in *. rewrite Hperm. simpl. destruct (d_files d !! p); [done|]. eauto.
  - change (removelast (p :: q :: r)) with (p :: removelast (q :: r)) in Hpar.
    rewrite getDir_cons in Hpar by done.
    rewrite getFile_cons2, getDir_single in Hf by done.
    rewrite WriteFile_cons2, Hperm. change (negb (0 =? 0)) with false. cbv iota.
    destruct (d_dirs d !! p) as [sub|] eqn:Hs; [|done].
    destruct (IH now data perm sub e par Hgood ltac:(done) Hperm Hf Hpar)
      as (sub' & ->).
    eauto.
Qed.

(** X9: [WriteFile] does not create directories: when the directory that
    is to hold the file does not exist, it fails with NotExist and leaves
    the tree exactly as it was. *)
Theorem WriteFile_missing_directory (now : Time) (p : string) (data : list Byte.byte)
    (perm : FileMode) (root : dir) (e : error)
    (Hperm : Z.land perm ModeDir = 0)
    (Hparent : Dir.getDir (removelast (parts (cleanse p))) root = Fail e) :
  MemFS.WriteFile now p data perm root = (root, Some ErrNotExist).
Proof.
  assert (cleanse p ≠ "") as Hpath by (by intros Heq; rewrite Heq in Hparent).
  destruct (cleanse_parts p Hpath) as (Hgood & _).
  by apply (WriteFile_missing_parent _ now data perm root e).
Qed.

Lemma WriteFile_missing_directory_witness :
  MemFS.WriteFile 5 "/nowhere/f" [] 420 sampleTree = (sampleTree, Some ErrNotExist).
Proof.
  apply (WriteFile_missing_directory 5 "/nowhere/f" [] 420 sampleTree ErrNotExist).
  - reflexivity.
  - vm_compute. reflexivity.
Defined.

(** X10: [OpenFile] on a path other than the root where there is no
    file, in a directory that exists, with a permission without the
    directory bit.  Without O_CREATE it fails with the "openfile"
    PathError and changes nothing, also when the path leads to a
    directory.  With O_CREATE it does what [WriteFile] with no data does
    and returns the handle of the new file, which is then read back
    empty and has size 0 and the permission given. *)
Theorem OpenFile_no_file (base : file → result (list Byte.byte)) (now : Time)
    (p : string) (flag : Z) (perm : FileMode) (root par : dir) (e : error)
    (Hnone : Dir.getFile (parts (cleanse p)) root = Fail e)
    (Hpath : cleanse p ≠ "") (Hperm : Z.land perm ModeDir = 0)
    (Hparent : Dir.getDir (removelast (parts (cleanse p))) root = Ok par) :
  if Z.land flag O_CREATE =? 0 then
    MemFS.OpenFile now p flag perm root
    = (root, Fail (PathError "openfile" (cleanse p) ErrNotExist))
  else
    ∃ root', MemFS.OpenFile now p flag perm root = (root', Ok (fileAccess (cleanse p)))
      ∧ MemFS.WriteFile now p [] perm root = (root', None)
      ∧ MemFS.ReadFile base p root' = Ok []
      ∧ ∃ i, MemFS.Stat p root' = Ok i ∧ size i = 0 ∧ mode i = perm.
Proof.
  unfold MemFS.OpenFile. rewrite Hnone.
  destruct (Z.land flag O_CREATE =? 0); [done|]. cbn [negb].
  destruct (cleanse_parts p Hpath) as (Hgood & Hnil).
  destruct (WriteFile_fresh _ now [] perm root e par Hgood Hnil Hperm Hnone Hparent)
    as (root' & Hw).
  destruct (WriteFile_written _ now [] perm root root' Hgood Hw)
    as (f' & Hf & Hsize & _ & Hmode & _ & _ & Hrel).
  rewrite Hnone in Hrel. destruct Hrel as (Hc & Ho & _).
  exists root'. rewrite Hw, Hf. unfold Dir.fileOpen. rewrite Ho.
  split_and!; try done.
  - unfold MemFS.ReadFile, Dir.Open.
    destruct (decide (cleanse p = "" ∨ cleanse p = ".")) as [[?|Hdot]|_];
      [done|by apply cleanse_not_dot in Hdot|].
    fold (parts (cleanse p)). rewrite Hf. unfold Dir.fileOpen. rewrite Ho.
    unfold Dir.readHandle. fold (parts (cleanse p)). rewrite Hf.
    unfold Dir.readAll. by rewrite Ho, Hc.
  - exists (f_info f'). unfold MemFS.Stat. by rewrite Hf.
Qed.

Lemma OpenFile_no_file_witness :
  ∃ root', MemFS.OpenFile 5 "/a/new" O_CREATE 420 sampleTree
           = (root', Ok (fileAccess "a/new"))
    ∧ MemFS.ReadFile (fun _ => Ok []) "/a/new" root' = Ok [].
Proof.
  pose proof (OpenFile_no_file (fun _ => Ok []) 5 "/a/new" O_CREATE 420 sampleTree
                (match d_dirs sampleTree !! "a" with Some s => s | None => sampleTree end)
                ErrNotExist) as H.
  change (Z.land O_CREATE O_CREATE =? 0) with false in H. cbv iota in H.
  destruct H as (root' & H1 & _ & H2 & _).
  - vm_compute. reflexivity.
  - vm_compute. intros [=].
  - reflexivity.
  - vm_compute. reflexivity.
  - exists root'. split; [exact H1|exact H2].
Defined.

(** X11: a directory cannot be read as bytes: for the root and for every
    path that leads to a directory with no file of that name beside it,
    [ReadFile] fails with Invalid, although [Open] succeeds; for a path
    that leads to nothing both fail with the "open" PathError. *)
Theorem ReadFile_directory (base : file → result (list Byte.byte)) (p : string)
    (root : dir) (e : error)
    (Hnone : cleanse p = "" ∨ Dir.getFile (parts (cleanse p)) root = Fail e) :
  match Dir.getDir (parts (cleanse p)) root with
  | Ok _ =>
      MemFS.ReadFile base p root = Fail ErrInvalid
      ∧ MemFS.Open p root = Ok (dirHandle (cleanse p))
  | Fail _ =>
      MemFS.ReadFile base p root = Fail (PathError "open" (cleanse p) ErrNotExist)
      ∧ MemFS.Open p root = Fail (PathError "open" (cleanse p) ErrNotExist)
  end.
Proof.
  unfold MemFS.ReadFile, MemFS.Open, Dir.Open.
  destruct (decide (cleanse p = "" ∨ cleanse p = ".")) as [[Heq|Hdot]|Hne].
  - by rewrite Heq.
  - by apply cleanse_not_dot in Hdot.
  - destruct Hnone as [?|Hnone]; [by destruct Hne; left|].
    fold (parts (cleanse p)). rewrite Hnone.
    by destruct (Dir.getDir (parts (cleanse p)) root).
Qed.

Lemma ReadFile_directory_witness :
  MemFS.ReadFile (fun _ => Ok []) "/a" sampleTree = Fail ErrInvalid
  ∧ MemFS.ReadFile (fun _ => Ok []) "/b" sampleTree
    = Fail (PathError "open" "b" ErrNotExist).
Proof.
  split.
  - pose proof (ReadFile_directory (fun _ => Ok []) "/a" sampleTree ErrNotExist) as H.
    destruct (Dir.getDir (parts (cleanse "/a")) sampleTree) eqn:E.
    + apply H. right. vm_compute. reflexivity.
    + vm_compute in E. discriminate E.
  - pose proof (ReadFile_directory (fun _ => Ok []) "/b" sampleTree ErrNotExist) as H.
    destruct (Dir.getDir (parts (cleanse "/b")) sampleTree) eqn:E.
    + vm_compute in E. discriminate E.
    + apply H. right. vm_compute. reflexivity.
Defined.

(** ** Normal forms of paths *)

Lemma cleanse_fold p :
  p ≠ "" →
  cleanse p = Strings.Join
    (rev (fold_left (Path.cleanStep (Strings.HasPrefix p "/")) (Strings.Split Path.slash p) []))
    "/".
Proof.
  intros Hp. unfold cleanse, Path.Clean.
  destruct (decide (p = "")) as [|_]; [done|].
  set (rooted := Strings.HasPrefix p "/").
  set (out := fold_left (Path.cleanStep rooted) (Strings.Split Path.slash p) []).
  assert (Forall goodPart (rev out)) as Hgood.
  { apply Forall_rev, fold_cleanStep_good; [done|apply Split_slashfree]. }
  destruct (decide (rev out = [])) as [Hnil|Hnn].
  - rewrite Hnil. simpl. by destruct rooted.
  - destruct (Join_good _ Hnn Hgood) as (H1 & H2 & H3 & H4).
    destruct rooted.
    + unfold Strings.TrimPrefix at 2. rewrite string_app_cons, string_app_nil_l.
      simpl Strings.cutPrefix.
      unfold Strings.TrimPrefix. simpl Strings.cutPrefix.
      by destruct (decide _).
    + destruct (decide (Strings.Join (rev out) "/" = "")); [done|].
      unfold Strings.TrimPrefix.
      change ("." +:+ "/") with "./". rewrite H1, H2. by destruct (decide _).
Qed.

(** What [Clean] has written so far never holds a ".." above a real
    element: the ".." elements it keeps are the leading ones. *)
Lemma cleanStep_dotdots rooted out elem :
  (∃ S k, out = S ++ replicate k ".." ∧ Forall (λ c, c ≠ "..") S) →
  ∃ S k, Path.cleanStep rooted out elem = S ++ replicate k ".."
         ∧ Forall (λ c, c ≠ "..") S.
Proof.
  intros (S & k & -> & HS). unfold Path.cleanStep.
  destruct (decide (elem = "" ∨ elem = ".")) as [|_]; [by exists S, k|].
  destruct (decide (elem = "..")) as [->|Hdd].
  - destruct S as [|s S0].
    + destruct k as [|k]; simpl.
      * destruct rooted; [by exists [], 0%nat|by exists [], 1%nat].
      * destruct (decide (".." = "..")) as [_|]; [|done].
        destruct rooted; [by exists [], (S k)|by exists [], (S (S k))].
    + apply Forall_cons in HS as [Hs HS0]. simpl.
      destruct (decide (s = "..")); [done|]. by exists S0, k.
  - exists (elem :: S), k. split; [done|by constructor].
Qed.

Lemma fold_cleanStep_dotdots rooted elems :
  ∀ out,
    (∃ S k, out = S ++ replicate k ".." ∧ Forall (λ c, c ≠ "..") S) →
    ∃ S k, fold_left (Path.cleanStep rooted) elems out = S ++ replicate k ".."
           ∧ Forall (λ c, c ≠ "..") S.
Proof.
  induction elems as [|e elems IH]; intros out Hout; [done|].
  simpl. by apply IH, cleanStep_dotdots.
Qed.

Lemma fold_cleanStep_push (T : list string) :
  ∀ out, Forall (λ c, goodPart c ∧ c ≠ "..") T →
    fold_left (Path.cleanStep false) T out = rev T ++ out.
Proof.
  induction T as [|t T IH]; intros out HT; [done|].
  apply Forall_cons in HT as [((Hne & Hdot & _) & Hdd) HT].
  simpl. rewrite (IH _ HT), <- app_assoc. f_equal.
  unfold Path.cleanStep.
  destruct (decide (t = "" ∨ t = ".")) as [[?|?]|_]; [done..|].
  by destruct (decide (t = "..")).
Qed.

Lemma fold_cleanStep_up (k : nat) :
  ∀ j, fold_left (Path.cleanStep false) (replicate k "..") (replicate j "..")
       = replicate (k + j) "..".
Proof.
  induction k as [|k IH]; intros j; [done|].
  simpl. replace (Path.cleanStep false (replicate j "..") "..")
    with (replicate (S j) "..") by (by destruct j).
  by rewrite IH, Nat.add_succ_r.
Qed.

Lemma rev_replicate {A} (k : nat) (x : A) : rev (replicate k x) = replicate k x.
Proof.
  induction k as [|k IH]; [done|]. simpl. rewrite IH.
  clear IH. induction k as [|k IH]; [done|]. simpl. by rewrite IH.
Qed.

(** X12: [cleanse] is idempotent: a path it has normalized is returned as
    it is, so that normalizing at every entry point and again in a callee
    finds the same entry. *)
Theorem cleanse_idempotent (p : string) : cleanse (cleanse p) = cleanse p.
Proof.
  destruct (decide (p = "")) as [->|Hp]; [done|].
  rewrite (cleanse_fold p Hp).
  set (out := fold_left _ _ []).
  assert (Forall goodPart out) as Hgood.
  { apply fold_cleanStep_good; [done|apply Split_slashfree]. }
  destruct (fold_cleanStep_dotdots (Strings.HasPrefix p "/") (Strings.Split Path.slash p) [])
    as (S & k & HS & Hdd); [by exists [], 0%nat|].
  fold out in HS. clearbody out. subst out.
  rewrite rev_app_distr, rev_replicate.
  set (comps := replicate k ".." ++ rev S).
  assert (Forall goodPart comps) as Hcomps.
  { apply Forall_app in Hgood as [HgS Hgk]. apply Forall_app. split; [done|].
    by apply Forall_rev. }
  destruct (decide (comps = [])) as [->|Hnn]; [done|].
  destruct (Join_good _ Hnn Hcomps) as (H1 & H2 & H3 & H4).
  set (s := Strings.Join comps "/") in *.
  assert (Strings.HasPrefix s "/" = false) as Hrel
    by (unfold Strings.HasPrefix; by rewrite H2).
  rewrite (cleanse_fold s H4), Hrel. unfold s at 1.
  rewrite Split_Join by (by try apply goodPart_slashfree).
  unfold comps at 1. rewrite fold_left_app.
  change (@nil string) with (replicate 0 "..") at 1.
  rewrite (fold_cleanStep_up k 0), Nat.add_0_r.
  rewrite fold_cleanStep_push.
  - by rewrite rev_app_distr, rev_replicate, !rev_involutive.
  - apply Forall_rev. apply Forall_app in Hgood as [HgS _].
    apply Forall_forall. intros c Hc. split.
    + by eapply Forall_forall in HgS.
    + by eapply Forall_forall in Hdd.
Qed.

(** ** The disk filesystem's paths *)

Lemma HasPrefix_slash_cons (c : ascii) (s : string) :
  Strings.HasPrefix (String c s) "/" = Ascii.eqb "/" c.
Proof. unfold Strings.HasPrefix. rewrite cutPrefix_cons. by destruct (Ascii.eqb "/" c). Qed.

Lemma joinBuf_rooted (elem : list string) :
  ∀ buf, buf ≠ "" →
    Strings.HasPrefix (Path.joinBuf buf elem) "/" = Strings.HasPrefix buf "/"
    ∧ Path.joinBuf buf elem ≠ "".
Proof.
  induction elem as [|e es IH]; intros buf Hbuf; [done|].
  simpl. destruct (decide (buf = "" ∧ e = "")) as [[? _]|_]; [done|].
  destruct (decide (buf = "")) as [|_]; [done|].
  destruct buf as [|c b]; [done|].
  rewrite !string_app_cons.
  destruct (IH (String c ((b +:+ "/") +:+ e)) ltac:(done)) as [-> ?].
  by rewrite !HasPrefix_slash_cons.
Qed.

Lemma Clean_relative (p : string) :
  Strings.HasPrefix p "/" = false → Strings.HasPrefix (Path.Clean p) "/" = false.
Proof.
  intros Hrel. unfold Path.Clean.
  destruct (decide (p = "")) as [|_]; [done|].
  rewrite Hrel.
  set (out := fold_left _ _ []).
  destruct (decide (Strings.Join (rev out) "/" = "")) as [|Hne]; [done|].
  assert (Forall goodPart (rev out)) as Hgood.
  { apply Forall_rev, fold_cleanStep_good; [done|apply Split_slashfree]. }
  destruct (decide (rev out = [])) as [Hnil|Hnn]; [by rewrite Hnil in Hne|].
  destruct (Join_good _ Hnn Hgood) as (_ & H2 & _).
  unfold Strings.HasPrefix. by rewrite H2.
Qed.

(** X13: the disk filesystem never hands the host an absolute path:
    whatever its root directory and whatever the name, [join] returns a
    relative path, so that a root given as an absolute path is resolved
    against the working directory of the process. *)
Theorem join_never_absolute (dir name : string) :
  Path.IsAbs (DirFS.join dir name) = false.
Proof.
  unfold Path.IsAbs, DirFS.join, Path.Join.
  change (forallb _ ["."; dir; name]) with false. cbv iota.
  apply Clean_relative.
  change (Path.joinBuf "" ["."; dir; name]) with (Path.joinBuf "." [dir; name]).
  by destruct (joinBuf_rooted [dir; name] "." ltac:(done)) as [-> _].
Qed.

(** ** Further properties of the PATH lookup *)

Lemma Clean_rooted (p : string) :
  Strings.HasPrefix p "/" = true → Strings.HasPrefix (Path.Clean p) "/" = true.
Proof.
  intros Habs. unfold Path.Clean.
  destruct (decide (p = "")) as [->|_]; [done|]. by rewrite Habs.
Qed.

Lemma resolve_absolute (cwd cand : string) :
  Path.IsAbs cwd = true → Path.IsAbs (resolve cwd cand) = true.
Proof.
  intros Hcwd. unfold resolve.
  destruct (Path.IsAbs cand) eqn:Hc; [done|].
  destruct cwd as [|c cwd']; [done|].
  unfold Path.IsAbs, Path.Join.
  change (forallb _ [String c cwd'; cand]) with false. cbv iota.
  apply Clean_rooted.
  change (Path.joinBuf "" [String c cwd'; cand])
    with (Path.joinBuf (String c cwd') [cand]).
  by destruct (joinBuf_rooted [cand] (String c cwd') ltac:(done)) as [-> _].
Qed.

(** X14: with an absolute working directory, the path [lookPathDir]
    returns is absolute, also for a relative PATH entry and for the
    candidate "./file" of an empty one; and it is a path that the host
    stats to a non-directory with an execute bit. *)
Theorem lookPathDir_absolute (osStat : string → result FileMode) (cwd : string)
    (env : string → Variable_) (file f : string)
    (Hcwd : Path.IsAbs cwd = true)
    (Hfound : Handler.lookPathDir osStat cwd env file = Ok f) :
  Path.IsAbs f = true ∧ isHit (osStat f) = true.
Proof.
  unfold Handler.lookPathDir in Hfound. rewrite lookPathLoop_find in Hfound.
  destruct (List.find _ _) as [elem|] eqn:Hfind; [|done].
  simpl in Hfound. injection Hfound as <-.
  apply find_some in Hfind as [_ Hhit].
  split; [by apply resolve_absolute|done].
Qed.

Lemma lookPathDir_absolute_witness :
  Path.IsAbs "/home/bin/foo" = true
  ∧ isHit (hostWith [("/home/bin/foo", 493)] "/home/bin/foo") = true.
Proof.
  apply (lookPathDir_absolute (hostWith [("/home/bin/foo", 493)]) "/home"
           (envWithPath "/bin:bin") "foo" "/home/bin/foo").
  - reflexivity.
  - vm_compute. reflexivity.
Defined.

(** X15: with PATH unset or empty the lookup has one candidate, "./file"
    in the working directory, and the command is found exactly when the
    host stats that path to a non-directory with an execute bit.  The
    single empty element comes from [Split]; the list is never empty, so
    the replacement of an empty list is never reached. *)
Theorem lookPathDir_empty_PATH (osStat : string → result FileMode) (cwd : string)
    (env : string → Variable_) (file : string)
    (Hpath : VariableString (env "PATH") = "") :
  Handler.lookPathDir osStat cwd env file =
    (if isHit (osStat (Path.Join [cwd; "./" +:+ file]))
     then Ok (Path.Join [cwd; "./" +:+ file])
     else Fail (ErrorfQuoted file ": executable file not found in $PATH"))
  ∧ ∀ s, (List.length (Strings.Split ":"%char s) =? 0)%nat = false.
Proof.
  split.
  - unfold Handler.lookPathDir. rewrite Hpath, lookPathLoop_find. simpl.
    unfold Handler.candidate.
    destruct (decide ("" = "" ∨ "" = ".")) as [_|Hn]; [|by destruct Hn; left].
    unfold resolve. change (Path.IsAbs ("./" +:+ file)) with false. cbv iota.
    by destruct (isHit _).
  - intros s. pose proof (Split_not_nil ":"%char s).
    by destruct (Strings.Split ":"%char s).
Qed.

Lemma lookPathDir_empty_PATH_witness :
  Handler.lookPathDir (hostWith [("/home/foo", 493)]) "/home" (envWithPath "") "foo"
  = Ok "/home/foo".
Proof.
  destruct (lookPathDir_empty_PATH (hostWith [("/home/foo", 493)]) "/home"
              (envWithPath "") "foo") as [H _].
  - reflexivity.
  - rewrite H. vm_compute. reflexivity.
Defined.

(** * The builtins *)

Lemma Rm_cons (hc : Builtin.RunnerContext) (arg : string) (rest : list string) :
  Builtin.Rm hc (arg :: rest) =
    if decide (arg = "-r") then Builtin.Rm hc rest
    else match MemFS.RemoveAll (Path.Join [Builtin.Dir hc; arg]) (Builtin.FileSytem hc) with
         | (root, Some err) =>
             (Builtin.toStderr (Builtin.withFileSytem hc root)
                (mkDiag "rm: %s: %v\n" arg (Some err)), None)
         | (root, None) => Builtin.Rm (Builtin.withFileSytem hc root) rest
         end.
Proof. reflexivity. Qed.

Lemma Mkdir_cons (now : Time) (hc : Builtin.RunnerContext) (arg : string)
    (rest : list string) :
  Builtin.Mkdir now hc (arg :: rest) =
    if decide (arg = "-p") then Builtin.Mkdir now hc rest
    else match MemFS.MkdirAll now (Path.Join [Builtin.Dir hc; arg]) 511
                 (Builtin.FileSytem hc) with
         | (root, Some err) =>
             (Builtin.toStderr (Builtin.withFileSytem hc root)
                (mkDiag "mkdir: %s: %v\n" arg (Some err)), None)
         | (root, None) => Builtin.Mkdir now (Builtin.withFileSytem hc root) rest
         end.
Proof. reflexivity. Qed.

Lemma RemoveAll_failure (p : string) (root root' : dir) (e : error) :
  MemFS.RemoveAll p root = (root', Some e) → root' = root.
Proof.
  unfold MemFS.RemoveAll, Dir.RemoveAll.
  destruct (decide (cleanse p = "" ∨ cleanse p = ".")) as [|_]; [done|].
  intros H.
  pose proof (removePath_failure_unchanged (Strings.Split Path.slash (cleanse p))
                true root e) as Hu.
  rewrite H in Hu. by apply Hu.
Qed.

(** X16: [Rm] never returns an error and never writes to the output, and
    leaves the working directory and the input as they are.  It stops at
    the first argument (other than "-r") that [RemoveAll] refuses: it
    then writes one line to the error stream, naming that argument and
    the error, leaves the tree as the arguments before had left it, and
    does not look at the arguments after. *)
Theorem Rm_contract (hc : Builtin.RunnerContext) (args : list string) :
  snd (Builtin.Rm hc args) = None
  ∧ Builtin.Stdout (fst (Builtin.Rm hc args)) = Builtin.Stdout hc
  ∧ Builtin.Dir (fst (Builtin.Rm hc args)) = Builtin.Dir hc
  ∧ Builtin.Stdin (fst (Builtin.Rm hc args)) = Builtin.Stdin hc
  ∧ (Builtin.Stderr (fst (Builtin.Rm hc args)) = Builtin.Stderr hc
     ∨ ∃ before arg after err,
         args = before ++ arg :: after ∧ arg ≠ "-r"
         ∧ snd (MemFS.RemoveAll (Path.Join [Builtin.Dir hc; arg])
                  (Builtin.FileSytem (fst (Builtin.Rm hc before)))) = Some err
         ∧ Builtin.Stderr (fst (Builtin.Rm hc before)) = Builtin.Stderr hc
         ∧ Builtin.Stderr (fst (Builtin.Rm hc args))
           = Builtin.Stderr hc ++ [mkDiag "rm: %s: %v\n" arg (Some err)]
         ∧ Builtin.FileSytem (fst (Builtin.Rm hc args))
           = Builtin.FileSytem (fst (Builtin.Rm hc before))).
Proof.
  revert hc. induction args as [|a args IH]; intros hc.
  { split_and!; try done. by left. }
  rewrite Rm_cons. destruct (decide (a = "-r")) as [->|Ha].
  - destruct (IH hc) as (H1 & H2 & H3 & H4 & H5). split_and!; try done.
    destruct H5 as [H5|(before & arg & after & err & -> & Harg & Herr & Hb & Hs & Hf)];
      [by left|right].
    exists ("-r" :: before), arg, after, err. by rewrite Rm_cons.
  - destruct (MemFS.RemoveAll _ _) as [root [err|]] eqn:Hrm.
    + apply RemoveAll_failure in Hrm as Hroot. subst root.
      split_and!; try done. right.
      exists [], a, args, err.
      change (Builtin.Rm hc []) with (hc, @None error). cbn [fst].
      by rewrite Hrm.
    + destruct (IH (Builtin.withFileSytem hc root)) as (H1 & H2 & H3 & H4 & H5).
      split_and!; try done.
      destruct H5 as [H5|(before & arg & after & err & -> & Harg & Herr & Hb & Hs & Hf)];
        [by left|right].
      exists (a :: before), arg, after, err.
      rewrite Rm_cons. destruct (decide (a = "-r")) as [|_]; [done|]. by rewrite Hrm.
Qed.

(** X17: [rm] removes a populated directory whether "-r" is given or not:
    it calls [RemoveAll] in both cases, and a following [Stat] on the path
    returns NotExist. *)
Theorem Rm_populated (hc : Builtin.RunnerContext) (arg : string)
    (Harg : arg ≠ "-r")
    (Hpath : cleanse (Path.Join [Builtin.Dir hc; arg]) ≠ "")
    (Hpop : populatedDir (cleanse (Path.Join [Builtin.Dir hc; arg]))
              (Builtin.FileSytem hc)) :
  ∃ root', Builtin.Rm hc [arg] = (Builtin.withFileSytem hc root', None)
    ∧ Builtin.Rm hc ["-r"; arg] = (Builtin.withFileSytem hc root', None)
    ∧ MemFS.Stat (Path.Join [Builtin.Dir hc; arg]) root'
      = Fail (PathError "stat" (cleanse (Path.Join [Builtin.Dir hc; arg])) ErrNotExist).
Proof.
  set (p := Path.Join [Builtin.Dir hc; arg]) in *.
  destruct Hpop as (Hfile & sub & Hdir & Hne).
  destruct (cleanse_parts p Hpath) as (Hgood & Hnn).
  destruct (removePath_populated _ (Builtin.FileSytem hc) sub Hnn Hgood Hfile Hdir Hne)
    as ((root' & Hrm & Hf & Hd) & _).
  assert (MemFS.RemoveAll p (Builtin.FileSytem hc) = (root', None)) as Hall.
  { unfold MemFS.RemoveAll, Dir.RemoveAll.
    destruct (decide (cleanse p = "" ∨ cleanse p = ".")) as [[?|Hdot]|_];
      [done|by apply cleanse_not_dot in Hdot|done]. }
  exists root'. rewrite !Rm_cons.
  destruct (decide ("-r" = "-r")) as [_|]; [|done].
  destruct (decide (arg = "-r")) as [|_]; [done|].
  fold p. rewrite Hall. split_and!; try done.
  unfold MemFS.Stat. by rewrite Hf, Hd.
Qed.

Lemma Rm_populated_witness :
  ∃ root', Builtin.Rm (Builtin.mkContext sampleTree "/" None [] []) ["a"]
           = (Builtin.withFileSytem (Builtin.mkContext sampleTree "/" None [] []) root', None)
    ∧ MemFS.Stat "/a" root' = Fail (PathError "stat" "a" ErrNotExist).
Proof.
  destruct (Rm_populated (Builtin.mkContext sampleTree "/" None [] []) "a")
    as (root' & H1 & _ & H2).
  - intros [=].
  - vm_compute. intros [=].
  - split; [exists ErrNotExist; vm_compute; reflexivity|].
    exists (match d_dirs sampleTree !! "a" with Some s => s | None => sampleTree end).
    split; [vm_compute; reflexivity|].
    intros [_ Hf]. vm_compute in Hf. discriminate Hf.
  - exists root'. split; [exact H1|exact H2].
Defined.

Lemma getDir_prefix (ps : list string) :
  ∀ d sub n, Forall goodPart ps → Dir.getDir ps d = Ok sub →
    ∃ s, Dir.getDir (take n ps) d = Ok s.
Proof.
  induction ps as [|p ps IH]; intros d sub n Hgood Hd.
  { exists d. by destruct n. }
  apply Forall_cons in Hgood as [(Hp & _ & _) Hgood].
  destruct n as [|n]; [by exists d|].
  rewrite getDir_cons in Hd by done. cbn [take]. rewrite getDir_cons by done.
  destruct (d_dirs d !! p) as [s|]; [|done]. by apply (IH s sub n).
Qed.

(** X18: [mkdir] makes the directory and every missing directory above
    it, whether "-p" is given or not: it calls [MkdirAll] with permission
    0777 in both cases.  Unless a file lies on the path, every prefix of
    the path leads to a directory afterwards; if one does, one line is
    written to the error stream, nothing is created, and the command
    still returns nil. *)
Theorem Mkdir_creates_parents (now : Time) (hc : Builtin.RunnerContext) (arg : string)
    (Harg : arg ≠ "-p")
    (Hpath : cleanse (Path.Join [Builtin.Dir hc; arg]) ≠ "") :
  ∃ root',
    MemFS.MkdirAll now (Path.Join [Builtin.Dir hc; arg]) 511 (Builtin.FileSytem hc)
    = (root', if fileOnPath (parts (cleanse (Path.Join [Builtin.Dir hc; arg])))
                   (Builtin.FileSytem hc)
              then Some ErrExist else None)
    ∧ Builtin.Mkdir now hc ["-p"; arg] = Builtin.Mkdir now hc [arg]
    ∧ if fileOnPath (parts (cleanse (Path.Join [Builtin.Dir hc; arg])))
           (Builtin.FileSytem hc)
      then Builtin.Mkdir now hc [arg]
           = (Builtin.toStderr (Builtin.withFileSytem hc root')
                (mkDiag "mkdir: %s: %v\n" arg (Some ErrExist)), None)
           ∧ eraseModTimes root' = eraseModTimes (Builtin.FileSytem hc)
      else Builtin.Mkdir now hc [arg] = (Builtin.withFileSytem hc root', None)
           ∧ ∀ n, ∃ sub,
               Dir.getDir (take n (parts (cleanse (Path.Join [Builtin.Dir hc; arg]))))
                 root' = Ok sub.
Proof.
  set (p := Path.Join [Builtin.Dir hc; arg]) in *.
  destruct (cleanse_parts p Hpath) as (Hgood & Hnn).
  pose proof (MkdirAll_error (parts (cleanse p)) now 511 (Builtin.FileSytem hc)) as Herr.
  pose proof (MkdirAll_failure_erased (parts (cleanse p)) now 511
                (Builtin.FileSytem hc) ErrExist) as Hera.
  destruct (Dir.MkdirAll now (parts (cleanse p)) 511 (Builtin.FileSytem hc))
    as [root' err] eqn:Hm.
  cbn [fst snd] in Herr, Hera. subst err.
  exists root'. unfold MemFS.MkdirAll. rewrite Hm.
  split; [done|].
  rewrite !Mkdir_cons.
  destruct (decide ("-p" = "-p")) as [_|]; [|done].
  destruct (decide (arg = "-p")) as [|_]; [done|].
  split; [done|].
  fold p. unfold MemFS.MkdirAll. rewrite Hm.
  destruct (fileOnPath (parts (cleanse p)) (Builtin.FileSytem hc)).
  - split; [done|by apply Hera].
  - split; [done|]. intros n.
    destruct (MkdirAll_getDir _ now 511 (Builtin.FileSytem hc) root' Hgood Hm)
      as (sub & Hsub & _).
    by apply (getDir_prefix _ root' sub n).
Qed.

Lemma Mkdir_creates_parents_witness :
  ∃ sub, Dir.getDir ["a"; "b"]
           (Builtin.FileSytem
              (fst (Builtin.Mkdir 7 (Builtin.mkContext sampleTree "/a" None [] []) ["b/c"])))
         = Ok sub.
Proof.
  destruct (Mkdir_creates_parents 7 (Builtin.mkContext sampleTree "/a" None [] []) "b/c")
    as (root' & _ & _ & H).
  - intros [=].
  - vm_compute. intros [=].
  - change (fileOnPath _ _) with false in H. cbv iota in H.
    destruct H as [-> Hn]. exact (Hn 2%nat).
Defined.


Lemma readHandle_file base p f d :
  Dir.getFile (parts p) d = Ok f → is_Some (f_opener f) → p ≠ "" → p ≠ "." →
  Dir.Open p d = Ok (fileAccess p)
  ∧ Dir.statHandle (fileAccess p) d = Ok (f_info f)
  ∧ Dir.readHandle base (fileAccess p) d = Dir.readAll base f.
Proof.
  intros Hf [o Ho] Hne Hdot. unfold Dir.Open, Dir.statHandle, Dir.readHandle.
  destruct (decide (p = "" ∨ p = ".")) as [[?|?]|_]; [done..|].
  fold (parts p). rewrite Hf. unfold Dir.fileOpen. by rewrite Ho.
Qed.

(** X20: what was written is printed: after a successful [WriteFile] on
    a path other than the root, to a path that held no file, or of data
    that is not empty over a file written in memory, [cat] of that file
    appends exactly the data to the output, writes nothing to the error
    stream and returns nil. *)
Theorem Cat_written (base : file → result (list Byte.byte)) (now : Time)
    (hc : Builtin.RunnerContext) (arg : string) (data : list Byte.byte)
    (perm : FileMode) (root' : dir)
    (Hwrite : MemFS.WriteFile now (Path.Join [Builtin.Dir hc; arg]) data perm
                (Builtin.FileSytem hc) = (root', None))
    (Hpath : cleanse (Path.Join [Builtin.Dir hc; arg]) ≠ "")
    (Hnew : (∃ e, Dir.getFile (parts (cleanse (Path.Join [Builtin.Dir hc; arg])))
                    (Builtin.FileSytem hc) = Fail e)
            ∨ (data ≠ []
               ∧ ∃ old, Dir.getFile (parts (cleanse (Path.Join [Builtin.Dir hc; arg])))
                          (Builtin.FileSytem hc) = Ok old
                        ∧ f_opener old = Some contentOpener)) :
  Builtin.Cat base (Builtin.withFileSytem hc root') [arg]
  = (Builtin.toStdout (Builtin.withFileSytem hc root') data, None).
Proof.
  set (p := Path.Join [Builtin.Dir hc; arg]) in *.
  destruct (cleanse_parts p Hpath) as (Hgood & _).
  destruct (WriteFile_written _ now data perm (Builtin.FileSytem hc) root' Hgood Hwrite)
    as (f' & Hf & _ & _ & Hmode & Hperm & Hop & Hrel).
  destruct (readHandle_file base (cleanse p) f' root' Hf Hop Hpath (cleanse_not_dot p))
    as (Hopen & Hstat & Hread).
  unfold Builtin.Cat, Builtin.catFiles, MemFS.Open.
  cbn [Builtin.withFileSytem Builtin.Dir Builtin.FileSytem]. fold p.
  rewrite Hopen, Hstat, Hread.
  unfold IsDir. rewrite Hmode, Hperm. change (negb (0 =? 0)) with false. cbv iota.
  assert (Dir.readAll base f' = Ok data) as ->; [|done].
  unfold Dir.readAll.
  destruct Hnew as [[e He]|(Hne & old & Hfile & Hmem)].
  - rewrite He in Hrel. by destruct Hrel as (-> & -> & _).
  - rewrite Hfile, Hmem in Hrel. destruct Hrel as (-> & _ & Hdata).
    by destruct data as [|b data]; [|rewrite Hdata].
Qed.

Lemma Cat_written_witness :
  Builtin.Cat (fun _ => Ok [])
    (Builtin.withFileSytem (Builtin.mkContext sampleTree "/a" None [] [])
       (fst (MemFS.WriteFile 9 "/a/y" [Byte.x68; Byte.x69] 420 sampleTree))) ["y"]
  = (Builtin.toStdout
       (Builtin.withFileSytem (Builtin.mkContext sampleTree "/a" None [] [])
          (fst (MemFS.WriteFile 9 "/a/y" [Byte.x68; Byte.x69] 420 sampleTree)))
       [Byte.x68; Byte.x69], None).
Proof.
  apply (Cat_written (fun _ => Ok []) 9 (Builtin.mkContext sampleTree "/a" None [] [])
           "y" [Byte.x68; Byte.x69] 420).
  - vm_compute. reflexivity.
  - vm_compute. intros [=].
  - left. exists ErrNotExist. vm_compute. reflexivity.
Defined.

(** * The Runner *)

(** X21: [Reset] returns a used Runner to the state its first [Reset]
    gave it: whatever the heap holds and whatever was changed since
    (directory, parameters, options, streams, variables, functions, exit
    code), as long as the base environment and the values kept from the
    constructor are the same, the fields are those of the first [Reset]
    and every variable lookup gives what it gave then. *)
Theorem Reset_restores (h h' : heap) (r r' : Runner)
    (Hdone : didReset r' = true)
    (Hsame : sameOrigin r' (snd (Interp.Reset (h, r)))) :
  let r1 := snd (Interp.Reset (h, r)) in
  let r2 := snd (Interp.Reset (h', r')) in
  Dir r2 = Dir r1 ∧ Params r2 = Params r1 ∧ opts r2 = opts r1
  ∧ stdin r2 = stdin r1 ∧ stdout r2 = stdout r1 ∧ stderr r2 = stderr r1
  ∧ dirStack r2 = dirStack r1 ∧ Vars r2 = ∅ ∧ Funcs r2 = ∅ ∧ alias r2 = ∅
  ∧ exit r2 = 0 ∧ fatalErr r2 = None ∧ nonFatalHandlerErr r2 = None
  ∧ sameOrigin r2 r1
  ∧ ∃ l1 l2, writeEnv r1 = Some l1 ∧ writeEnv r2 = Some l2
      ∧ ∀ name, Overlay.Get (fst (Interp.Reset (h', r'))) l2 name
                = Overlay.Get (fst (Interp.Reset (h, r))) l1 name.
Proof.
  intros r1 r2.
  destruct Hsame as (He & Hd & Hp & Ho & Hi & Hso & Hse & Ht & Hf & Hc).
  assert (∃ l1 l2, writeEnv r1 = Some l1 ∧ writeEnv r2 = Some l2
            ∧ ∀ name, Overlay.Get (fst (Interp.Reset (h', r'))) l2 name
                      = Overlay.Get (fst (Interp.Reset (h, r))) l1 name) as Hlast.
  { destruct (Reset_heap h r) as (Hh1 & Hl1 & Hd1).
    destruct (Reset_heap h' r') as (Hh2 & Hl2 & Hd2).
    rewrite Hdone in Hh2. cbn [negb] in Hh2.
    exists (List.length h), (List.length h'). split; [done|]. split; [done|].
    intros name. rewrite Hh1, Hh2, !Get_last_base, He, Hd.
    by unfold Interp.Reset; cbn [snd Env origDir]. }
  subst r1 r2. unfold Interp.Reset in He, Hd, Hp, Ho, Hi, Hso, Hse, Ht, Hf, Hc.
  cbn [snd Env origDir origParams origOpts origStdin origStdout origStderr
       TTY FileSystem Commands] in He, Hd, Hp, Ho, Hi, Hso, Hse, Ht, Hf, Hc.
  split_and!; [..|exact Hlast]; clear Hlast;
    unfold sameOrigin, Interp.Reset;
    cbn [snd Dir Params opts stdin stdout stderr dirStack Vars Funcs alias exit fatalErr
         nonFatalHandlerErr Env origDir origParams origOpts origStdin origStdout
         origStderr TTY FileSystem Commands];
    rewrite ?Hdone; cbn [negb]; try done.
  by rewrite Hd.
Qed.


Lemma Reset_restores_witness :
  let h1 := fst (Interp.Reset ([], newRunner ∅)) in
  let w2 := Interp.Reset (writeVars 0 [("IFS", strVar ":")] h1,
                          staleRunner ErrInvalid ErrExist) in
  fatalErr (snd w2) = None
  ∧ ∃ l1 l2, writeEnv (snd (Interp.Reset ([], newRunner ∅))) = Some l1
      ∧ writeEnv (snd w2) = Some l2
      ∧ ∀ name, Overlay.Get (fst w2) l2 name = Overlay.Get h1 l1 name.
Proof.
  intros h1 w2.
  destruct (Reset_restores [] (writeVars 0 [("IFS", strVar ":")] h1) (newRunner ∅)
              (staleRunner ErrInvalid ErrExist))
    as (_ & _ & _ & _ & _ & _ & _ & _ & _ & _ & _ & Hfatal & _ & _ & Hget).
  - reflexivity.
  - repeat split.
  - split; [exact Hfatal|exact Hget].
Defined.

Lemma keepsErrors_outcome (f : World → World) (w : World) :
  keepsErrors f → fatalErr (snd w) = None →
  Interp.outcome (snd (f w)) = Interp.outcome (snd w)
  ∧ fatalErr (snd (f w)) = None.
Proof.
  intros Hk Hn. destruct (Hk w) as (H1 & H2 & H3).
  unfold Interp.outcome. by rewrite H1, H2, (H3 Hn), Hn.
Qed.

Lemma mergeVars_outcome (w : World) :
  Interp.outcome (snd (Interp.mergeVars w)) = Interp.outcome (snd w).
Proof. destruct w as [h r]. unfold Interp.mergeVars. by destruct (writeEnv r). Qed.

(** X22: [Run] clears the fatal error of an earlier [Run] before it
    starts, but not the non-fatal handler error and not the exit code:
    when the executor sets no error and leaves the exit code alone, a
    [Run] on a Runner that was reset returns the non-fatal error the
    Runner already held, or else the exit code it already held, and the
    fatal error it held is gone. *)
Theorem Run_keeps_stale_error (ex : Interp.Executor) (node : Node) (w : World)
    (Hnode : supported node) (Hreset : didReset (snd w) = true)
    (Hquiet : quietExecutor ex) :
  snd (Interp.Run ex node w)
  = match nonFatalHandlerErr (snd w) with
    | Some e => Some e
    | None => if exit (snd w) =? 0 then None else Some (ExitStatus (exit (snd w) mod 256))
    end
  ∧ fatalErr (snd (fst (Interp.Run ex node w))) = None.
Proof.
  destruct Hquiet as (Hfill & Hstmts & Hstmt & Hcmd & Hexit).
  unfold Interp.Run, Interp.prepare. rewrite Hreset.
  destruct (Hfill w) as (Hn & He & _).
  set (w0 := (fst (Interp.fillExpandConfig ex w),
              Interp.clearTransient "" (snd (Interp.fillExpandConfig ex w)))).
  assert (fatalErr (snd w0) = None) as Hf0 by done.
  assert (Interp.outcome (snd w0)
          = match nonFatalHandlerErr (snd w) with
            | Some e => Some e
            | None => if exit (snd w) =? 0 then None
                      else Some (ExitStatus (exit (snd w) mod 256))
            end) as Hout.
  { unfold Interp.outcome, w0. cbn [snd Interp.clearTransient fatalErr nonFatalHandlerErr exit].
    rewrite Hn, He, toExitStatus_mod. done. }
  assert (∀ we, Interp.outcome (snd we) = Interp.outcome (snd w0) →
                fatalErr (snd we) = None →
                snd (Interp.mergeVars we, Interp.outcome (snd (Interp.mergeVars we)))
                = Interp.outcome (snd w0)
                ∧ fatalErr (snd (fst (Interp.mergeVars we,
                                      Interp.outcome (snd (Interp.mergeVars we))))) = None)
    as Hend.
  { intros we Ho Hf. cbn [fst snd]. rewrite mergeVars_outcome. split; [done|].
    destruct we as [h r]. unfold Interp.mergeVars. by destruct (writeEnv r). }
  rewrite <- Hout.
  destruct node as [Name Stmts|s|c|T]; [| | |done]; cbn [Interp.execute].
  - set (w1 := (fst w0, Interp.setFilename Name (snd w0))).
    assert (fatalErr (snd w1) = None) as Hf1 by done.
    assert (Interp.outcome (snd w1) = Interp.outcome (snd w0)) as Ho1 by done.
    destruct (keepsErrors_outcome _ w1 (Hstmts Stmts) Hf1) as (Ho2 & Hf2).
    destruct (exiting (snd (Interp.stmts ex Stmts w1))).
    + apply Hend; [by rewrite Ho2|done].
    + destruct (keepsErrors_outcome _ (Interp.stmts ex Stmts w1)
                  (Hexit (exit (snd (Interp.stmts ex Stmts w1)))) Hf2) as (Ho3 & Hf3).
      apply Hend; [by rewrite Ho3, Ho2|done].
  - destruct (keepsErrors_outcome _ w0 (Hstmt s) Hf0) as (Ho1 & Hf1). by apply Hend.
  - destruct (keepsErrors_outcome _ w0 (Hcmd c) Hf0) as (Ho1 & Hf1). by apply Hend.
Qed.

Lemma Run_keeps_stale_error_witness :
  snd (Interp.Run idleExecutor (StmtNode 0%nat)
         (fst (Interp.Reset ([], newRunner ∅)), staleRunner ErrInvalid ErrExist))
  = Some ErrExist.
Proof.
  destruct (Run_keeps_stale_error idleExecutor (StmtNode 0%nat)
              (fst (Interp.Reset ([], newRunner ∅)), staleRunner ErrInvalid ErrExist))
    as [H _].
  - exact I.
  - reflexivity.
  - unfold quietExecutor, keepsErrors. cbn. split_and!; intros; split_and!; done.
  - exact H.
Defined.


(** X23: the two lookups of the option table are exact: [optByName] and
    [optByFlag] return the index of an entry precisely for the name and
    the flag of that entry, no name and no flag occurring twice; the
    index constants name the entries they are called after; and the
    space that stands for "no flag" in the table is itself found as a
    flag, giving pipefail. *)
Theorem option_lookups_exact :
  (∀ (name : string) (i : nat),
     optByName name = Some i ↔ ∃ flag, shellOptsTable !! i = Some (flag, name))
  ∧ (∀ (flag : ascii) (i : nat),
       optByFlag flag = Some i ↔ ∃ name, shellOptsTable !! i = Some (flag, name))
  ∧ optByName "allexport" = Some optAllExport ∧ optByName "errexit" = Some optErrExit
  ∧ optByName "noexec" = Some optNoExec ∧ optByName "noglob" = Some optNoGlob
  ∧ optByName "nounset" = Some optNoUnset ∧ optByName "xtrace" = Some optXTrace
  ∧ optByName "pipefail" = Some optPipeFail
  ∧ optByFlag " "%char = Some optPipeFail.
Proof.
  split_and!; try reflexivity.
  - intros name i. split.
    + unfold optByName, shellOptsTable. cbn [findName fst snd].
      repeat (destruct (String.eqb _ name) eqn:E;
              [apply String.eqb_eq in E as <-; intros [= <-]; eexists; reflexivity|clear E]).
      done.
    + intros [flag Hi].
      do 7 (destruct i as [|i]; [injection Hi as <- <-; reflexivity|]).
      done.
  - intros flag i. split.
    + unfold optByFlag, shellOptsTable. cbn [findFlag fst snd].
      repeat (destruct (Ascii.eqb _ flag) eqn:E;
              [apply Ascii.eqb_eq in E as <-; intros [= <-]; eexists; reflexivity|clear E]).
      done.
    + intros [name Hi].
      do 7 (destruct i as [|i]; [injection Hi as <- <-; reflexivity|]).
      done.
Qed.


(** * A file written at the root path *)

Lemma removePath_keeps_empty (ps : list string) (rec : bool) (d : dir) :
  Forall goodPart ps →
  d_files (fst (Dir.removePath ps rec d)) !! "" = d_files d !! "".
Proof.
  intros Hgood. destruct ps as [|p [|q r]]; [done| |].
  - apply Forall_cons in Hgood as [(Hp & _ & _) _]. simpl.
    destruct (d_files d !! p) eqn:Hf.
    + cbn [fst d_files]. by rewrite lookup_delete_ne.
    + destruct (if emptyName [p] then _ else _) as [sub|e]; [|done].
      destruct (_ && _); [done|]. by destruct rec.
  - apply Forall_cons in Hgood as [(Hp & _ & _) _]. rewrite removePath_cons2.
    destruct (Dir.getDir [p] d) as [sub|e]; [|done].
    destruct (Dir.removePath (q :: r) rec sub) as [sub' err].
    unfold Dir.putDir. by destruct (decide (p = "")).
Qed.

(** X24: [WriteFile] on a path that denotes the root ("", ".", "/") does
    not fail: it stores a file under the empty name in the root.  From
    then on [Stat] of the root reports that regular file, not the
    directory, and neither [Remove] nor [RemoveAll], on any path, takes
    the file away again. *)
Theorem WriteFile_root_path (now : Time) (p : string) (data : list Byte.byte)
    (perm : FileMode) (root : dir)
    (Hroot : cleanse p = "") (Hperm : Z.land perm ModeDir = 0)
    (Hfresh : d_files root !! "" = None) :
  ∃ root' i,
    MemFS.WriteFile now p data perm root = (root', None)
    ∧ MemFS.Stat p root' = Ok i
    ∧ i = mkFileinfo "" (Z.of_nat (List.length data)) now perm
    ∧ IsDir (mode i) = false
    ∧ ∀ q, MemFS.Stat p (fst (MemFS.Remove q root')) = Ok i
           ∧ MemFS.Stat p (fst (MemFS.RemoveAll q root')) = Ok i.
Proof.
  set (i := mkFileinfo "" (Z.of_nat (List.length data)) now perm).
  set (root' := mkDir (d_info root) (d_dirs root)
                  (<["" := mkFile i (Some contentOpener) data]> (d_files root))).
  assert (∀ d, d_files d !! "" = Some (mkFile i (Some contentOpener) data) →
               MemFS.Stat p d = Ok i) as Hstat.
  { intros d Hd. unfold MemFS.Stat. rewrite Hroot.
    change (Dir.getFile (parts "") d) with
      (match d_files d !! "" with Some f => Ok f | None => Fail ErrNotExist end).
    by rewrite Hd. }
  assert (d_files root' !! "" = Some (mkFile i (Some contentOpener) data)) as Hin
    by apply lookup_insert_eq.
  exists root', i. split_and!; try done.
  - unfold MemFS.WriteFile. rewrite Hroot.
    change (parts "") with [""]. simpl. rewrite Hperm. simpl. by rewrite Hfresh.
  - by apply Hstat.
  - unfold IsDir. cbn [mode i]. by rewrite Hperm.
  - intros q. split; apply Hstat.
    + unfold MemFS.Remove, Dir.Remove.
      destruct (decide (cleanse q = "" ∨ cleanse q = ".")) as [|Hne]; [done|].
      rewrite removePath_keeps_empty; [done|].
      apply cleanse_parts. intros ?. apply Hne. by left.
    + unfold MemFS.RemoveAll, Dir.RemoveAll.
      destruct (decide (cleanse q = "" ∨ cleanse q = ".")) as [|Hne]; [done|].
      rewrite removePath_keeps_empty; [done|].
      apply cleanse_parts. intros ?. apply Hne. by left.
Qed.

Lemma WriteFile_root_path_witness :
  ∃ i, MemFS.Stat "/" (fst (MemFS.WriteFile 4 "/" [Byte.x68] 420 sampleTree)) = Ok i
       ∧ IsDir (mode i) = false.
Proof.
  destruct (WriteFile_root_path 4 "/" [Byte.x68] 420 sampleTree)
    as (root' & i & Hw & Hs & _ & Hd & _).
  - reflexivity.
  - reflexivity.
  - vm_compute. reflexivity.
  - exists i. rewrite Hw. split; [exact Hs|exact Hd].
Defined.


(** * The shape of the tree *)

Lemma wellFormed_inv (d : dir) :
  wellFormed d →
  IsDir (mode (d_info d)) = true
  ∧ (∀ k s, d_dirs d !! k = Some s → name (d_info s) = k)
  ∧ (∀ k s, d_dirs d !! k = Some s → wellFormed s)
  ∧ (∀ k f, d_files d !! k = Some f →
       name (f_info f) = k ∧ IsDir (mode (f_info f)) = false).
Proof. by inversion 1. Qed.

Lemma wellFormed_insert_dir (d sub : dir) (i : fileinfo) (p : string) :
  wellFormed d → wellFormed sub → name (d_info sub) = p → mode i = mode (d_info d) →
  wellFormed (mkDir i (<[p := sub]> (d_dirs d)) (d_files d)).
Proof.
  intros Hd Hsub Hname Hmode.
  destruct (wellFormed_inv d Hd) as (Hm & Hn & Hw & Hf).
  constructor; cbn [d_info d_dirs d_files].
  - by rewrite Hmode.
  - intros k s. destruct (decide (k = p)) as [->|Hk].
    + rewrite lookup_insert_eq. by intros [= <-].
    + rewrite lookup_insert_ne by done. apply Hn.
  - intros k s. destruct (decide (k = p)) as [->|Hk].
    + rewrite lookup_insert_eq. by intros [= <-].
    + rewrite lookup_insert_ne by done. apply Hw.
  - done.
Qed.

Lemma wellFormed_insert_file (d : dir) (f : file) (p : string) :
  wellFormed d → name (f_info f) = p → IsDir (mode (f_info f)) = false →
  wellFormed (mkDir (d_info d) (d_dirs d) (<[p := f]> (d_files d))).
Proof.
  intros Hd Hname Hmode.
  destruct (wellFormed_inv d Hd) as (Hm & Hn & Hw & Hf).
  constructor; cbn [d_info d_dirs d_files]; try done.
  intros k f'. destruct (decide (k = p)) as [->|Hk].
  - rewrite lookup_insert_eq. by intros [= <-].
  - rewrite lookup_insert_ne by done. apply Hf.
Qed.

Lemma wellFormed_new (i : fileinfo) :
  IsDir (mode i) = true → wellFormed (mkDir i ∅ ∅).
Proof. intros Hi. constructor; cbn [d_info d_dirs d_files]; [done|..]; by intros ??. Qed.

Lemma MkdirAll_info now ps perm d :
  name (d_info (fst (Dir.MkdirAll now ps perm d))) = name (d_info d)
  ∧ mode (d_info (fst (Dir.MkdirAll now ps perm d))) = mode (d_info d).
Proof.
  destruct ps as [|p ps]; [done|].
  destruct (emptyName (p :: ps)) eqn:He; [by simpl; rewrite He|].
  destruct (d_files d !! p) eqn:Hf; [by simpl; rewrite He, Hf|].
  by rewrite MkdirAll_cons.
Qed.

Lemma wellFormed_MkdirAll (ps : list string) :
  ∀ now perm d, wellFormed d → wellFormed (fst (Dir.MkdirAll now ps perm d)).
Proof.
  induction ps as [|p ps IH]; intros now perm d Hd; [done|].
  destruct (emptyName (p :: ps)) eqn:He; [by simpl; rewrite He|].
  destruct (d_files d !! p) eqn:Hf; [by simpl; rewrite He, Hf|].
  rewrite MkdirAll_cons by done. cbn [fst].
  destruct (wellFormed_inv d Hd) as (Hm & Hn & Hw & _).
  set (sub := match d_dirs d !! p with
              | Some s => s
              | None => mkDir (mkFileinfo p 256 now (dirPerm perm)) ∅ ∅
              end).
  assert (wellFormed sub ∧ name (d_info sub) = p) as [Hsub Hname].
  { unfold sub. destruct (d_dirs d !! p) as [s|] eqn:Hs.
    - split; [by apply (Hw p)|by apply Hn].
    - split; [apply wellFormed_new, dirPerm_IsDir|done]. }
  destruct (MkdirAll_info now ps (dirPerm perm) sub) as [Hn' _].
  apply wellFormed_insert_dir; [done|by apply IH|by rewrite Hn'|done].
Qed.

Lemma overwrite_info now data perm f :
  Z.land perm ModeDir = 0 → IsDir (mode (f_info f)) = false →
  name (f_info (fst (Dir.overwrite now data perm f))) = name (f_info f)
  ∧ IsDir (mode (f_info (fst (Dir.overwrite now data perm f)))) = false.
Proof.
  intros Hperm Hf. unfold Dir.overwrite.
  assert (IsDir perm = false) as Hp by (unfold IsDir; by rewrite Hperm).
  destruct (f_opener f) as [[|[[|write]|e]]|]; [| | | |done]; by destruct data.
Qed.

Lemma WriteFile_info now ps data perm d :
  d_info (fst (Dir.WriteFile now ps data perm d)) = d_info d.
Proof.
  destruct ps as [|p [|q r]].
  - simpl. by destruct (negb _).
  - simpl. destruct (negb _); [done|].
    destruct (d_files d !! p); [|done]. by destruct (Dir.overwrite _ _ _ _).
  - rewrite WriteFile_cons2. destruct (negb _); [done|].
    destruct (d_dirs d !! p); [|done]. by destruct (Dir.WriteFile _ _ _ _ _).
Qed.

Lemma wellFormed_WriteFile (ps : list string) :
  ∀ now data perm d, wellFormed d → wellFormed (fst (Dir.WriteFile now ps data perm d)).
Proof.
  induction ps as [|p ps IH]; intros now data perm d Hd.
  { simpl. by destruct (negb _). }
  destruct (wellFormed_inv d Hd) as (Hm & Hn & Hw & Hf).
  destruct ps as [|q r].
  - simpl. destruct (Z.land perm ModeDir =? 0) eqn:Hperm; [|done].
    apply Z.eqb_eq in Hperm. cbn [negb].
    destruct (d_files d !! p) as [f|] eqn:Hfp.
    + destruct (Hf p f Hfp) as [Hname Hmode].
      destruct (overwrite_info now data perm f Hperm Hmode) as [Hn' Hm'].
      destruct (Dir.overwrite now data perm f) as [f' err]. cbn [fst] in *.
      apply wellFormed_insert_file; [done|by rewrite Hn'|done].
    + apply wellFormed_insert_file; [done|done|].
      unfold IsDir. cbn [f_info mode]. by rewrite Hperm.
  - rewrite WriteFile_cons2. destruct (negb _); [done|].
    destruct (d_dirs d !! p) as [sub|] eqn:Hs; [|done].
    pose proof (IH now data perm sub (Hw p sub Hs)) as Hsub.
    pose proof (WriteFile_info now (q :: r) data perm sub) as Hinfo.
    destruct (Dir.WriteFile now (q :: r) data perm sub) as [sub' err]. cbn [fst] in *.
    apply wellFormed_insert_dir; [done|done|by rewrite Hinfo; apply (Hn p)|done].
Qed.

Lemma writeLazyFile_cons2 now p q qs opener perm d :
  Dir.writeLazyFile now (p :: q :: qs) opener perm d =
    if negb (Z.land perm ModeDir =? 0) then (d, Some (ErrorfPerm perm))
    else match d_dirs d !! p with
         | None => (d, Some ErrNotExist)
         | Some sub =>
             let '(sub', err) := Dir.writeLazyFile now (q :: qs) opener perm sub in
             (mkDir (d_info d) (<[p := sub']> (d_dirs d)) (d_files d), err)
         end.
Proof. reflexivity. Qed.

Lemma writeLazyFile_info now ps opener perm d :
  d_info (fst (Dir.writeLazyFile now ps opener perm d)) = d_info d.
Proof.
  destruct ps as [|p [|q r]].
  - simpl. by destruct (negb _).
  - simpl. by destruct (negb _).
  - rewrite writeLazyFile_cons2. destruct (negb _); [done|].
    destruct (d_dirs d !! p); [|done]. by destruct (Dir.writeLazyFile _ _ _ _ _).
Qed.

Lemma wellFormed_writeLazyFile (ps : list string) :
  ∀ now opener perm d,
    wellFormed d → wellFormed (fst (Dir.writeLazyFile now ps opener perm d)).
Proof.
  induction ps as [|p ps IH]; intros now opener perm d Hd.
  { simpl. by destruct (negb _). }
  destruct (wellFormed_inv d Hd) as (Hm & Hn & Hw & Hf).
  destruct ps as [|q r].
  - simpl. destruct (Z.land perm ModeDir =? 0) eqn:Hperm; [|done].
    apply Z.eqb_eq in Hperm. cbn [negb fst].
    apply wellFormed_insert_file; [done|done|].
    unfold IsDir. cbn [f_info mode]. by rewrite Hperm.
  - rewrite writeLazyFile_cons2. destruct (negb _); [done|].
    destruct (d_dirs d !! p) as [sub|] eqn:Hs; [|done].
    pose proof (IH now opener perm sub (Hw p sub Hs)) as Hsub.
    pose proof (writeLazyFile_info now (q :: r) opener perm sub) as Hinfo.
    destruct (Dir.writeLazyFile now (q :: r) opener perm sub) as [sub' err].
    cbn [fst] in *.
    apply wellFormed_insert_dir; [done|done|by rewrite Hinfo; apply (Hn p)|done].
Qed.

Lemma wellFormed_delete_dir (d : dir) (p : string) :
  wellFormed d → wellFormed (mkDir (d_info d) (delete p (d_dirs d)) (d_files d)).
Proof.
  intros Hd. destruct (wellFormed_inv d Hd) as (Hm & Hn & Hw & Hf).
  constructor; cbn [d_info d_dirs d_files].
  - exact Hm.
  - intros k s Hk. apply lookup_delete_Some in Hk as [_ Hk]. exact (Hn k s Hk).
  - intros k s Hk. apply lookup_delete_Some in Hk as [_ Hk]. exact (Hw k s Hk).
  - exact Hf.
Qed.

Lemma wellFormed_delete_file (d : dir) (p : string) :
  wellFormed d → wellFormed (mkDir (d_info d) (d_dirs d) (delete p (d_files d))).
Proof.
  intros Hd. destruct (wellFormed_inv d Hd) as (Hm & Hn & Hw & Hf).
  constructor; cbn [d_info d_dirs d_files].
  - exact Hm.
  - exact Hn.
  - exact Hw.
  - intros k f Hk. apply lookup_delete_Some in Hk as [_ Hk]. exact (Hf k f Hk).
Qed.

Lemma removePath_info (ps : list string) :
  ∀ rec d, d_info (fst (Dir.removePath ps rec d)) = d_info d.
Proof.
  induction ps as [|p ps IH]; intros rec d; [done|].
  destruct ps as [|q r].
  - simpl. destruct (d_files d !! p); [done|].
    destruct (if emptyName [p] then _ else _) as [sub|e]; [|done].
    destruct (_ && _); [done|]. by destruct rec.
  - rewrite removePath_cons2.
    destruct (Dir.getDir [p] d) as [sub|e] eqn:Hg; [|done].
    specialize (IH rec sub).
    destruct (Dir.removePath (q :: r) rec sub) as [sub' err]. cbn [fst] in *.
    unfold Dir.putDir. destruct (decide (p = "")) as [->|Hp]; [|done].
    change (Dir.getDir [""] d) with (Ok d) in Hg. injection Hg as <-. done.
Qed.

Lemma wellFormed_removePath (ps : list string) :
  ∀ rec d, wellFormed d → wellFormed (fst (Dir.removePath ps rec d)).
Proof.
  induction ps as [|p ps IH]; intros rec d Hd; [done|].
  destruct (wellFormed_inv d Hd) as (Hm & Hn & Hw & Hf).
  destruct ps as [|q r].
  - simpl. destruct (d_files d !! p); [by apply wellFormed_delete_file|].
    destruct (if emptyName [p] then _ else _) as [sub|e]; [|done].
    destruct (_ && _); [by apply wellFormed_delete_dir|].
    destruct rec; [by apply wellFormed_delete_dir|done].
  - rewrite removePath_cons2.
    destruct (Dir.getDir [p] d) as [sub|e] eqn:Hg; [|done].
    pose proof (removePath_info (q :: r) rec sub) as Hinfo.
    specialize (IH rec sub).
    destruct (Dir.removePath (q :: r) rec sub) as [sub' err]. cbn [fst] in *.
    unfold Dir.putDir. destruct (decide (p = "")) as [->|Hp].
    + change (Dir.getDir [""] d) with (Ok d) in Hg. injection Hg as <-. by apply IH.
    + rewrite getDir_single in Hg by done.
      destruct (d_dirs d !! p) as [s|] eqn:Hs; [|done]. injection Hg as ->.
      apply wellFormed_insert_dir;
        [done|by apply IH, (Hw p)|by rewrite Hinfo; apply (Hn p)|done].
Qed.

(** X25: the shape of the tree is an invariant of the filesystem: the
    tree [NewMemFS] starts from has it, and [MkdirAll], [WriteFile],
    [writeLazyFile], [OpenFile], [Remove] and [RemoveAll] keep it, on
    every path and whether they succeed or fail: every directory carries
    the directory bit, no file does, and every entry is stored under the
    name its info reports. *)
Theorem wellFormed_preserved (root : dir) (Hwf : wellFormed root) :
  ∀ (now : Time) (p : string) (data : list Byte.byte) (perm : FileMode)
    (opener : option lazyOpener) (flag : Z),
    wellFormed (fst (MemFS.MkdirAll now p perm root))
    ∧ wellFormed (fst (MemFS.WriteFile now p data perm root))
    ∧ wellFormed (fst (MemFS.writeLazyFile now p opener perm root))
    ∧ wellFormed (fst (MemFS.OpenFile now p flag perm root))
    ∧ wellFormed (fst (MemFS.Remove p root))
    ∧ wellFormed (fst (MemFS.RemoveAll p root)).
Proof.
  intros now p data perm opener flag. split_and!.
  - by apply wellFormed_MkdirAll.
  - by apply wellFormed_WriteFile.
  - by apply wellFormed_writeLazyFile.
  - unfold MemFS.OpenFile.
    pose proof (wellFormed_WriteFile (parts (cleanse p)) now [] perm root Hwf) as Hw.
    destruct (Dir.getFile _ root) as [f|e].
    + destruct (negb (Z.land flag O_TRUNC =? 0)); [|done].
      by destruct (Dir.WriteFile _ _ _ _ _) as [root' [err|]].
    + destruct (negb (Z.land flag O_CREATE =? 0)); [|done].
      destruct (Dir.WriteFile _ _ _ _ _) as [root' [err|]]; [done|].
      by destruct (Dir.getFile _ root').
  - unfold MemFS.Remove, Dir.Remove. destruct (decide _); [done|].
    by apply wellFormed_removePath.
  - unfold MemFS.RemoveAll, Dir.RemoveAll. destruct (decide _); [done|].
    by apply wellFormed_removePath.
Qed.

Lemma wellFormed_newMemFS (now : Time) : wellFormed (newMemFS now).
Proof. by apply wellFormed_new. Qed.

Lemma wellFormed_preserved_witness :
  wellFormed (fst (MemFS.WriteFile 2 "/a/x" [] 420 (fst (MemFS.MkdirAll 1 "/a" 493 (newMemFS 0))))).
Proof.
  apply (wellFormed_preserved (fst (MemFS.MkdirAll 1 "/a" 493 (newMemFS 0)))
           (proj1 (wellFormed_preserved (newMemFS 0) (wellFormed_newMemFS 0)
                     1 "/a" [] 493 None 0)) 2 "/a/x" [] 420 None 0).
Defined.


Lemma wellFormed_getDir (ps : list string) :
  ∀ d sub, wellFormed d → Forall goodPart ps → ps ≠ [] → Dir.getDir ps d = Ok sub →
    wellFormed sub ∧ name (d_info sub) = List.last ps "".
Proof.
  induction ps as [|p ps IH]; intros d sub Hd Hgood Hnn Hg; [done|].
  apply Forall_cons in Hgood as [(Hp & _ & _) Hgood].
  destruct (wellFormed_inv d Hd) as (_ & Hn & Hw & _).
  rewrite getDir_cons in Hg by done.
  destruct (d_dirs d !! p) as [s|] eqn:Hs; [|done].
  destruct ps as [|q r].
  - injection Hg as <-. split; [by apply (Hw p)|by apply Hn].
  - by apply (IH s sub (Hw p s Hs)).
Qed.

Lemma wellFormed_getFile (ps : list string) :
  ∀ d f, wellFormed d → Forall goodPart ps → Dir.getFile ps d = Ok f →
    name (f_info f) = List.last ps "" ∧ IsDir (mode (f_info f)) = false.
Proof.
  induction ps as [|p ps IH]; intros d f Hd Hgood Hg; [done|].
  apply Forall_cons in Hgood as [(Hp & _ & _) Hgood].
  destruct (wellFormed_inv d Hd) as (_ & _ & Hw & Hf).
  destruct ps as [|q r].
  - simpl in Hg. destruct (d_files d !! p) as [f'|] eqn:Hfp; [|done].
    injection Hg as <-. by apply Hf.
  - rewrite getFile_cons2, getDir_single in Hg by done.
    destruct (d_dirs d !! p) as [s|] eqn:Hs; [|done].
    by apply (IH s f (Hw p s Hs)).
Qed.

Lemma wellFormed_sampleTree : wellFormed sampleTree.
Proof.
  apply wellFormed_WriteFile, wellFormed_MkdirAll, wellFormed_newMemFS.
Qed.

(** X26: in a tree of that shape [Stat] tells files from directories: the
    info it returns for a path other than the root is named by the last
    part of the normalized path, and it carries the directory bit exactly
    when there is no file at the path. *)
Theorem Stat_kind (root : dir) (p : string) (i : fileinfo)
    (Hwf : wellFormed root) (Hpath : cleanse p ≠ "")
    (Hstat : MemFS.Stat p root = Ok i) :
  name i = List.last (parts (cleanse p)) ""
  ∧ (IsDir (mode i) = true ↔ ∃ e, Dir.getFile (parts (cleanse p)) root = Fail e).
Proof.
  destruct (cleanse_parts p Hpath) as (Hgood & Hnn).
  unfold MemFS.Stat in Hstat.
  destruct (Dir.getFile (parts (cleanse p)) root) as [f|e] eqn:Hf.
  - injection Hstat as <-.
    destruct (wellFormed_getFile _ root f Hwf Hgood Hf) as [Hn Hm].
    split; [done|]. rewrite Hm. split; [done|by intros [? ?]].
  - destruct (Dir.getDir (parts (cleanse p)) root) as [sub|e'] eqn:Hd; [|done].
    injection Hstat as <-.
    destruct (wellFormed_getDir _ root sub Hwf Hgood Hnn Hd) as [Hsub Hn].
    split; [done|]. split; [by exists e|intros _].
    by destruct (wellFormed_inv sub Hsub) as (? & _).
Qed.

Lemma Stat_kind_witness :
  ∃ i, MemFS.Stat "/a/../a/x" sampleTree = Ok i ∧ name i = "x".
Proof.
  destruct (MemFS.Stat "/a/../a/x" sampleTree) as [i|e] eqn:E.
  - exists i. split; [reflexivity|].
    refine (proj1 (Stat_kind sampleTree "/a/../a/x" i _ _ E)).
    + apply wellFormed_sampleTree.
    + vm_compute. intros [=].
  - vm_compute in E. discriminate E.
Defined.
